(** * window_reads.py / window_feature.py: the windowed tally engine

    A shallow embedding of the two scripts of HollickLab/window_feature
    (Python 2).  Both scripts share [verifyWS], [getLength], the per-record
    ingestion block and the window aggregation block verbatim; the
    embedding follows window_reads.py and notes where window_feature.py
    differs.

    Conventions of the embedding:
    - Python integers are [Z]; [a / b] on two integers is Python 2's floor
      division ([Z.div]) and [a % b] is [Z.modulo].
    - Python floats are Rocq's primitive binary64 floats.  [float(z)]
      rounds an int to the nearest double and raises OverflowError beyond
      the largest one, [float(s)] is the correctly rounded value of the
      literal, and [int(math.ceil(a / float(b)))] is computed on the
      doubles as the code computes it: it is the ceiling of the integers
      for operands below 2^53 ([ceil_div_exact]) and may differ from it
      beyond.
    - A statement that raises is a [Raise e]; an uncaught exception ends
      the run.
    - Lists are [list]; a subscript goes through [py_getitem], which wraps
      negative indices and raises IndexError out of range.
    - Dictionaries whose iteration order matters are association lists in
      [keys()] order, the others are [gmap]s. *)

From Stdlib Require Import ZArith Lia String Ascii.
From Stdlib Require Import PrimFloat SpecFloat FloatOps FloatAxioms FloatLemmas.
From Stdlib Require QArith.
From Stdlib Require DecimalString.
From stdpp Require Import base tactics option list gmap strings.

Local Open Scope string_scope.
Local Open Scope Z_scope.

(** ** Exceptions and the error monad *)

Inductive pyerr : Set :=
  | KeyError | IndexError | ValueError | TypeError | NameError
  | ZeroDivisionError | OverflowError | EOFError | SystemExit.

Inductive result (A : Type) : Type :=
  | Ok (a : A)
  | Raise (e : pyerr).
Arguments Ok {A} a.
Arguments Raise {A} e.

Definition rbind {A B} (m : result A) (f : A → result B) : result B :=
  match m with Ok a => f a | Raise e => Raise e end.

Notation "'let*' x := m 'in' k" := (rbind m (λ x, k))
  (at level 10, x name, m at level 100, k at level 200).

Definition is_ok {A} (r : result A) : bool :=
  match r with Ok _ => true | Raise _ => false end.

(** A [for] loop whose body may raise: the state is threaded through the
    iterations and the first exception ends the loop. *)
Fixpoint for_each {A S : Type} (body : A → S → result S) (l : list A) (s : S)
  : result S :=
  match l with
  | [] => Ok s
  | a :: l' => let* s' := body a s in for_each body l' s'
  end.

(** [range(n)] and [range(a, b)]. *)
Definition py_range (n : Z) : list Z := seqZ 0 n.
Definition py_range2 (a b : Z) : list Z := seqZ a (b - a).

(** ** Python sequences *)

(** Position of index [i] in a sequence of length [n]: negative indices
    count from the end. *)
Definition norm_index (n : nat) (i : Z) : option nat :=
  if decide (0 ≤ i < Z.of_nat n) then Some (Z.to_nat i)
  else if decide (- Z.of_nat n ≤ i < 0) then Some (Z.to_nat (i + Z.of_nat n))
  else None.

(** [l[i]] *)
Definition py_getitem {A} (l : list A) (i : Z) : result A :=
  match norm_index (length l) i with
  | Some k => match l !! k with Some a => Ok a | None => Raise IndexError end
  | None => Raise IndexError
  end.

(** [l[i] = a]; used only after [l[i]] was read, so [i] is in range. *)
Definition py_setitem {A} (l : list A) (i : Z) (a : A) : list A :=
  match norm_index (length l) i with
  | Some k => <[k := a]> l
  | None => l
  end.

(** ** Strings and [int()] *)

Definition is_digit (c : ascii) : bool :=
  (48 <=? nat_of_ascii c)%nat && (nat_of_ascii c <=? 57)%nat.

Definition digit_val (c : ascii) : Z := Z.of_nat (nat_of_ascii c) - 48.

(** The characters [str.strip()] and [int()] treat as blank. *)
Definition is_space (c : ascii) : bool :=
  let n := nat_of_ascii c in (n =? 32)%nat || ((9 <=? n)%nat && (n <=? 13)%nat).

Fixpoint lstrip (s : string) : string :=
  match s with
  | String c s' => if is_space c then lstrip s' else s
  | EmptyString => EmptyString
  end.

Fixpoint rstrip (s : string) : string :=
  match s with
  | EmptyString => EmptyString
  | String c s' =>
      match rstrip s' with
      | EmptyString => if is_space c then EmptyString else String c EmptyString
      | r => String c r
      end
  end.

Definition strip (s : string) : string := rstrip (lstrip s).

Fixpoint digits_val (acc : Z) (s : string) : option Z :=
  match s with
  | EmptyString => Some acc
  | String c s' =>
      if is_digit c then digits_val (acc * 10 + digit_val c) s' else None
  end.

Definition unsigned_lit (s : string) : result Z :=
  match s with
  | EmptyString => Raise ValueError
  | _ => match digits_val 0 s with Some z => Ok z | None => Raise ValueError end
  end.

(** A decimal literal: an optional sign and digits, with blanks allowed
    around them and, when [blank_after_sign] is set, between the sign and
    the digits. *)
Definition int_lit (blank_after_sign : bool) (s : string) : result Z :=
  let digits d := unsigned_lit (if blank_after_sign then lstrip d else d) in
  match strip s with
  | String "+" d => digits d
  | String "-" d => let* z := digits d in Ok (- z)
  | d => unsigned_lit d
  end.

(** [int(s)] for a string [s], base 10: Python 2 accepts the literals of
    [int_lit], blanks after the sign included; any other text is taken to
    be a ValueError. *)
Definition py_int (s : string) : result Z := int_lit true s.

(** [s[0:2]] *)
Definition prefix2 (s : string) : string := substring 0 2 s.

(** [s.split(":")[-1]]: the text after the last colon. *)
Fixpoint after_last_colon (s : string) : string :=
  match s with
  | EmptyString => EmptyString
  | String c s' =>
      if existsb (Ascii.eqb ":") (list_ascii_of_string s')
      then after_last_colon s'
      else if Ascii.eqb c ":" then s' else s
  end.

(** ** Numbers: Python ints and floats *)

Inductive pynum : Type :=
  | PInt (z : Z)
  | PFloat (f : float).

(** The double nearest to an int, ties to even; an infinity when the int
    is beyond the range of the doubles. *)
Definition round_Z (z : Z) : float := SF2Prim (binary_normalize prec emax z 0 false).

(** [float(z)] for an int: OverflowError when the int is too large for a
    double. *)
Definition float_of_Z (z : Z) : result float :=
  let f := round_Z z in
  if PrimFloat.is_infinity f then Raise OverflowError else Ok f.

Definition to_float (a : pynum) : result float :=
  match a with PInt z => float_of_Z z | PFloat f => Ok f end.

(** [a + b] *)
Definition py_add (a b : pynum) : result pynum :=
  match a, b with
  | PInt x, PInt y => Ok (PInt (x + y))
  | _, _ =>
      let* x := to_float a in let* y := to_float b in
      Ok (PFloat (PrimFloat.add x y))
  end.

(** [a / b] in Python 2: floor division on two ints, float division as
    soon as one side is a float; a zero divisor raises. *)
Definition py_div (a b : pynum) : result pynum :=
  match a, b with
  | PInt x, PInt y =>
      if decide (y = 0) then Raise ZeroDivisionError else Ok (PInt (x / y))
  | _, _ =>
      let* x := to_float a in let* y := to_float b in
      if PrimFloat.is_zero y then Raise ZeroDivisionError
      else Ok (PFloat (PrimFloat.div x y))
  end.

(** The digits a string starts with: the int they spell from [acc] on,
    their number added to [n], and the rest of the string. *)
Fixpoint take_digits (acc : Z) (n : Z) (s : string) : Z * Z * string :=
  match s with
  | String c s' =>
      if is_digit c then take_digits (acc * 10 + digit_val c) (n + 1) s'
      else (acc, n, s)
  | EmptyString => (acc, n, s)
  end.

(** ASCII lower case. *)
Definition lower (c : ascii) : ascii :=
  let n := nat_of_ascii c in
  if (65 <=? n)%nat && (n <=? 90)%nat then ascii_of_nat (n + 32) else c.

Fixpoint lower_string (s : string) : string :=
  match s with
  | EmptyString => EmptyString
  | String c s' => String (lower c) (lower_string s')
  end.

(** The double nearest to [n / d] for positive ints, ties to even, with
    the sign [neg]: zero when the quotient is too small, an infinity when
    it is too large. *)
Definition round_ratio (neg : bool) (n d : Z) : spec_float :=
  let '(q, e, l) := SFdiv_core_binary prec emax n 0 d 0 in
  binary_round_aux prec emax neg q e l.

(** The double nearest to [m * 10^e], with the sign [neg]. *)
Definition decimal_to_float (neg : bool) (m e : Z) : float :=
  SF2Prim
    (if decide (m = 0) then S754_zero neg
     else if decide (0 ≤ e)
          then binary_normalize prec emax (if neg then - (m * 10 ^ e) else m * 10 ^ e)
                                0 false
          else round_ratio neg m (10 ^ (- e))).

(** The exponent part of a float literal: empty, or [e] or [E], an
    optional sign and at least one digit. *)
Definition exponent_lit (s : string) : option Z :=
  match s with
  | EmptyString => Some 0
  | String c s' =>
      if Ascii.eqb (lower c) "e" then
        let '(neg, ds) := match s' with
                          | String "+" r => (false, r)
                          | String "-" r => (true, r)
                          | _ => (false, s')
                          end in
        match take_digits 0 0 ds with
        | (x, n, EmptyString) =>
            if decide (n = 0) then None else Some (if neg then - x else x)
        | _ => None
        end
      else None
  end.

(** A float literal without its sign: [inf], [infinity] or [nan] in any
    case, or digits with an optional point (a digit before or after it)
    and an optional exponent. *)
Definition unsigned_float_lit (neg : bool) (s : string) : result float :=
  let w := lower_string s in
  if String.eqb w "inf" || String.eqb w "infinity"
  then Ok (if neg then PrimFloat.neg_infinity else PrimFloat.infinity)
  else if String.eqb w "nan" then Ok PrimFloat.nan
  else
    let '(ip, ni, r1) := take_digits 0 0 s in
    let '(m, nf, r2) := match r1 with
                        | String "." r => take_digits ip 0 r
                        | _ => (ip, 0, r1)
                        end in
    if decide (ni + nf = 0) then Raise ValueError
    else match exponent_lit r2 with
         | Some x => Ok (decimal_to_float neg m (x - nf))
         | None => Raise ValueError
         end.

(** [float(s)] for a string: blanks around, an optional sign, then the
    literal; the result is the nearest double (the conversion is
    correctly rounded), an infinity beyond the range and a signed zero
    below it. *)
Definition py_float (s : string) : result float :=
  match strip s with
  | String "+" d => unsigned_float_lit false d
  | String "-" d => unsigned_float_lit true d
  | d => unsigned_float_lit false d
  end.

(** [int(math.ceil(f))] for a double: the ceiling as an int.
    [math.ceil] returns an infinity or a nan as it is, and [int] refuses
    them. *)
Definition ceil_to_int (f : float) : result Z :=
  match Prim2SF f with
  | S754_zero _ => Ok 0
  | S754_finite s m e =>
      Ok (if decide (0 ≤ e) then (if s then - (Zpos m * 2 ^ e) else Zpos m * 2 ^ e)
          else if s then - (Zpos m / 2 ^ (- e))
          else - ((- Zpos m) / 2 ^ (- e)))
  | S754_infinity _ => Raise OverflowError
  | S754_nan => Raise ValueError
  end.

(** [int(math.ceil(a / float(b)))] for ints [a] and [b], in binary64 as
    the code computes it: [float(b)] is evaluated first, the division
    converts [a] (either conversion raises OverflowError on an int beyond
    the doubles), tests the divisor and rounds the quotient to the
    nearest double; the ceiling is taken on that double. *)
Definition ceil_div (a b : Z) : result Z :=
  let* fb := float_of_Z b in
  let* fa := float_of_Z a in
  if PrimFloat.is_zero fb then Raise ZeroDivisionError
  else ceil_to_int (PrimFloat.div fa fb).

(** ** getLength *)

(** The local [number]: a string of digits, or the int it is reset to. *)
Inductive numvar : Type :=
  | NumStr (s : string)
  | NumInt (z : Z).

(** [str(d)] for a one-digit int. *)
Definition str_of_digit (d : Z) : string :=
  String (ascii_of_nat (48 + Z.to_nat d)) EmptyString.

(** [int(number)] *)
Definition int_of_numvar (number : numvar) : result Z :=
  match number with
  | NumStr s => py_int s
  | NumInt z => Ok z
  end.

Definition is_length_op (c : ascii) : bool :=
  Ascii.eqb c "M" || Ascii.eqb c "X" || Ascii.eqb c "I" || Ascii.eqb c "S"
  || Ascii.eqb c "=".

(** One iteration of the loop over [cigar[j]].  The [try] converts the
    character and appends it to [number]; appending a [str] to an int is a
    TypeError, which the [except ValueError] clause does not catch.  The
    handler adds [int(number)] for a counted operation (a ValueError there
    is raised from inside the handler and propagates) and then resets
    [number] to the int 0. *)
Definition getLength_step (ch : ascii) (st : numvar * Z) : result (numvar * Z) :=
  let '(number, count) := st in
  match py_int (String ch EmptyString) with
  | Ok d =>
      match number with
      | NumStr s => Ok (NumStr (s ++ str_of_digit d), count)
      | NumInt _ => Raise TypeError
      end
  | Raise ValueError =>
      let* count' := (if is_length_op ch
                      then let* n := int_of_numvar number in Ok (count + n)
                      else Ok count) in
      Ok (NumInt 0, count')
  | Raise e => Raise e
  end.

Definition getLength (cigar : string) : result Z :=
  let* st := for_each getLength_step (list_ascii_of_string cigar) (NumStr "", 0) in
  Ok st.2.

(** The length as the specification words it: the sum of the operand
    counts of the M, X, I, S and = operations of the CIGAR string. *)
Fixpoint cigar_ops (acc : Z) (s : string) : list (Z * ascii) :=
  match s with
  | EmptyString => []
  | String c s' =>
      if is_digit c then cigar_ops (acc * 10 + digit_val c) s'
      else (acc, c) :: cigar_ops 0 s'
  end.

Definition spec_length (cigar : string) : Z :=
  foldr (λ op acc, if is_length_op op.2 then op.1 + acc else acc) 0
        (cigar_ops 0 cigar).


(** ** Command line and validation of window and step *)

(** The parsed command line ([args]). *)
Record args : Type := Args {
  arg_window : Z;
  arg_step : Z;
  sizemin : Z;
  sizemax : Z;
  normalize : bool;
  abundance : bool;
  poolstrands : bool
}.

(** [w == 0 or s == 0 or w % s != 0] *)
Definition ws_invalid (w s : Z) : bool :=
  bool_decide (w = 0) || bool_decide (s = 0) || negb (bool_decide (w mod s = 0)).

(** The [while True] loop of [verifyWS], over the lines [raw_input] will
    return.  A ValueError, ZeroError or FactorError is caught, reported and
    the loop starts over; an exhausted input raises EOFError, which is not
    caught. *)
Fixpoint prompt_loop (inputs : list string) : result (Z * Z) :=
  match inputs with
  | [] => Raise EOFError
  | a :: rest =>
      match py_int a with
      | Raise _ => prompt_loop rest
      | Ok w =>
          if decide (w = 0) then prompt_loop rest
          else match rest with
               | [] => Raise EOFError
               | b :: rest' =>
                   match py_int b with
                   | Raise _ => prompt_loop rest'
                   | Ok s =>
                       if decide (s = 0) then prompt_loop rest'
                       else if decide (w mod s = 0) then Ok (w, s)
                       else prompt_loop rest'
                   end
               end
      end
  end.

Definition verifyWS (w s : Z) (inputs : list string) : result (Z * Z) :=
  if ws_invalid w s then prompt_loop inputs else Ok (w, s).

(** ** Chromosome table and step bins *)

(** The dictionary [chromosomes], as its items in [keys()] order. *)
Abbreviation chrom_table := (list (string * Z)).

(** [chromosomes[c]] *)
Definition chrom_len (chromosomes : chrom_table) (c : string) : result Z :=
  match (list_to_map chromosomes : gmap string Z) !! c with
  | Some len => Ok len
  | None => Raise KeyError
  end.

(** A tally grid per bin: rows by read length, columns by strand. *)
Abbreviation grid := (list (list pynum)).

(** [read_size]: the keys [range(sizemin, sizemax + 1)]. *)
Definition read_size (a : args) : list Z := py_range2 (sizemin a) (sizemax a + 1).

Definition n_sizes (a : args) : Z := Z.of_nat (length (read_size a)).

Definition n_strands (a : args) : Z := if poolstrands a then 1 else 2.

(** [[[0 for s in range(strand)] for l in range(len(read_size))]
      for b in range(n)] *)
Definition zero_grid (a : args) : grid :=
  (λ _, (λ _, PInt 0) <$> py_range (n_strands a)) <$> py_range (n_sizes a).

Definition zero_bins (a : args) (n : Z) : list grid :=
  (λ _, zero_grid a) <$> py_range n.

(** One pass of the initialisation loop: [steps[c] = [... for b in
    range(int(math.ceil(chromosomes[c] / float(step))))]]. *)
Definition init_chromosome (a : args) (step : Z) (cl : string * Z)
    (steps : gmap string (list grid)) : result (gmap string (list grid)) :=
  let* n := ceil_div cl.2 step in
  Ok (<[cl.1 := zero_bins a n]> steps).

(** The initialisation loop over [chromosomes.keys()]. *)
Definition init_steps (a : args) (step : Z) (chromosomes : chrom_table)
  : result (gmap string (list grid)) :=
  for_each (init_chromosome a step) chromosomes ∅.

(** ** Ingestion *)

(** The state of the ingestion loop: the bins and the module-level
    variables [na] and [nh], which keep their value from one line to the
    next ([None]: not bound yet). *)
Record acc : Type := Acc {
  steps : gmap string (list grid);
  na : option Z;
  nh : option pynum
}.

(** The backward scan [for i in range(len(parts)-1,-1,-1)] for the last
    field whose first two characters are [tag]. *)
Definition find_tag (tag : string) (parts : list string) : option string :=
  List.find (λ p, String.eqb (prefix2 p) tag) (rev parts).

(** The [if args.abundance] block: on a match [na] is assigned, without
    one the loop ends and [na] is left as it was. *)
Definition bind_na (a : args) (parts : list string) (na : option Z)
  : result (option Z) :=
  if abundance a then
    match find_tag "NA" parts with
    | Some p => let* z := py_int (after_last_colon p) in Ok (Some z)
    | None => Ok na
    end
  else Ok (Some 1).

Definition bind_nh (a : args) (parts : list string) (nh : option pynum)
  : result (option pynum) :=
  if normalize a then
    match find_tag "NH" parts with
    | Some p => let* f := py_float (after_last_colon p) in Ok (Some (PFloat f))
    | None => Ok nh
    end
  else Ok (Some (PInt 1)).

(** Reading a variable. *)
Definition load {A} (v : option A) : result A :=
  match v with Some x => Ok x | None => Raise NameError end.

(** [int(math.ceil(pos / float(step))) - 1] *)
Definition bin_index (step pos : Z) : result Z :=
  let* n := ceil_div pos step in Ok (n - 1).

(** The [if bin_s == bin_e: ... else: ...] block: the bins that are
    written, each with the number of bases counted there, in the order of
    the assignments. *)
Definition split_bases (step bin_s bin_e r_start r_end r_length : Z) : list (Z * Z) :=
  if decide (bin_s = bin_e) then [(bin_s, r_length)]
  else
    let full_bins := bin_e - bin_s - 1 in
    (bin_s, (bin_s + 1) * step - r_start + 1)
    :: (bin_e, r_end - bin_e * step)
    :: ((λ b, (bin_s + b, step)) <$> py_range2 1 (full_bins + 1)).

(** The bins an alignment is tallied in: [bin_s] and [bin_e] are
    computed first, in that order. *)
Definition bin_writes (step r_start r_end r_length : Z) : result (list (Z * Z)) :=
  let* bin_s := bin_index step r_start in
  let* bin_e := bin_index step r_end in
  Ok (split_bases step bin_s bin_e r_start r_end r_length).

(** [steps[c][b][li][x] += (bases * na) / nh].  The target is loaded
    before the right-hand side is evaluated. *)
Definition tally_add (c : string) (li x : Z) (na : option Z) (nh : option pynum)
    (w : Z * Z) (steps : gmap string (list grid)) : result (gmap string (list grid)) :=
  let* bins := match steps !! c with Some b => Ok b | None => Raise KeyError end in
  let* g := py_getitem bins w.1 in
  let* row := py_getitem g li in
  let* old := py_getitem row x in
  let* na' := load na in
  let* nh' := load nh in
  let* v := py_div (PInt (w.2 * na')) nh' in
  let* new := py_add old v in
  Ok (<[c := py_setitem bins w.1 (py_setitem g li (py_setitem row x new))]> steps).

(** [line[0] == "@"], on the fields of a stripped, non-empty line. *)
Definition is_header (parts : list string) : bool :=
  match parts with
  | String "@" _ :: _ => true
  | _ => false
  end.

(** What the loop body reads from a line before it looks at the tags. *)
Record alignment : Type := Alignment {
  r_chromosome : string;
  r_length : Z;
  strand : Z;
  r_start : Z
}.

Definition r_end (al : alignment) : Z := r_start al + r_length al - 1.

(** The first half of the loop body for one non-empty line, given as
    [parts = line.split("\t")]: header lines, unmapped reads (flag 4) and
    reads whose length is not a key of [read_size] are passed over
    ([None]); otherwise chromosome, strand and start are read. *)
Definition read_alignment (a : args) (parts : list string)
  : result (option alignment) :=
  if is_header parts then Ok None else
  let* flag := (let* p := py_getitem parts 1 in py_int p) in
  if decide (flag = 4) then Ok None else
  let* len := (let* p := py_getitem parts 5 in getLength p) in
  if bool_decide (len ∈ read_size a) then
    let* c := py_getitem parts 2 in
    let strand := if negb (poolstrands a) && bool_decide (flag = 16) then 1 else 0 in
    let* start := (let* p := py_getitem parts 3 in py_int p) in
    Ok (Some (Alignment c len strand start))
  else Ok None.

(** The second half: [bin_s], [bin_e] and the
    [if bin_s == bin_e: ... else: ...] block. *)
Definition tally (a : args) (step : Z) (al : alignment) (na : option Z)
    (nh : option pynum) (steps : gmap string (list grid))
  : result (gmap string (list grid)) :=
  let* writes := bin_writes step (r_start al) (r_end al) (r_length al) in
  for_each (tally_add (r_chromosome al) (r_length al - sizemin a) (strand al) na nh)
           writes steps.

(** The body of the [while True] loop of window_reads.py for one line.
    (In window_feature.py the same block processes the lines of the SAM
    path; the BAM path applies it without the header and flag test.) *)
Definition ingest_line (a : args) (step : Z) (parts : list string) (st : acc)
  : result acc :=
  let* r := read_alignment a parts in
  match r with
  | None => Ok st
  | Some al =>
      let* na' := bind_na a parts (na st) in
      let* nh' := bind_nh a parts (nh st) in
      let* steps' := tally a step al na' nh' (steps st) in
      Ok (Acc steps' na' nh')
  end.

(** The loop over the lines of the file up to the first empty one. *)
Definition ingest (a : args) (step : Z) (lines : list (list string)) (st : acc)
  : result acc :=
  for_each (ingest_line a step) lines st.

(** The check [getChromosomes] of window_reads.py makes on the first
    alignment line: it has the eleven mandatory fields and the tags of the
    enabled options are among its optional fields.  (window_feature.py
    reads the header through samtools and has no such check.) *)
Definition check_first_line (a : args) (parts : list string) : result unit :=
  if decide (length parts < 11)%nat then Raise SystemExit else
  let tags := prefix2 <$> drop 11 parts in
  if normalize a && negb (bool_decide ("NH" ∈ tags)) then Raise SystemExit
  else if abundance a && negb (bool_decide ("NA" ∈ tags)) then Raise SystemExit
  else Ok ().

(** ** Window aggregation *)

(** [window_count], computed once before the loop over the chromosomes,
    from the variable [c] the initialisation loop left behind: the last
    key of [chromosomes.keys()]. *)
Definition window_count (chromosomes : chrom_table) (window step : Z) : result Z :=
  match last chromosomes.*1 with
  | None => Raise NameError
  | Some c =>
      let* len := chrom_len chromosomes c in
      let* n := ceil_div (len - window) step in
      Ok (n + 1)
  end.

(** [windows[c][w][l][x] += steps[c][w+s][l][x]] *)
Definition window_add (steps : gmap string (list grid)) (c : string)
    (w s l x : Z) (win : list grid) : result (list grid) :=
  let* g := py_getitem win w in
  let* row := py_getitem g l in
  let* old := py_getitem row x in
  let* bins := match steps !! c with Some b => Ok b | None => Raise KeyError end in
  let* bg := py_getitem bins (w + s) in
  let* brow := py_getitem bg l in
  let* v := py_getitem brow x in
  let* new := py_add old v in
  Ok (py_setitem win w (py_setitem g l (py_setitem row x new))).

(** The four nested loops that fill [windows[c]]. *)
Definition aggregate (a : args) (window step : Z) (steps : gmap string (list grid))
    (c : string) (wc : Z) : result (list grid) :=
  for_each (λ w,
    for_each (λ s,
      for_each (λ l,
        for_each (λ x, window_add steps c w s l x) (py_range (n_strands a)))
        (py_range (n_sizes a)))
      (py_range (window / step)))
    (py_range wc) (zero_bins a wc).

(** A line of the table: chromosome, window index, the tallies by length
    and strand. *)
Abbreviation out_row := (string * Z * list pynum)%type.

Definition rows_of (c : string) (win : list grid) : list out_row :=
  imap (λ w g, (c, Z.of_nat w, concat g)) win.

(** The loop over [chromosomes.keys()]: each chromosome is aggregated and
    its rows are written before the next one starts, so the rows written
    before an exception stay in the file. *)
Fixpoint aggregate_loop (a : args) (window step : Z) (steps : gmap string (list grid))
    (wc : Z) (cs : list string) : list out_row * option pyerr :=
  match cs with
  | [] => ([], None)
  | c :: cs' =>
      match aggregate a window step steps c wc with
      | Raise e => ([], Some e)
      | Ok win =>
          let '(rows, e) := aggregate_loop a window step steps wc cs' in
          ((rows_of c win ++ rows)%list, e)
      end
  end.

(** The checks [getChromosomes] of window_reads.py makes when it meets
    the first line that is not a header line. *)
Definition header_checks (a : args) (chromosomes : chrom_table)
    (lines : list (list string)) : result unit :=
  match List.find (λ parts, negb (is_header parts)) lines with
  | None => Ok ()
  | Some parts =>
      if decide (chromosomes = []) then Raise SystemExit
      else check_first_line a parts
  end.

(** The run of window_reads.py once the files are opened and
    [chromosomes] is read from the header: the first alignment line is
    checked, window and step are validated, the bins are initialised and
    filled, then the windows are written.  The result is the rows written
    and the exception that ended the run, if any. *)
Definition run (a : args) (chromosomes : chrom_table) (inputs : list string)
    (lines : list (list string)) : list out_row * option pyerr :=
  match header_checks a chromosomes lines with
  | Raise e => ([], Some e)
  | Ok _ =>
      match verifyWS (arg_window a) (arg_step a) inputs with
      | Raise e => ([], Some e)
      | Ok (window, step) =>
          match init_steps a step chromosomes with
          | Raise e => ([], Some e)
          | Ok steps0 =>
              match ingest a step lines (Acc steps0 None None) with
              | Raise e => ([], Some e)
              | Ok st =>
                  match window_count chromosomes window step with
                  | Raise e => ([], Some e)
                  | Ok wc => aggregate_loop a window step (steps st) wc chromosomes.*1
                  end
              end
          end
      end
  end.

(** ** getInput *)

(** [str(exception).split(":")[-1].strip()], on the text of the
    exception. *)
Definition getInput (message : string) : string := strip (after_last_colon message).

(** ** read_chunk (window_feature.py) *)

Definition is_newline (c : ascii) : bool := Ascii.eqb c "010".

(** Puts a character in front of the first piece. *)
Definition cons_head (c : ascii) (pieces : list (list ascii)) : list (list ascii) :=
  match pieces with
  | [] => [[c]]
  | l :: ls => (c :: l) :: ls
  end.

(** [s.split("\n")], on the characters of [s]: the pieces between the
    newlines, at least one. *)
Fixpoint split_nl (s : list ascii) : list (list ascii) :=
  match s with
  | [] => [[]]
  | c :: s' => if is_newline c then [] :: split_nl s' else cons_head c (split_nl s')
  end.

(** [file_obj.read(n)] on the characters not read yet: what is read and
    what is left.  A negative [n] reads to the end. *)
Definition file_read (n : Z) (rest : list ascii) : list ascii * list ascii :=
  if decide (n < 0) then (rest, [])
  else (take (Z.to_nat n) rest, drop (Z.to_nat n) rest).

(** The [while chunk] loop of [read_chunk], with the lines it yields, in
    order.  Each pass yields [chunk_list[:-1]] and goes on with
    [chunk_list[-1] + file_obj.read(chunk_size)].  The loop need not end:
    [fuel] bounds the passes and [None] says they were all used. *)
Fixpoint read_chunk_loop (fuel : nat) (chunk_size : Z) (chunk rest : list ascii)
  : option (list (list ascii)) :=
  match fuel with
  | O => None
  | S fuel' =>
      match chunk with
      | [] => Some []
      | _ =>
          let chunk_list := split_nl chunk in
          let '(more, rest') := file_read chunk_size rest in
          yielded ← read_chunk_loop fuel' chunk_size (List.last chunk_list [] ++ more)%list rest';
          Some (removelast chunk_list ++ yielded)%list
      end
  end.

Definition read_chunk (fuel : nat) (chunk_size : Z) (file : list ascii)
  : option (list (list ascii)) :=
  let '(chunk, rest) := file_read chunk_size file in
  read_chunk_loop fuel chunk_size chunk rest.

(** ** The header line of the table *)

(** [str(z)] for an int. *)
Definition py_str (z : Z) : string := DecimalString.NilZero.string_of_int (Z.to_int z).

Definition tab : string := String "009" EmptyString.

(** The string [header] written before the rows. *)
Definition header_line (a : args) : string :=
  foldl (λ header d,
           if poolstrands a then (header ++ tab ++ py_str d)%string
           else (header ++ tab ++ py_str d ++ "W" ++ tab ++ py_str d ++ "C")%string)
        ("Chromosome" ++ tab ++ "Window")%string
        (py_range2 (sizemin a) (sizemax a + 1)).

(** The number of tab characters of a string. *)
Fixpoint count_tabs (s : string) : nat :=
  match s with
  | EmptyString => O
  | String c s' => if Ascii.eqb c "009" then S (count_tabs s') else count_tabs s'
  end.

(** ** Digits *)

Definition all_digits (s : string) : Prop :=
  Forall (λ c, is_digit c = true) (list_ascii_of_string s).

Definition no_digits (s : string) : Prop :=
  Forall (λ c, is_digit c = false) (list_ascii_of_string s).

(** A string that begins with one of the operations that count. *)
Definition starts_with_length_op (s : string) : bool :=
  match s with
  | String c _ => is_length_op c
  | EmptyString => false
  end.

(** ** getChromosomes *)

(** [s[0:3]] and [s[3:]] *)
Definition prefix3 (s : string) : string := substring 0 3 s.

Definition from3 (s : string) : string :=
  match s with
  | String _ (String _ (String _ s')) => s'
  | _ => EmptyString
  end.

(** [c[parts[1].strip()[3:]] = int(parts[2].strip()[3:])]: the value is
    evaluated before the key. *)
Definition read_sq (parts : list string) (c : gmap string Z) : result (gmap string Z) :=
  let* len := (let* p := py_getitem parts 2 in py_int (from3 (strip p))) in
  let* name := py_getitem parts 1 in
  Ok (<[from3 (strip name) := len]> c).

(** The [while True] loop of [getChromosomes] over the lines of the file
    up to the first empty one, each stripped and given as its fields
    [line.split("\t")], from the dictionary [c] built so far.  A line
    that starts with @SQ adds an entry; the first line that does not
    start with @ is checked and ends the loop. *)
Fixpoint getChromosomes (a : args) (lines : list (list string)) (c : gmap string Z)
  : result (gmap string Z) :=
  match lines with
  | [] => Ok c
  | parts :: rest =>
      let* c' := (if String.eqb (prefix3 (hd EmptyString parts)) "@SQ"
                  then read_sq parts c else Ok c) in
      if is_header parts then getChromosomes a rest c'
      else if decide (c' = ∅) then Raise SystemExit
      else let* _ := check_first_line a parts in Ok c'
  end.

(** An @SQ line with the name and the length in the places the code
    reads them from. *)
Definition sq_fields (name len : string) : list string :=
  ["@SQ"; ("SN:" ++ name)%string; ("LN:" ++ len)%string].

(** ** The BAM branch of window_feature.py *)

(** The first half of the loop body over the lines [bam_chunk] yields:
    the block of the SAM branch without the test for header lines and
    flag 4.  The flag is read only for the strand, and only without
    --poolstrands. *)
Definition read_bam_alignment (a : args) (parts : list string)
  : result (option alignment) :=
  let* len := (let* p := py_getitem parts 5 in getLength p) in
  if bool_decide (len ∈ read_size a) then
    let* c := py_getitem parts 2 in
    let* strand := (if negb (poolstrands a)
                    then let* flag := (let* p := py_getitem parts 1 in py_int p) in
                         Ok (if bool_decide (flag = 16) then 1 else 0)
                    else Ok 0) in
    let* start := (let* p := py_getitem parts 3 in py_int p) in
    Ok (Some (Alignment c len strand start))
  else Ok None.

Definition ingest_bam_line (a : args) (step : Z) (parts : list string) (st : acc)
  : result acc :=
  let* r := read_bam_alignment a parts in
  match r with
  | None => Ok st
  | Some al =>
      let* na' := bind_na a parts (na st) in
      let* nh' := bind_nh a parts (nh st) in
      let* steps' := tally a step al na' nh' (steps st) in
      Ok (Acc steps' na' nh')
  end.

Definition ingest_bam (a : args) (step : Z) (lines : list (list string)) (st : acc)
  : result acc :=
  for_each (ingest_bam_line a step) lines st.

(** ** The formulas of the specification *)

(** The zero-based index of the bin holding [position]:
    floor((position - 1) / step). *)
Definition spec_bin_index (step position : Z) : Z := (position - 1) / step.

(** The number of windows of a chromosome:
    ceil((chromosome_length - window) / step) + 1. *)
(** The ceiling of [a / b] on the integers. *)
Definition exact_ceil (a b : Z) : Z := - ((- a) / b).

Definition spec_window_count (chromosome_length window step : Z) : Z :=
  exact_ceil (chromosome_length - window) step + 1.

(** The sign of a double that is not a nan. *)
Definition sign_is (s : bool) (x : spec_float) : Prop :=
  match x with
  | S754_zero s' | S754_infinity s' | S754_finite s' _ _ => s' = s
  | S754_nan => False
  end.

(** The index [ceil(position / step) - 1] on the integers. *)
Definition exact_bin_index (step pos : Z) : Z := exact_ceil pos step - 1.

(** Rounding a quotient in two steps. *)

(** The location of q/2 + (the fraction located by l)/2 against q/2. *)
Definition halved_location (odd : bool) (l : location) : location :=
  match odd, l with
  | false, loc_Exact => loc_Exact
  | false, _ => loc_Inexact Lt
  | true, loc_Exact => loc_Inexact Eq
  | true, _ => loc_Inexact Gt
  end.


(** The rows of the output table that belong to chromosome [c]. *)
Definition rows_for (c : string) (rows : list out_row) : list out_row :=
  filter (λ r, r.1.1 = c) rows.

(** ** Cells of the nested tables *)

(** [t[i][j][k]] *)
Definition get3 (t : list grid) (i j k : Z) : result pynum :=
  let* g := py_getitem t i in
  let* row := py_getitem g j in
  py_getitem row k.

(** The sum the specification asks of a window: the tallies of slot
    [(l, x)] in the [k] bins from [w] on, added up from 0 from the first
    bin to the last. *)
Definition window_sum (bins : list grid) (w l x k : Z) : result pynum :=
  for_each (λ s acc, let* v := get3 bins (w + s) l x in py_add acc v)
           (py_range k) (PInt 0).

(** What happens to one slot [(i, j, k)] of [windows[c]] in one pass of
    the innermost loop body. *)
Definition cell_step (bins : list grid) (i j k : Z) (w s l x : Z) (acc : pynum)
  : result pynum :=
  if decide (w = i ∧ l = j ∧ x = k)
  then let* v := get3 bins (w + s) l x in py_add acc v
  else Ok acc.

(** The values a tally holds in a run: ints without --normalize; with it,
    the initial int 0 or a float. *)
Definition tally_kind (fl : bool) (v : pynum) : Prop :=
  if fl then v = PInt 0 ∨ ∃ f, v = PFloat f else ∃ z, v = PInt z.

(** Tables of the dimensions the comprehensions build, holding tallies of
    one kind. *)
Definition grid_ok (a : args) (fl : bool) (g : grid) : Prop :=
  length g = Z.to_nat (n_sizes a) ∧
  Forall (λ row, length row = Z.to_nat (n_strands a) ∧ Forall (tally_kind fl) row) g.

Definition bins_ok (a : args) (fl : bool) (t : list grid) : Prop :=
  Forall (grid_ok a fl) t.

(** The state of a run: every chromosome's bins have the dimensions of
    the initialisation and hold tallies of one kind. *)
Definition tallies_ok (a : args) (fl : bool) (steps : gmap string (list grid)) : Prop :=
  map_Forall (λ _ bins, bins_ok a fl bins) steps.

(** [steps[c][b][li][x]] *)
Definition get4 (steps : gmap string (list grid)) (c : string) (b li x : Z)
  : result pynum :=
  match steps !! c with
  | Some bins => get3 bins b li x
  | None => Raise KeyError
  end.

(** ** Totals of a slot over the bins *)

(** The tally of slot [(li, x)] of one bin, as an integer (0 when the slot
    is missing or holds a float). *)
Definition slot_int (g : grid) (li x : Z) : Z :=
  match (let* row := py_getitem g li in py_getitem row x) with
  | Ok (PInt z) => z
  | _ => 0
  end.

(** The total of slot [(li, x)] over all the bins of a chromosome, for
    integer tallies. *)
Definition slot_total (bins : list grid) (li x : Z) : Z :=
  foldr (λ g acc, slot_int g li x + acc) 0 bins.

(** The number of bases tallied by a list of writes. *)
Definition bases (ws : list (Z * Z)) : Z := foldr (λ w acc, w.2 + acc) 0 ws.

(** The exact value of a finite double, as a rational. *)
Definition float_exact (f : float) : QArith_base.Q :=
  match Prim2SF f with
  | S754_finite s m e =>
      QArith_base.Qmult (QArith_base.inject_Z (if s then Z.neg m else Z.pos m))
                        (QArith_base.Qpower (QArith_base.inject_Z 2) e)
  | _ => QArith_base.inject_Z 0
  end.

Definition pynum_exact (v : pynum) : QArith_base.Q :=
  match v with
  | PInt z => QArith_base.inject_Z z
  | PFloat f => float_exact f
  end.

Definition slot_exact (g : grid) (li x : Z) : QArith_base.Q :=
  match (let* row := py_getitem g li in py_getitem row x) with
  | Ok v => pynum_exact v
  | Raise _ => QArith_base.inject_Z 0
  end.

(** The total of slot [(li, x)] over all the bins, as the exact sum of the
    values the tallies hold, ints or floats. *)
Definition exact_total (bins : list grid) (li x : Z) : QArith_base.Q :=
  foldr (λ g acc, QArith_base.Qplus (slot_exact g li x) acc)
        (QArith_base.inject_Z 0) bins.

(** The weighted length [(r_length * na) / nh] of an alignment. *)
Definition weight (al : alignment) (na : Z) (nh : pynum) : result pynum :=
  py_div (PInt (r_length al * na)) nh.

(** ** Writes in integer arithmetic *)

(** A write of ingestion without --normalize: the slot and the integer
    added to it. *)
Record write : Type := Write {
  w_chrom : string;
  w_bin : Z;
  w_len : Z;
  w_strand : Z;
  w_amount : Z
}.

(** [l[i] = f(l[i])] when [l[i]] exists. *)
Definition py_alter {A} (f : A → A) (i : Z) (l : list A) : list A :=
  match norm_index (length l) i with
  | Some k => alter f k l
  | None => l
  end.

Definition add_int (d : Z) (v : pynum) : pynum :=
  match v with
  | PInt z => PInt (z + d)
  | PFloat f => PFloat f
  end.

(** The effect of a write on integer tallies. *)
Definition bump (w : write) (steps : gmap string (list grid)) : gmap string (list grid) :=
  alter (py_alter (py_alter (py_alter (add_int (w_amount w)) (w_strand w)) (w_len w))
                  (w_bin w))
        (w_chrom w) steps.

Definition path_ok (steps : gmap string (list grid)) (w : write) : Prop :=
  is_ok (get4 steps (w_chrom w) (w_bin w) (w_len w) (w_strand w)) = true.

(** The value of [na] a line leaves behind when its tag is there. *)
Definition line_na (a : args) (parts : list string) : result Z :=
  if abundance a then
    match find_tag "NA" parts with
    | Some p => py_int (after_last_colon p)
    | None => Raise NameError
    end
  else Ok 1.

(** The writes of a line without --normalize. *)
Definition line_writes (a : args) (step : Z) (parts : list string)
  : result (list write) :=
  let* r := read_alignment a parts in
  match r with
  | None => Ok []
  | Some al =>
      let* n := line_na a parts in
      let* writes := bin_writes step (r_start al) (r_end al) (r_length al) in
      Ok ((λ w, Write (r_chromosome al) w.1 (r_length al - sizemin a) (strand al)
                      (w.2 * n))
            <$> writes)
  end.

Definition writes_of (a : args) (step : Z) (parts : list string) : list write :=
  match line_writes a step parts with Ok ws => ws | Raise _ => [] end.

Definition line_good (a : args) (step : Z) (parts : list string) : Prop :=
  is_ok (line_writes a step parts) = true.

(** Every line carries the tag --abundance asks for. *)
Definition tagged (a : args) (parts : list string) : Prop :=
  abundance a = true → is_Some (find_tag "NA" parts).

(** ** Inputs used in the examples *)

Module Examples.

(** A SAM line with the eleven mandatory fields and the given tags. *)
Definition sam_line (name flag chrom pos cigar : string) (tags : list string)
  : list string :=
  [name; flag; chrom; pos; "255"; cigar; "*"; "0"; "0"; "*"; "*"] ++ tags.

(** window 20, step 10, reads of length 5, strands apart. *)
Definition args_len5 : args := Args 20 10 5 5 false false false.

(** The same with --abundance, reads of length 20. *)
Definition args_abundance : args := Args 20 10 20 20 false true false.

(** --normalize, reads of length 3. *)
Definition args_normalize3 : args := Args 20 10 3 3 true false false.

(** --normalize, reads of length 20. *)
Definition args_normalize20 : args := Args 20 10 20 20 true false false.

(** An invalid window of 0 on the command line. *)
Definition args_window0 : args := Args 0 10 5 5 false false false.

Definition one_chrom : chrom_table := [("chr1", 100)].
Definition two_chroms : chrom_table := [("chr1", 100); ("chr2", 50)].
Definition two_chroms_swapped : chrom_table := [("chr2", 50); ("chr1", 100)].
Definition short_chrom : chrom_table := [("chr1", 15)].

(** window 200, step 100, --normalize, reads of length 20. *)
Definition args_normalize_wide : args := Args 200 100 20 20 true false false.

(** Three reads of length 20 at position 5, with NH 1, 2 and 3. *)
Definition read_nh (n : string) : list string :=
  sam_line "r" "0" "chr1" "5" "20M" ["NH:i:" ++ n]%string.

Definition read_nh10 : list string := sam_line "r3" "0" "chr1" "10" "3M" ["NH:i:10"].
Definition read_at_15 : list string := sam_line "r0" "0" "chr1" "15" "5M" [].
Definition read_na5 : list string := sam_line "r1" "0" "chr1" "5" "20M" ["NA:i:5"].
Definition read_no_na : list string := sam_line "r2" "0" "chr1" "45" "20M" [].

(** A read of length 0 at position 11. *)
Definition read_0M : list string := sam_line "r5" "0" "chr1" "11" "0M" [].

(** [steps] as the initialisation loop leaves it (empty when the loop
    raises). *)
Definition initial (a : args) (step : Z) (chromosomes : chrom_table)
  : gmap string (list grid) :=
  match init_steps a step chromosomes with Ok t => t | Raise _ => ∅ end.

(** The state before the first line is read. *)
Definition start (a : args) (step : Z) (chromosomes : chrom_table) : acc :=
  Acc (initial a step chromosomes) None None.

(** The doubles nearest to 0.1, 0.2 and 0.3, and the next double after
    the last one. *)
Definition tenth : float := 0x1.999999999999ap-4.
Definition two_tenths : float := 0x1.999999999999ap-3.
Definition three_tenths : float := 0x1.3333333333333p-2.
Definition above_three_tenths : float := 0x1.3333333333334p-2.

(** [read_na5] as [read_alignment] sees it, and the state after it. *)
Definition al_na5 : alignment := Alignment "chr1" 20 0 5.

Definition after_na5 : acc :=
  Acc (<["chr1" := (λ z, [[PInt z; PInt 0]]) <$> [30; 50; 20; 0; 0; 0; 0; 0; 0; 0]]>
         (initial args_abundance 10 one_chrom))
      (Some 5) (Some (PInt 1)).

Definition read_na7 : list string := sam_line "r4" "16" "chr1" "45" "20M" ["NA:i:7"].

(** The state a successful ingestion ends in (the start state
    otherwise). *)
Definition ingested (a : args) (step : Z) (chromosomes : chrom_table)
    (lines : list (list string)) : acc :=
  match ingest a step lines (start a step chromosomes) with
  | Ok st => st
  | Raise _ => start a step chromosomes
  end.

(** The state after [read_at_15], and the bins of chr1 in it. *)
Definition after_read_at_15 : acc := ingested args_len5 10 one_chrom [read_at_15].

Definition bins_read_at_15 : list (list (list pynum)) :=
  (λ z, [[PInt z; PInt 0]]) <$> [0; 5; 0; 0; 0; 0; 0; 0; 0; 0].

End Examples.


(** Every line carries the tag --normalize asks for. *)
Definition tagged_nh (a : args) (parts : list string) : Prop :=
  normalize a = true → is_Some (find_tag "NH" parts).

(** ** The invariant of ingestion *)

(** [nh] is unbound, the int 1 (without --normalize) or a float (with it). *)
Definition nh_ok (fl : bool) (nh : option pynum) : Prop :=
  match nh with
  | None => True
  | Some h => if fl then ∃ f, h = PFloat f else h = PInt 1
  end.

Definition state_ok (a : args) (st : acc) : Prop :=
  tallies_ok a (normalize a) (steps st) ∧ nh_ok (normalize a) (nh st).
(** * Properties *)

(** ** Binary64: the ceiling of a quotient of ints *)

Lemma digits2_pos_bounds (p : positive) :
  2 ^ (Zpos (digits2_pos p) - 1) ≤ Zpos p < 2 ^ Zpos (digits2_pos p).
Proof.
  induction p as [p IH|p IH|]; cbn [digits2_pos].
  - rewrite Pos2Z.inj_succ. replace (Z.succ (Zpos (digits2_pos p)) - 1) with (Zpos (digits2_pos p)) by lia.
    rewrite Z.pow_succ_r by lia.
    replace (2 ^ Zpos (digits2_pos p)) with (2 * 2 ^ (Zpos (digits2_pos p) - 1)) in *
      by (rewrite <- Z.pow_succ_r by lia; f_equal; lia).
    lia.
  - rewrite Pos2Z.inj_succ. replace (Z.succ (Zpos (digits2_pos p)) - 1) with (Zpos (digits2_pos p)) by lia.
    rewrite Z.pow_succ_r by lia.
    replace (2 ^ Zpos (digits2_pos p)) with (2 * 2 ^ (Zpos (digits2_pos p) - 1)) in *
      by (rewrite <- Z.pow_succ_r by lia; f_equal; lia).
    lia.
  - simpl. lia.
Qed.

Lemma digits2_pos_unique (p : positive) (d : Z) :
  2 ^ (d - 1) ≤ Zpos p < 2 ^ d → Zpos (digits2_pos p) = d.
Proof.
  intros [Hlo Hhi]. pose proof (digits2_pos_bounds p) as [Hlo' Hhi'].
  assert (0 < d).
  { destruct (decide (0 < d)) as [|Hd]; [done|].
    assert (2 ^ d ≤ 1); [|lia].
    destruct (decide (d = 0)) as [->|]; [done|].
    rewrite Z.pow_neg_r by lia. lia. }
  destruct (Z.lt_trichotomy (Zpos (digits2_pos p)) d) as [Hlt|[Heq|Hgt]]; [|done|].
  - assert (2 ^ Zpos (digits2_pos p) ≤ 2 ^ (d - 1)) by (apply Z.pow_le_mono_r; lia). lia.
  - assert (2 ^ d ≤ 2 ^ (Zpos (digits2_pos p) - 1)) by (apply Z.pow_le_mono_r; lia). lia.
Qed.

Lemma pos_iter_xO (m : positive) (n : positive) :
  Zpos (Pos.iter xO m n) = Zpos m * 2 ^ Zpos n.
Proof.
  induction n as [|n IH] using Pos.peano_ind.
  - simpl. lia.
  - rewrite Pos.iter_succ, Pos2Z.inj_succ, Z.pow_succ_r by lia.
    rewrite Pos2Z.inj_xO, IH. lia.
Qed.

Lemma binary_round_aux_exact (s : bool) (m : positive) (e : Z) :
  Zpos (digits2_pos m) = 53 → -1074 ≤ e ≤ 971 →
  binary_round_aux prec emax s (Zpos m) e loc_Exact = S754_finite s m e.
Proof.
  intros Hd He. unfold binary_round_aux, shr_fexp. cbn [Zdigits2].
  rewrite Hd. unfold fexp, emin, prec, emax.
  replace (Z.max (53 + e - 53) (3 - 1024 - 53) - e) with 0 by lia.
  cbn [shr shr_record_of_loc shr_m loc_of_shr_record round_nearest_even Zdigits2].
  rewrite Hd.
  replace (Z.max (53 + e - 53) (3 - 1024 - 53) - e) with 0 by lia.
  cbn [shr shr_record_of_loc shr_m].
  destruct (Z.leb_spec e (1024 - 53)); [done|lia].
Qed.

Lemma binary_normalize_small (a : Z) :
  a ≠ 0 → Z.abs a < 2 ^ 53 →
  ∃ m : positive,
    binary_normalize prec emax a 0 false
    = S754_finite (bool_decide (a < 0)) m (Z.log2 (Z.abs a) - 52)
    ∧ Zpos m = Z.abs a * 2 ^ (52 - Z.log2 (Z.abs a))
    ∧ Zpos (digits2_pos m) = 53.
Proof.
  intros Ha Hlt.
  assert (∀ (s : bool) (p : positive), Zpos p < 2 ^ 53 →
            ∃ m : positive,
              binary_round prec emax s p 0 = S754_finite s m (Z.log2 (Zpos p) - 52)
              ∧ Zpos m = Zpos p * 2 ^ (52 - Z.log2 (Zpos p))
              ∧ Zpos (digits2_pos m) = 53) as Hround.
  { intros s p Hp. unfold binary_round.
    pose proof (digits2_pos_bounds p) as Hd.
    assert (Z.log2 (Zpos p) = Zpos (digits2_pos p) - 1) as Hlog.
    { apply Z.log2_unique; [lia|].
      replace (Z.succ (Zpos (digits2_pos p) - 1)) with (Zpos (digits2_pos p)) by lia. done. }
    assert (Zpos (digits2_pos p) ≤ 53) as Hd53.
    { destruct (decide (Zpos (digits2_pos p) ≤ 53)); [done|].
      assert (2 ^ 53 ≤ 2 ^ (Zpos (digits2_pos p) - 1)) by (apply Z.pow_le_mono_r; lia). lia. }
    unfold shl_align, fexp, emin, prec, emax.
    replace (Z.max (Zpos (digits2_pos p) + 0 - 53) (3 - 1024 - 53) - 0)
      with (Zpos (digits2_pos p) - 53) by lia.
    replace (Z.max (Zpos (digits2_pos p) + 0 - 53) (3 - 1024 - 53))
      with (Zpos (digits2_pos p) - 53) by lia.
    destruct (Zpos (digits2_pos p) - 53) as [|k|k] eqn:Hk; [|lia|].
    - exists p. rewrite Hlog. replace (Zpos (digits2_pos p) - 1 - 52) with 0 by lia.
      replace (52 - (Zpos (digits2_pos p) - 1)) with 0 by lia.
      split_and!; [|lia|lia].
      apply (binary_round_aux_exact s p 0); lia.
    - exists (Pos.iter xO p k).
      assert (Zpos (Pos.iter xO p k) = Zpos p * 2 ^ Zpos k) as Hm by apply pos_iter_xO.
      assert (Zpos (digits2_pos (Pos.iter xO p k)) = 53) as Hd'.
      { apply digits2_pos_unique. rewrite Hm.
        replace (2 ^ (53 - 1)) with (2 ^ (Zpos (digits2_pos p) - 1) * 2 ^ Zpos k)
          by (rewrite <- Z.pow_add_r by lia; f_equal; lia).
        replace (2 ^ 53) with (2 ^ (Zpos (digits2_pos p)) * 2 ^ Zpos k)
          by (rewrite <- Z.pow_add_r by lia; f_equal; lia).
        assert (0 < 2 ^ Zpos k) by (apply Z.pow_pos_nonneg; lia). nia. }
      rewrite Hlog. replace (Zpos (digits2_pos p) - 1 - 52) with (Zneg k) by lia.
      replace (52 - (Zpos (digits2_pos p) - 1)) with (Zpos k) by lia.
      split_and!; [|done|done].
      apply binary_round_aux_exact; [done|lia]. }
  destruct a as [|p|p]; [done|..]; cbn [binary_normalize Z.abs].
  - rewrite bool_decide_eq_false_2 by lia. apply Hround. simpl in Hlt. lia.
  - rewrite bool_decide_eq_true_2 by lia. apply Hround. simpl in Hlt. lia.
Qed.

Lemma Prim2SF_finite_flags (f : float) s m e :
  Prim2SF f = S754_finite s m e →
  PrimFloat.is_zero f = false ∧ PrimFloat.is_infinity f = false.
Proof.
  unfold Prim2SF. destruct (is_nan f); [done|].
  destruct (PrimFloat.is_zero f); [done|].
  destruct (PrimFloat.is_infinity f); [done|]. done.
Qed.

Lemma round_Z_small (a : Z) :
  a ≠ 0 → Z.abs a < 2 ^ 53 →
  ∃ m : positive,
    Prim2SF (round_Z a) = S754_finite (bool_decide (a < 0)) m (Z.log2 (Z.abs a) - 52)
    ∧ Zpos m = Z.abs a * 2 ^ (52 - Z.log2 (Z.abs a))
    ∧ Zpos (digits2_pos m) = 53
    ∧ float_of_Z a = Ok (round_Z a).
Proof.
  intros Ha Hlt. destruct (binary_normalize_small a Ha Hlt) as (m & Hn & Hm & Hd).
  assert (0 ≤ Z.log2 (Z.abs a) ≤ 52) as Hlog.
  { split; [apply Z.log2_nonneg|]. assert (Z.log2 (Z.abs a) < 53); [|lia].
    apply Z.log2_lt_pow2; lia. }
  assert (Prim2SF (round_Z a)
          = S754_finite (bool_decide (a < 0)) m (Z.log2 (Z.abs a) - 52)) as HP.
  { unfold round_Z. rewrite Hn. apply Prim2SF_SF2Prim.
    unfold valid_binary, bounded, canonical_mantissa. rewrite Hd.
    unfold fexp, emin, FloatOps.prec, FloatOps.emax.
    apply andb_true_intro. split; [apply Z.eqb_eq|apply Z.leb_le]; lia. }
  exists m. split_and!; [done..|].
  unfold float_of_Z. cbv zeta.
  by destruct (Prim2SF_finite_flags _ _ _ _ HP) as [_ ->].
Qed.

Lemma new_location_cmp (m r : Z) :
  0 ≤ r < m →
  new_location m r = if decide (r = 0) then loc_Exact else loc_Inexact (2 * r ?= m).
Proof.
  intros Hr. unfold new_location, new_location_even, new_location_odd.
  case_decide as Hz.
  - subst r. by destruct (Z.even m).
  - apply Z.eqb_neq in Hz as Hz'. destruct (Z.even m) eqn:Hev; rewrite Hz'; [done|].
    f_equal. assert (Z.odd m = true) as Hodd by (by rewrite <- Z.negb_even, Hev).
    apply Z.odd_spec in Hodd as [j Hj].
    destruct (Z.compare_spec (2 * r + 1) m); destruct (Z.compare_spec (2 * r) m);
      try done; lia.
Qed.

(** The second shift of [binary_round_aux]: a mantissa that rounding took
    to 2^53 is brought back to 53 bits. *)
Lemma round_aux_second (s : bool) (M e : Z) :
  2 ^ 52 ≤ M ≤ 2 ^ 53 → -1074 ≤ e ≤ 900 →
  ∃ (m'' : positive) (e'' : Z),
    (let '(mrs'', e'') := shr_fexp prec emax M e loc_Exact in
     match shr_m mrs'' with
     | Z0 => S754_zero s
     | Zpos m => if Z.leb e'' (emax - prec) then S754_finite s m e'' else S754_infinity s
     | Zneg _ => S754_nan
     end) = S754_finite s m'' e''
    ∧ e ≤ e'' ≤ e + 1 ∧ Zpos m'' * 2 ^ (e'' - e) = M.
Proof.
  intros HM He. destruct (decide (M = 2 ^ 53)) as [->|Hne].
  - exists (Z.to_pos (2 ^ 52)), (e + 1).
    unfold shr_fexp. change (Zdigits2 (2 ^ 53)) with 54.
    unfold fexp, emin, prec, emax.
    replace (Z.max (54 + e - 53) (3 - 1024 - 53) - e) with 1 by lia.
    cbn [shr SpecFloat.iter_pos shr_record_of_loc].
    change (shr_1 {| shr_m := 2 ^ 53; shr_r := false; shr_s := false |})
      with {| shr_m := 2 ^ 52; shr_r := false; shr_s := false |}.
    cbn [shr_m]. change (2 ^ 52) with (Zpos (Z.to_pos (2 ^ 52))) at 1.
    cbv iota.
    destruct (Z.leb_spec (e + 1) (1024 - 53)); [|lia].
    split_and!; [done|lia|lia|]. replace (e + 1 - e) with 1 by lia. done.
  - destruct M as [|Mp|Mp]; [lia| |lia].
    assert (Zpos (digits2_pos Mp) = 53) as Hd by (apply digits2_pos_unique; lia).
    exists Mp, e. unfold shr_fexp. cbn [Zdigits2]. rewrite Hd.
    unfold fexp, emin, prec, emax.
    replace (Z.max (53 + e - 53) (3 - 1024 - 53) - e) with 0 by lia.
    cbn [shr shr_record_of_loc shr_m].
    destruct (Z.leb_spec e (1024 - 53)); [|lia].
    split_and!; [done|lia|lia|]. rewrite Z.sub_diag. simpl. lia.
Qed.

Lemma round_nearest_even_step (m : Z) (l : location) :
  round_nearest_even m l = m ∨ round_nearest_even m l = m + 1.
Proof. destruct l as [|[]]; cbn; try destruct (Z.even m); auto. Qed.

Lemma round_aux_quotient (s : bool) (q e : Z) (l : location) :
  2 ^ 52 ≤ q < 2 ^ 54 → -1074 ≤ e ≤ 800 →
  ∃ (m'' : positive) (e'' W : Z),
    binary_round_aux prec emax s q e l = S754_finite s m'' e''
    ∧ e ≤ e'' ∧ Zpos m'' * 2 ^ (e'' - e) = W
    ∧ ((q < 2 ^ 53 ∧ W = round_nearest_even q l)
       ∨ (2 ^ 53 ≤ q
          ∧ W = 2 * round_nearest_even (q / 2) (halved_location (Z.odd q) l))).
Proof.
  intros Hq He. destruct q as [|qp|qp]; [lia| |lia].
  unfold binary_round_aux.
  destruct (decide (Zpos qp < 2 ^ 53)) as [Hlt|Hge].
  - assert (Zpos (digits2_pos qp) = 53) as Hd by (apply digits2_pos_unique; lia).
    unfold shr_fexp at 1. cbn [Zdigits2]. rewrite Hd.
    unfold fexp at 1, emin, prec, emax.
    replace (Z.max (53 + e - 53) (3 - 1024 - 53) - e) with 0 by lia.
    cbn [shr].
    assert (loc_of_shr_record (shr_record_of_loc (Zpos qp) l) = l) as ->
      by (by destruct l as [|[]]).
    assert (shr_m (shr_record_of_loc (Zpos qp) l) = Zpos qp) as ->
      by (by destruct l as [|[]]).
    destruct (round_aux_second s (round_nearest_even (Zpos qp) l) e)
      as (m'' & e'' & Hres & He'' & Hval).
    { destruct (round_nearest_even_step (Zpos qp) l) as [->| ->]; lia. }
    { lia. }
    exists m'', e'', (round_nearest_even (Zpos qp) l).
    split_and!; [exact Hres|lia|done|]. left. done.
  - assert (Zpos (digits2_pos qp) = 54) as Hd by (apply digits2_pos_unique; lia).
    unfold shr_fexp at 1. cbn [Zdigits2]. rewrite Hd.
    unfold fexp at 1, emin, prec, emax.
    replace (Z.max (54 + e - 53) (3 - 1024 - 53) - e) with 1 by lia.
    cbn [shr SpecFloat.iter_pos].
    assert (shr_m (shr_1 (shr_record_of_loc (Zpos qp) l)) = Zpos qp / 2
            ∧ loc_of_shr_record (shr_1 (shr_record_of_loc (Zpos qp) l))
              = halved_location (Z.odd (Zpos qp)) l) as [-> ->].
    { destruct qp as [p|p|]; [| |lia].
      - split; [|by destruct l as [|[]]].
        transitivity (Zpos p); [by destruct l as [|[]]|].
        rewrite Pos2Z.inj_xI. apply (Z.div_unique _ _ _ 1); lia.
      - split; [|by destruct l as [|[]]].
        transitivity (Zpos p); [by destruct l as [|[]]|].
        rewrite Pos2Z.inj_xO. apply (Z.div_unique _ _ _ 0); lia. }
    assert (2 ^ 52 ≤ Zpos qp / 2 < 2 ^ 53) as Hh.
    { split; [apply Z.div_le_lower_bound; lia|apply Z.div_lt_upper_bound; lia]. }
    destruct (round_aux_second s
                (round_nearest_even (Zpos qp / 2) (halved_location (Z.odd (Zpos qp)) l))
                (e + 1))
      as (m'' & e'' & Hres & He'' & Hval).
    { destruct (round_nearest_even_step (Zpos qp / 2)
                  (halved_location (Z.odd (Zpos qp)) l)) as [->| ->]; lia. }
    { lia. }
    exists m'', e'',
      (2 * round_nearest_even (Zpos qp / 2) (halved_location (Z.odd (Zpos qp)) l)).
    split_and!; [exact Hres|lia| |right; split; [lia|done]].
    rewrite <- Hval. replace (e'' - e) with (Z.succ (e'' - (e + 1))) by lia.
    rewrite Z.pow_succ_r by lia. lia.
Qed.

(** Rounding to nearest moves the scaled quotient by at most half a unit
    of the last place. *)
Lemma rounded_quotient_error (q r mb W : Z) :
  0 < mb → 0 ≤ r < mb → 2 ^ 52 ≤ q →
  (q < 2 ^ 53 ∧ W = round_nearest_even q (new_location mb r))
  ∨ (2 ^ 53 ≤ q
     ∧ W = 2 * round_nearest_even (q / 2)
                 (halved_location (Z.odd q) (new_location mb r))) →
  ∃ S, 2 * Z.abs (W * mb - (q * mb + r)) ≤ S * mb
       ∧ ((S = 1 ∧ q < 2 ^ 53) ∨ (S = 2 ∧ 2 ^ 53 ≤ q ∧ Z.even W = true)).
Proof.
  intros Hmb Hr Hq HW. rewrite (new_location_cmp mb r Hr) in HW.
  destruct HW as [[Hlt ->]|[Hge ->]].
  - exists 1. split; [|by left].
    case_decide as Hz; cbn [round_nearest_even].
    + subst r. replace (q * mb - (q * mb + 0)) with 0 by lia. simpl. lia.
    + destruct (Z.compare_spec (2 * r) mb) as [Heq|Hlt'|Hgt]; cbn [round_nearest_even].
      * destruct (Z.even q); nia.
      * nia.
      * nia.
  - exists 2. split; [|right; split_and!; [done..|]].
    + pose proof (Z.div_mod q 2 ltac:(lia)) as Hdm.
      pose proof (Z.mod_pos_bound q 2 ltac:(lia)) as Hbound.
      rewrite Zmod_odd in Hdm, Hbound.
      destruct (Z.odd q) eqn:Hodd; cbn [halved_location].
      * case_decide as Hz; cbn [round_nearest_even].
        -- subst r. destruct (Z.even (q / 2)); nia.
        -- destruct (2 * r ?= mb); cbn [round_nearest_even]; nia.
      * case_decide as Hz; cbn [round_nearest_even].
        -- subst r. nia.
        -- destruct (2 * r ?= mb); cbn [round_nearest_even]; nia.
    + rewrite Z.even_mul. done.
Qed.

Lemma ceil_of_rounded (A B T W S : Z) :
  0 < A → 0 < B → 0 < T →
  S * B < 2 * T →
  2 * Z.abs (W * B - A * T) ≤ S * B →
  S = 1 ∨ (S = 2 ∧ Z.even W = true ∧ Z.even T = true) →
  W / T = A / B ∧ - ((- W) / T) = - ((- A) / B).
Proof.
  intros HA HB HT HST Herr HS.
  pose proof (Z.div_mod A B ltac:(lia)) as HAB.
  pose proof (Z.mod_pos_bound A B HB) as Hrho.
  set (k := A / B) in *. set (rho := A mod B) in *.
  assert (A * T = k * T * B + rho * T) as HAT by nia.
  destruct (decide (rho = 0)) as [Hz|Hnz].
  - assert (W = k * T) as ->.
    { rewrite Hz in HAT. replace (W * B - A * T) with ((W - k * T) * B) in Herr by nia.
      destruct HS as [->|(-> & HevW & HevT)].
      - assert (Z.abs (W - k * T) * B = Z.abs ((W - k * T) * B)) by (rewrite Z.abs_mul; lia).
        assert (Z.abs (W - k * T) < 1) by nia. lia.
      - assert (Z.abs (W - k * T) * B = Z.abs ((W - k * T) * B)) by (rewrite Z.abs_mul; lia).
        assert (Z.abs (W - k * T) ≤ 1) by nia.
        apply Z.even_spec in HevW as [w Hw]. apply Z.even_spec in HevT as [t Ht].
        subst W T. lia. }
    split; [apply Z.div_mul; lia|]. f_equal. transitivity (- k).
    + replace (- (k * T)) with ((- k) * T) by lia. apply Z.div_mul. lia.
    + apply (Z.div_unique _ _ _ 0); lia.
  - assert (k * T < W < (k + 1) * T) as HW.
    { assert (S = 1 ∨ S = 2) as HS' by (destruct HS as [?|[? _]]; lia).
      assert (1 ≤ rho ≤ B - 1) by lia.
      assert (T ≤ rho * T) by nia.
      assert (rho * T ≤ B * T - T) by nia.
      split.
      - assert (k * T * B < W * B); [|nia]. lia.
      - assert (W * B < (k + 1) * T * B); [|nia]. lia. }
    split.
    + symmetry. apply (Z.div_unique _ _ _ (W - k * T)); lia.
    + f_equal. transitivity (- (k + 1)).
      * symmetry. apply (Z.div_unique _ _ _ ((k + 1) * T - W)); lia.
      * apply (Z.div_unique _ _ _ (B - rho)); lia.
Qed.

Lemma ceil_to_int_finite (f : float) (s : bool) (m : positive) (e e0 W : Z) :
  Prim2SF f = S754_finite s m e →
  e0 ≤ e → e0 ≤ 0 → Zpos m * 2 ^ (e - e0) = W →
  ceil_to_int f = Ok (if s then - (W / 2 ^ (- e0)) else - ((- W) / 2 ^ (- e0))).
Proof.
  intros Hf He He0 <-. unfold ceil_to_int. rewrite Hf. f_equal.
  assert (0 < 2 ^ (- e0)) by (apply Z.pow_pos_nonneg; lia).
  case_decide as Hpos.
  - replace (2 ^ (e - e0)) with (2 ^ e * 2 ^ (- e0))
      by (rewrite <- Z.pow_add_r by lia; f_equal; lia).
    replace (- (Zpos m * (2 ^ e * 2 ^ (- e0)))) with ((- (Zpos m * 2 ^ e)) * 2 ^ (- e0)) by lia.
    rewrite Z.mul_assoc, !Z.div_mul by lia. destruct s; lia.
  - assert (0 < 2 ^ (e - e0)) by (apply Z.pow_pos_nonneg; lia).
    replace (2 ^ (- e0)) with (2 ^ (- e) * 2 ^ (e - e0))
      by (rewrite <- Z.pow_add_r by lia; f_equal; lia).
    replace (- (Zpos m * 2 ^ (e - e0))) with ((- Zpos m) * 2 ^ (e - e0)) by lia.
    rewrite !Z.div_mul_cancel_r by lia. done.
Qed.

Lemma SFdiv_core_small (ma mb : positive) (ea eb : Z) :
  Zpos (digits2_pos ma) = 53 → Zpos (digits2_pos mb) = 53 →
  -52 ≤ ea - eb ≤ 52 →
  SFdiv_core_binary prec emax (Zpos ma) ea (Zpos mb) eb
  = ((Zpos ma * 2 ^ 53) / Zpos mb, ea - eb - 53,
     new_location (Zpos mb) ((Zpos ma * 2 ^ 53) mod Zpos mb)).
Proof.
  intros Hda Hdb He. unfold SFdiv_core_binary. cbn [Zdigits2]. rewrite Hda, Hdb.
  unfold fexp, emin, prec, emax.
  replace (Z.min (Z.max (53 + ea - (53 + eb) - 53) (3 - 1024 - 53)) (ea - eb))
    with (ea - eb - 53) by lia.
  replace (ea - eb - (ea - eb - 53)) with 53 by lia.
  cbv iota. rewrite Z.shiftl_mul_pow2 by lia.
  unfold Z.div, Z.modulo. by destruct (Z.div_eucl _ _).
Qed.

Lemma divisor_below_scale (A B T c q r P K : Z) :
  0 < c → 0 < T → 0 < B → 0 ≤ r →
  A * T * c = B * c * q + r → P ≤ q → A < K →
  B * P < K * T.
Proof.
  intros Hc HT HB Hr Heq HP HA.
  assert (B * c * P ≤ B * c * q) as H1 by (apply Z.mul_le_mono_nonneg_l; lia).
  assert ((B * P) * c ≤ (A * T) * c) as H2 by lia.
  apply Z.mul_le_mono_pos_r in H2; [|done].
  assert (A * T < K * T) as H3 by (apply Z.mul_lt_mono_pos_r; done).
  lia.
Qed.

(** For ints below 2^53 the ceiling taken on the double quotient is the
    ceiling of the exact quotient. *)
Theorem ceil_div_exact (a b : Z) :
  Z.abs a < 2 ^ 53 → b ≠ 0 → Z.abs b < 2 ^ 53 →
  ceil_div a b = Ok (exact_ceil a b).
Proof.
  intros Ha Hb0 Hb. unfold ceil_div.
  destruct (round_Z_small b Hb0 Hb) as (mb & HPb & Hmb & Hdb & ->). cbn [rbind].
  destruct (Prim2SF_finite_flags _ _ _ _ HPb) as [Hzb _].
  destruct (decide (a = 0)) as [->|Ha0].
  - change (float_of_Z 0) with (Ok PrimFloat.zero). cbn [rbind]. rewrite Hzb.
    unfold ceil_to_int. rewrite div_spec, HPb.
    change (Prim2SF PrimFloat.zero) with (S754_zero false). done.
  - destruct (round_Z_small a Ha0 Ha) as (ma & HPa & Hma & Hda & ->). cbn [rbind].
    rewrite Hzb.
    set (A := Z.abs a) in *. set (B := Z.abs b) in *.
    assert (0 < A) by lia. assert (0 < B) by lia.
    assert (0 ≤ Z.log2 A ≤ 52) as HlA.
    { split; [apply Z.log2_nonneg|]. assert (Z.log2 A < 53); [|lia].
      apply Z.log2_lt_pow2; lia. }
    assert (0 ≤ Z.log2 B ≤ 52) as HlB.
    { split; [apply Z.log2_nonneg|]. assert (Z.log2 B < 53); [|lia].
      apply Z.log2_lt_pow2; lia. }
    pose proof (digits2_pos_bounds ma) as Hba. rewrite Hda in Hba.
    pose proof (digits2_pos_bounds mb) as Hbb. rewrite Hdb in Hbb.
    set (q := (Zpos ma * 2 ^ 53) / Zpos mb).
    set (r := (Zpos ma * 2 ^ 53) mod Zpos mb).
    pose proof (Z.div_mod (Zpos ma * 2 ^ 53) (Zpos mb) ltac:(lia)) as Hdm.
    pose proof (Z.mod_pos_bound (Zpos ma * 2 ^ 53) (Zpos mb) ltac:(lia)) as Hrb.
    fold q r in Hdm, Hrb.
    assert (2 ^ 52 ≤ q < 2 ^ 54) as Hq.
    { unfold q. split.
      - apply Z.div_le_lower_bound; [lia|].
        transitivity (2 ^ 53 * 2 ^ 52); [apply Z.mul_le_mono_nonneg_r; lia|].
        rewrite (Z.mul_comm (Zpos ma)). apply Z.mul_le_mono_nonneg_l; lia.
      - apply Z.div_lt_upper_bound; [lia|].
        apply Z.lt_le_trans with (2 ^ 53 * 2 ^ 53);
          [apply Z.mul_lt_mono_pos_r; lia|].
        change (2 ^ 53 * 2 ^ 53) with (2 ^ 52 * 2 ^ 54).
        apply Z.mul_le_mono_nonneg_r; lia. }
    assert (Prim2SF (round_Z a / round_Z b)
            = binary_round_aux prec emax
                (xorb (bool_decide (a < 0)) (bool_decide (b < 0))) q
                (Z.log2 A - Z.log2 B - 53) (new_location (Zpos mb) r)) as Hdiv.
    { rewrite div_spec, HPa, HPb. unfold SF64div, SFdiv.
      rewrite SFdiv_core_small by (done || lia).
      fold q r. f_equal. lia. }
    destruct (round_aux_quotient
                (xorb (bool_decide (a < 0)) (bool_decide (b < 0))) q
                (Z.log2 A - Z.log2 B - 53) (new_location (Zpos mb) r) Hq)
      as (m'' & e'' & W & Hres & He'' & Hval & HW); [lia|].
    rewrite Hres in Hdiv.
    rewrite (ceil_to_int_finite _ _ _ _ (Z.log2 A - Z.log2 B - 53) W Hdiv)
      by (done || lia).
    destruct (rounded_quotient_error q r (Zpos mb) W) as (S & Herr & HS);
      [lia|done|lia|done|].
    set (T := 2 ^ (- (Z.log2 A - Z.log2 B - 53))).
    set (c := 2 ^ (52 - Z.log2 B)) in *.
    assert (0 < c) by (apply Z.pow_pos_nonneg; lia).
    assert (0 < T) by (apply Z.pow_pos_nonneg; lia).
    assert (Zpos ma * 2 ^ 53 = A * T * c) as HN.
    { rewrite Hma. unfold T, c. rewrite <- !Z.mul_assoc, <- !Z.pow_add_r by lia.
      do 2 f_equal. lia. }
    assert (Z.even T = true) as HevT.
    { unfold T. replace (- (Z.log2 A - Z.log2 B - 53))
        with (Z.succ (52 + Z.log2 B - Z.log2 A)) by lia.
      rewrite Z.pow_succ_r by lia. rewrite Z.even_mul. done. }
    assert (2 * Z.abs (W * B - A * T) ≤ S * B) as Herr'.
    { replace (q * Zpos mb + r) with (Zpos ma * 2 ^ 53) in Herr by lia.
      rewrite HN, Hmb in Herr.
      replace (W * (B * c) - A * T * c) with ((W * B - A * T) * c) in Herr by lia.
      rewrite Z.abs_mul, (Z.abs_eq c) in Herr by lia.
      apply (Z.mul_le_mono_pos_r _ _ c); [done|]. lia. }
    assert (S * B < 2 * T) as HST.
    { rewrite HN, Hmb in Hdm.
      destruct HS as [[-> Hq1]|(-> & Hq2 & _)].
      - pose proof (divisor_below_scale A B T c q r (2 ^ 52) (2 ^ 53)
                      ltac:(done) ltac:(done) ltac:(done) ltac:(lia) Hdm
                      ltac:(lia) ltac:(lia)) as Hlt.
        change (2 ^ 53) with (2 * 2 ^ 52) in Hlt.
        apply (Z.mul_lt_mono_pos_r (2 ^ 52)); [done|]. lia.
      - pose proof (divisor_below_scale A B T c q r (2 ^ 53) (2 ^ 53)
                      ltac:(done) ltac:(done) ltac:(done) ltac:(lia) Hdm
                      ltac:(lia) ltac:(lia)) as Hlt.
        apply (Z.mul_lt_mono_pos_r (2 ^ 53)); [done|]. lia. }
    destruct (ceil_of_rounded A B T W S) as [Hfloor Hceil]; [lia..|done|done| |].
    { destruct HS as [[-> _]|(-> & _ & HevW)]; [by left|by right]. }
    f_equal. unfold exact_ceil.
    destruct (decide (a < 0)) as [Han|Hap]; destruct (decide (b < 0)) as [Hbn|Hbp];
      rewrite ?(bool_decide_eq_true_2 (a < 0)), ?(bool_decide_eq_false_2 (a < 0)),
        ?(bool_decide_eq_true_2 (b < 0)), ?(bool_decide_eq_false_2 (b < 0)) by done;
      cbn [xorb].
    + rewrite Hceil. replace a with (- A) by lia. replace b with (- B) by lia.
      rewrite Z.opp_involutive. f_equal. rewrite <- (Z.div_opp_opp A (- B)) by lia.
      by rewrite Z.opp_involutive.
    + rewrite Hfloor. replace a with (- A) by lia. replace b with B by lia.
      by rewrite Z.opp_involutive.
    + rewrite Hfloor. replace a with A by lia. replace b with (- B) by lia.
      by rewrite Z.div_opp_opp by lia.
    + rewrite Hceil. replace a with A by lia. replace b with B by lia. done.
Qed.

(** ** Binary64: the sign of a quotient *)

Lemma iter_pos_inv {A} (P : A → Prop) (f : A → A) :
  (∀ x, P x → P (f x)) → ∀ n x, P x → P (SpecFloat.iter_pos f n x).
Proof.
  intros Hf. induction n as [n IH|n IH|]; intros x Hx; cbn [SpecFloat.iter_pos]; auto.
Qed.

Lemma shr_1_nonneg mrs : 0 ≤ shr_m mrs → 0 ≤ shr_m (shr_1 mrs).
Proof.
  destruct mrs as [m r s]. cbn [shr_m]. intros Hm.
  destruct m as [|[p|p|]|p]; cbn; lia.
Qed.

Lemma shr_fexp_nonneg m e l :
  0 ≤ m → 0 ≤ shr_m (shr_fexp prec emax m e l).1.
Proof.
  intros Hm. unfold shr_fexp, shr.
  assert (0 ≤ shr_m (shr_record_of_loc m l)) as H0 by (by destruct l as [|[]]).
  destruct (fexp prec emax (Zdigits2 m + e) - e) as [|p|p]; cbn [fst]; [done| |done].
  apply (iter_pos_inv (λ mrs, 0 ≤ shr_m mrs)); [apply shr_1_nonneg|done].
Qed.

Lemma round_nearest_even_nonneg m l : 0 ≤ m → 0 ≤ round_nearest_even m l.
Proof. intros Hm. destruct l as [|[]]; cbn; try destruct (Z.even m); lia. Qed.

Lemma binary_round_aux_sign sx mx ex lx :
  0 ≤ mx → sign_is sx (binary_round_aux prec emax sx mx ex lx).
Proof.
  intros Hm. unfold binary_round_aux.
  pose proof (shr_fexp_nonneg mx ex lx Hm) as H1.
  destruct (shr_fexp prec emax mx ex lx) as [mrs' e']. cbn [fst] in H1.
  pose proof (shr_fexp_nonneg _ e' loc_Exact
                (round_nearest_even_nonneg _ (loc_of_shr_record mrs') H1)) as H2.
  destruct (shr_fexp prec emax _ e' loc_Exact) as [mrs'' e'']. cbn [fst] in H2.
  destruct (shr_m mrs'') as [|m|m]; [done| |lia].
  by destruct (e'' <=? emax - prec).
Qed.

Lemma binary_round_sign sx mx ex : sign_is sx (binary_round prec emax sx mx ex).
Proof.
  unfold binary_round. destruct (shl_align _ _ _) as [mz ez].
  by apply binary_round_aux_sign.
Qed.

Lemma binary_normalize_sign (z : Z) :
  sign_is (bool_decide (z < 0)) (binary_normalize prec emax z 0 false).
Proof.
  destruct z as [|p|p]; cbn [binary_normalize]; [done|..]; apply binary_round_sign.
Qed.

Lemma SFldexp_sign s x e : sign_is s x → sign_is s (SFldexp prec emax x e).
Proof.
  destruct x as [| | |s' m e']; cbn [SFldexp]; try done.
  intros <-. apply binary_round_sign.
Qed.

Lemma SFopp_sign s x : sign_is s x → sign_is (negb s) (SFopp x).
Proof. destruct x; cbn; congruence. Qed.

Lemma SF2Prim_sign s x : sign_is s x → sign_is s (Prim2SF (SF2Prim x)).
Proof.
  destruct x as [[]|[]| |s' m e]; cbn [sign_is]; try done; try (by intros <-).
  intros <-. cbn [SF2Prim].
  assert (sign_is false (Prim2SF (Z.ldexp (of_uint63 (Uint63Axioms.of_Z (Zpos m))) e))) as H.
  { rewrite Z_ldexp_spec. apply SFldexp_sign. rewrite of_uint63_spec.
    pose proof (binary_normalize_sign (Uint63Axioms.to_Z (Uint63Axioms.of_Z (Z.pos m)))) as Hn.
    rewrite bool_decide_eq_false_2 in Hn; [done|].
    pose proof (Uint63.to_Z_bounded (Uint63Axioms.of_Z (Z.pos m))). lia. }
  destruct s'; [|done]. rewrite opp_spec. by apply (SFopp_sign false).
Qed.

Lemma round_Z_sign (z : Z) : sign_is (bool_decide (z < 0)) (Prim2SF (round_Z z)).
Proof. apply SF2Prim_sign, binary_normalize_sign. Qed.

Lemma SFdiv_core_nonneg m1 e1 m2 e2 :
  0 ≤ (SFdiv_core_binary prec emax (Zpos m1) e1 (Zpos m2) e2).1.1.
Proof.
  unfold SFdiv_core_binary.
  set (s := e1 - e2 - _).
  set (m' := match s with Z.pos _ => Z.shiftl (Zpos m1) s | 0 => Zpos m1 | Z.neg _ => 0 end).
  assert (0 ≤ m') as Hm'.
  { subst m'. destruct s; [lia| |lia]. apply Z.shiftl_nonneg. lia. }
  pose proof (Z_div_mod m' (Zpos m2) ltac:(lia)) as H.
  destruct (Z.div_eucl m' (Zpos m2)) as [q r]. cbn [fst].
  destruct H as [H1 H2]. nia.
Qed.

Lemma SFdiv_sign sx sy x y :
  sign_is sx x → sign_is sy y →
  SFdiv prec emax x y = S754_nan ∨ sign_is (xorb sx sy) (SFdiv prec emax x y).
Proof.
  destruct x as [s1|s1| |s1 m1 e1], y as [s2|s2| |s2 m2 e2]; cbn [sign_is SFdiv];
    try done; try (intros <- <-; by auto).
  intros <- <-. right.
  pose proof (SFdiv_core_nonneg m1 e1 m2 e2) as Hq.
  destruct (SFdiv_core_binary prec emax (Zpos m1) e1 (Zpos m2) e2) as [[q e] l].
  by apply binary_round_aux_sign.
Qed.

Lemma ceil_to_int_negative (f : float) (n : Z) :
  sign_is true (Prim2SF f) → ceil_to_int f = Ok n → n ≤ 0.
Proof.
  unfold ceil_to_int. destruct (Prim2SF f) as [s|s| |s m e]; cbn [sign_is]; try done.
  - by intros _ [= <-].
  - intros -> [= <-]. case_decide.
    + assert (0 < 2 ^ e) by (apply Z.pow_pos_nonneg; lia). nia.
    + assert (0 < 2 ^ (- e)) by (apply Z.pow_pos_nonneg; lia).
      assert (0 ≤ Zpos m / 2 ^ (- e)) by (apply Z.div_pos; lia). lia.
Qed.

Lemma ceil_to_int_positive (f : float) (n : Z) :
  sign_is false (Prim2SF f) → ceil_to_int f = Ok n → 0 ≤ n.
Proof.
  unfold ceil_to_int. destruct (Prim2SF f) as [s|s| |s m e]; cbn [sign_is]; try done.
  - by intros _ [= <-].
  - intros -> [= <-]. case_decide.
    + assert (0 < 2 ^ e) by (apply Z.pow_pos_nonneg; lia). nia.
    + assert (0 < 2 ^ (- e)) by (apply Z.pow_pos_nonneg; lia).
      assert (- Zpos m / 2 ^ (- e) < 0) by (apply Z.div_lt_upper_bound; lia). lia.
Qed.

Lemma ceil_div_Ok (a b n : Z) :
  ceil_div a b = Ok n →
  PrimFloat.is_zero (round_Z b) = false
  ∧ ceil_to_int (PrimFloat.div (round_Z a) (round_Z b)) = Ok n.
Proof.
  unfold ceil_div, float_of_Z.
  destruct (PrimFloat.is_infinity (round_Z b)); cbn [rbind]; [done|].
  destruct (PrimFloat.is_infinity (round_Z a)); cbn [rbind]; [done|].
  destruct (PrimFloat.is_zero (round_Z b)); [done|]. done.
Qed.

(** The sign of the ceiling, whatever the size of the operands. *)
Lemma ceil_div_sign (a b n : Z) :
  ceil_div a b = Ok n →
  (0 ≤ a → b < 0 → n ≤ 0) ∧ (a < 0 → 0 < b → n ≤ 0)
  ∧ (0 ≤ a → 0 < b → 0 ≤ n) ∧ (a < 0 → b < 0 → 0 ≤ n).
Proof.
  intros (_ & H)%ceil_div_Ok.
  pose proof (round_Z_sign a) as Ha. pose proof (round_Z_sign b) as Hb.
  pose proof (SFdiv_sign _ _ _ _ Ha Hb) as Hd.
  change (SFdiv prec emax) with SF64div in Hd. rewrite <- div_spec in Hd.
  assert (Prim2SF (round_Z a / round_Z b) ≠ S754_nan) as Hnan.
  { intros E. unfold ceil_to_int in H. by rewrite E in H. }
  destruct Hd as [?|Hd]; [done|].
  split_and!; intros Ha' Hb'.
  - rewrite bool_decide_eq_false_2, bool_decide_eq_true_2 in Hd by lia.
    by eapply ceil_to_int_negative.
  - rewrite bool_decide_eq_true_2, bool_decide_eq_false_2 in Hd by lia.
    by eapply ceil_to_int_negative.
  - rewrite !bool_decide_eq_false_2 in Hd by lia.
    by eapply ceil_to_int_positive.
  - rewrite !bool_decide_eq_true_2 in Hd by lia.
    by eapply ceil_to_int_positive.
Qed.

Lemma ceil_div_zero (b n : Z) : ceil_div 0 b = Ok n → n = 0.
Proof.
  intros (_ & H)%ceil_div_Ok. unfold ceil_to_int in H.
  rewrite div_spec in H.
  change (Prim2SF (round_Z 0)) with (S754_zero false) in H.
  destruct (Prim2SF (round_Z b)) as [s|s| |s m e]; cbn in H; congruence.
Qed.

(** ** Arithmetic of bin indices *)

Lemma exact_ceil_floor (a b : Z) : 0 < b → exact_ceil a b = (a - 1) / b + 1.
Proof.
  intros Hb. unfold exact_ceil.
  pose proof (Z.div_mod (a - 1) b ltac:(lia)) as Hq.
  pose proof (Z.mod_pos_bound (a - 1) b Hb) as Hr.
  assert ((- a) / b = - ((a - 1) / b + 1)) as ->; [|lia].
  symmetry. apply (Z.div_unique_pos _ _ _ (b - 1 - (a - 1) mod b)); lia.
Qed.

Lemma exact_bin_index_floor (step pos : Z) :
  0 < step → exact_bin_index step pos = (pos - 1) / step.
Proof. intros Hs. unfold exact_bin_index. rewrite exact_ceil_floor by done. lia. Qed.

Lemma exact_bin_index_mono (step p q : Z) :
  0 < step → p ≤ q → exact_bin_index step p ≤ exact_bin_index step q.
Proof.
  intros Hs Hpq. rewrite !exact_bin_index_floor by done.
  apply Z.div_le_mono; lia.
Qed.


(** Below 2^53 the index computed on the doubles is the exact one. *)
Lemma bin_index_exact (step pos : Z) :
  Z.abs pos < 2 ^ 53 → step ≠ 0 → Z.abs step < 2 ^ 53 →
  bin_index step pos = Ok (exact_bin_index step pos).
Proof.
  intros Hp Hs0 Hs. unfold bin_index, exact_bin_index.
  by rewrite ceil_div_exact.
Qed.

Lemma bin_index_Ok (step pos b : Z) :
  bin_index step pos = Ok b ↔ ceil_div pos step = Ok (b + 1).
Proof.
  unfold bin_index. destruct (ceil_div pos step) as [n|e]; cbn [rbind].
  - split; intros [= ?]; f_equal; lia.
  - split; discriminate.
Qed.

Lemma bin_writes_Ok (step s e len : Z) (ws : list (Z * Z)) :
  bin_writes step s e len = Ok ws ↔
  ∃ bs be, bin_index step s = Ok bs ∧ bin_index step e = Ok be
           ∧ ws = split_bases step bs be s e len.
Proof.
  unfold bin_writes. split.
  - destruct (bin_index step s) as [bs|]; [|discriminate]. cbn [rbind].
    destruct (bin_index step e) as [be|]; [|discriminate]. cbn [rbind].
    intros [= <-]. by exists bs, be.
  - intros (bs & be & -> & -> & ->). done.
Qed.

Lemma bin_writes_exact (step s e len : Z) :
  Z.abs s < 2 ^ 53 → Z.abs e < 2 ^ 53 → step ≠ 0 → Z.abs step < 2 ^ 53 →
  bin_writes step s e len
  = Ok (split_bases step (exact_bin_index step s) (exact_bin_index step e) s e len).
Proof.
  intros Hs He Hst0 Hst. unfold bin_writes.
  by rewrite !bin_index_exact.
Qed.

(** C8: for a positive position and a positive step, both below 2^53,
    the index the code computes on the doubles,
    int(math.ceil(position / float(step))) - 1, is the index of the
    specification, floor((position - 1)/step). *)
Theorem C8_bin_index_is_floor (step position : Z) :
  0 < position < 2 ^ 53 → 0 < step < 2 ^ 53 →
  bin_index step position = Ok (spec_bin_index step position).
Proof.
  intros Hp Hs. rewrite bin_index_exact by lia.
  f_equal. apply exact_bin_index_floor. lia.
Qed.

Lemma C8_bin_index_is_floor_witness :
  bin_index 10 15 = Ok (spec_bin_index 10 15).
Proof. apply C8_bin_index_is_floor; lia. Defined.

(** C8 as stated fails beyond the doubles: position 2^53 + 1 is not a
    double, the division is carried out on 2^53, and with step 1 the code
    gets the index 2^53 - 1 where floor((position - 1)/step) is 2^53.  A
    position or a step beyond the largest double raises OverflowError. *)
Lemma C8_bin_index_is_floor_counterexample :
  ¬ (∀ step position : Z,
       0 < position → 0 < step →
       bin_index step position = Ok (spec_bin_index step position)).
Proof.
  intros H. specialize (H 1 (2 ^ 53 + 1) ltac:(lia) ltac:(lia)).
  vm_compute in H. discriminate H.
Qed.

Example bin_index_beyond_the_doubles :
  bin_index 1 (2 ^ 53 + 1) = Ok (2 ^ 53 - 1)
  ∧ spec_bin_index 1 (2 ^ 53 + 1) = 2 ^ 53
  ∧ bin_index 10 (10 ^ 400) = Raise OverflowError
  ∧ bin_index (10 ^ 400) 5 = Raise OverflowError.
Proof. repeat split; by vm_compute. Qed.

(** ** The bins an alignment is written to *)

Lemma length_zero_bins a n : length (zero_bins a n) = Z.to_nat n.
Proof. unfold zero_bins, py_range. by rewrite length_fmap, length_seqZ. Qed.

Lemma elem_of_split_bases step bs be s e len b k :
  (b, k) ∈ split_bases step bs be s e len →
  bs ≤ be →
  bs ≤ b ≤ be.
Proof.
  unfold split_bases. intros Hin Hle. case_decide as Heq.
  - apply list_elem_of_singleton in Hin. simplify_eq. lia.
  - rewrite !elem_of_cons in Hin. destruct Hin as [?|[?|Hin]]; simplify_eq; [lia..|].
    apply list_elem_of_fmap in Hin as (j & ? & Hj). simplify_eq.
    unfold py_range2 in Hj. apply elem_of_seqZ in Hj. lia.
Qed.

(** C10: for a step and a chromosome length below 2^53, an alignment of
    positive length that lies inside its chromosome (1 <= start,
    end <= L) is written only to bins between bin_s and bin_e, with
    bin_s <= bin_e, and all of them are indices of the array of
    ceil(L/step) bins allocated for the chromosome. *)
Theorem C10_bins_in_range (a : args) (step L : Z) (al : alignment) :
  0 < step < 2 ^ 53 →
  sizemin a ≤ r_length al ≤ sizemax a →
  0 < r_length al →
  1 ≤ r_start al →
  r_end al ≤ L →
  L < 2 ^ 53 →
  ∃ bin_s bin_e n writes,
    bin_index step (r_start al) = Ok bin_s
    ∧ bin_index step (r_end al) = Ok bin_e
    ∧ ceil_div L step = Ok n
    ∧ bin_writes step (r_start al) (r_end al) (r_length al) = Ok writes
    ∧ bin_s ≤ bin_e
    ∧ ∀ b k, (b, k) ∈ writes →
        bin_s ≤ b ≤ bin_e
        ∧ 0 ≤ b ≤ n - 1
        ∧ 0 ≤ b < Z.of_nat (length (zero_bins a n)).
Proof.
  intros Hs _ Hlen Hstart Hend HL.
  assert (r_start al ≤ r_end al) as Hse by (unfold r_end; lia).
  exists (exact_bin_index step (r_start al)), (exact_bin_index step (r_end al)),
         (exact_ceil L step),
         (split_bases step (exact_bin_index step (r_start al))
                      (exact_bin_index step (r_end al))
                      (r_start al) (r_end al) (r_length al)).
  rewrite !bin_index_exact, bin_writes_exact, ceil_div_exact by lia.
  pose proof (exact_bin_index_mono step _ _ ltac:(lia) Hse) as Hmono.
  do 5 (split; [done|]). intros b k Hin.
  apply elem_of_split_bases in Hin; [|done].
  assert (0 ≤ exact_bin_index step (r_start al)) as H0.
  { rewrite exact_bin_index_floor by lia. apply Z.div_pos; lia. }
  pose proof (exact_bin_index_mono step _ _ ltac:(lia) Hend) as HLe.
  unfold exact_bin_index at 2 in HLe.
  rewrite length_zero_bins. lia.
Qed.

Lemma C10_bins_in_range_witness :
  ∃ bin_s bin_e n writes,
    bin_index 10 5 = Ok bin_s
    ∧ bin_index 10 24 = Ok bin_e
    ∧ ceil_div 100 10 = Ok n
    ∧ bin_writes 10 5 24 20 = Ok writes
    ∧ bin_s ≤ bin_e
    ∧ ∀ b k, (b, k) ∈ writes →
        bin_s ≤ b ≤ bin_e
        ∧ 0 ≤ b ≤ n - 1
        ∧ 0 ≤ b < Z.of_nat (length (zero_bins (Args 20 10 20 25 false false false) n)).
Proof.
  apply (C10_bins_in_range (Args 20 10 20 25 false false false) 10 100
           (Alignment "chr1" 20 0 5)); unfold r_end; simpl; lia.
Defined.

(** C10 as stated fails for a read of length 0, which the code accepts
    when sizemin <= 0 (CIGAR 0M): at start 11 with step 10 its end is 10,
    so bin_s = 1 and bin_e = 0, and the else branch writes 10 bases to bin
    1 and 10 to bin 0.  (It fails for a negative step too: a read at
    5..24 with step -10 gets the bins -1 and -3, where ceil(100/-10) = -10
    allocates no bin.) *)
Lemma C10_bins_in_range_counterexample :
  ¬ (∀ (a : args) (step L : Z) (al : alignment) (bin_s bin_e : Z),
       sizemin a ≤ r_length al ≤ sizemax a →
       1 ≤ r_start al →
       r_end al ≤ L →
       bin_index step (r_start al) = Ok bin_s →
       bin_index step (r_end al) = Ok bin_e →
       bin_s ≤ bin_e).
Proof.
  intros H.
  assert (1 ≤ 0); [|lia].
  apply (H (Args 20 10 0 5 false false false) 10 100 (Alignment "chr1" 0 0 11)).
  - simpl. lia.
  - simpl. lia.
  - unfold r_end. simpl. lia.
  - by vm_compute.
  - by vm_compute.
Qed.

Example zero_length_read :
  read_alignment (Args 20 10 0 5 false false false) Examples.read_0M
  = Ok (Some (Alignment "chr1" 0 0 11))
  ∧ bin_writes 10 11 10 0 = Ok [(1, 10); (0, 10)].
Proof. split; by vm_compute. Qed.

Example negative_step_bins :
  bin_writes (-10) 5 24 20 = Ok [(-1, -4); (-3, -6)]
  ∧ ceil_div 100 (-10) = Ok (-10).
Proof. split; by vm_compute. Qed.

(** ** Loops that may raise *)

Section Loops.
Context {A S : Type}.

Lemma for_each_app (body : A → S → result S) l1 l2 s :
  for_each body (l1 ++ l2) s = rbind (for_each body l1 s) (for_each body l2).
Proof.
  revert s. induction l1 as [|a l1 IH]; intros s; simpl; [done|].
  destruct (body a s); simpl; auto.
Qed.

Lemma for_each_ext (f g : A → S → result S) l s :
  (∀ a s, a ∈ l → f a s = g a s) → for_each f l s = for_each g l s.
Proof.
  revert s. induction l as [|a l IH]; intros s Hfg; simpl; [done|].
  rewrite Hfg by left. destruct (g a s); simpl; [|done].
  apply IH. intros ???. apply Hfg. by right.
Qed.

Lemma for_each_skip (f : A → S → result S) l s :
  (∀ a s, a ∈ l → f a s = Ok s) → for_each f l s = Ok s.
Proof.
  intros Hf. induction l as [|a l IH]; simpl; [done|].
  rewrite Hf by left. simpl. apply IH. intros ???. apply Hf. by right.
Qed.

(** A loop in which a single iteration does something. *)
Lemma for_each_hit (f : A → S → result S) l a0 s :
  NoDup l → a0 ∈ l →
  (∀ a s, a ∈ l → a ≠ a0 → f a s = Ok s) →
  for_each f l s = f a0 s.
Proof.
  intros Hnd Hin Hf. induction Hnd as [|a l Hnotin Hnd IH]; [by apply elem_of_nil in Hin|].
  simpl. apply elem_of_cons in Hin as [->|Hin].
  - destruct (f a s) as [s'|e]; simpl; [|done].
    apply for_each_skip. intros b t Hb. apply Hf; [by right|]. by intros ->.
  - rewrite Hf; [|by left|by intros ->]. simpl.
    apply IH; [done|]. intros b t Hb ?. apply Hf; [by right|done].
Qed.

(** Two loops over the same list that keep their states related. *)
Lemma for_each_sim {T} (R : S → T → Prop)
    (f : A → S → result S) (g : A → T → result T) l :
  (∀ a s t s', a ∈ l → R s t → f a s = Ok s' → ∃ t', g a t = Ok t' ∧ R s' t') →
  ∀ s t s', R s t → for_each f l s = Ok s' → ∃ t', for_each g l t = Ok t' ∧ R s' t'.
Proof.
  induction l as [|a l IH]; intros Hstep s t s' HR; simpl.
  - intros [= <-]. by eauto.
  - destruct (f a s) as [s1|] eqn:E; simpl; [|done]. intros Hrest.
    destruct (Hstep a s t s1) as (t1 & -> & HR1); [by left|done..|]. simpl.
    eapply IH; [|done..]. intros ??????. eapply Hstep; [by right|done..].
Qed.

(** A property every iteration keeps. *)
Lemma for_each_inv (I : S → Prop) (f : A → S → result S) l :
  (∀ a s s', a ∈ l → I s → f a s = Ok s' → I s') →
  ∀ s s', I s → for_each f l s = Ok s' → I s'.
Proof.
  induction l as [|a l IH]; intros Hstep s s' HI; simpl.
  - by intros [= <-].
  - destruct (f a s) as [s1|] eqn:E; simpl; [|done].
    apply IH; [|eapply Hstep; [by left|done..]].
    intros ?????. eapply Hstep; [by right|done..].
Qed.

(** A loop whose every iteration succeeds under an invariant. *)
Lemma for_each_ok (I : S → Prop) (f : A → S → result S) l :
  (∀ a s, a ∈ l → I s → ∃ s', f a s = Ok s' ∧ I s') →
  ∀ s, I s → ∃ s', for_each f l s = Ok s' ∧ I s'.
Proof.
  induction l as [|a l IH]; intros Hstep s HI; simpl; [by eauto|].
  destruct (Hstep a s) as (s1 & -> & HI1); [by left|done|]. simpl.
  apply IH; [|done]. intros ????. apply Hstep; [by right|done].
Qed.

End Loops.

(** ** getLength *)

Lemma py_int_digit (c : ascii) :
  is_digit c = true → py_int (String c EmptyString) = Ok (digit_val c).
Proof.
  destruct c as [[] [] [] [] [] [] [] []]; try discriminate; intros _; reflexivity.
Qed.

Lemma py_int_not_digit (c : ascii) :
  is_digit c = false → py_int (String c EmptyString) = Raise ValueError.
Proof.
  destruct c as [[] [] [] [] [] [] [] []]; try discriminate; intros _; reflexivity.
Qed.

Lemma list_ascii_of_string_app (s t : string) :
  list_ascii_of_string (s ++ t)%string
  = (list_ascii_of_string s ++ list_ascii_of_string t)%list.
Proof. induction s as [|c s IH]; simpl; [done|]. by rewrite IH. Qed.

(** Once an operation letter has been read, [number] is the int 0 and the
    next digit cannot be appended to it. *)
Lemma getLength_step_after_operation (op d : ascii) (st : numvar * Z) :
  is_digit op = false → is_digit d = true →
  rbind (getLength_step op st) (getLength_step d) = Raise TypeError
  ∨ ∃ e, getLength_step op st = Raise e.
Proof.
  intros Hop Hd. destruct st as [number count]. unfold getLength_step.
  rewrite (py_int_not_digit op Hop), (py_int_digit d Hd).
  destruct (is_length_op op); simpl; [|by left].
  destruct (int_of_numvar number) as [n|e]; simpl; by eauto.
Qed.

(** C3 (the code departs from it): a CIGAR string in which a digit follows
    an operation letter, as in every string with two operations, makes
    [getLength] raise instead of returning the sum of the operand counts. *)
Theorem C3_getLength_raises_on_second_operation (pre post : string) (op d : ascii) :
  is_digit op = false → is_digit d = true →
  ∃ e, getLength (pre ++ String op (String d post))%string = Raise e.
Proof.
  intros Hop Hd. unfold getLength.
  rewrite list_ascii_of_string_app. simpl list_ascii_of_string.
  rewrite for_each_app.
  destruct (for_each getLength_step (list_ascii_of_string pre) _) as [st|e];
    simpl; [|by eauto].
  destruct (getLength_step_after_operation op d st Hop Hd) as [H|[e H]].
  - destruct (getLength_step op st) as [st'|e]; simpl in *; [|by eauto].
    rewrite H. simpl. by eauto.
  - rewrite H. simpl. by eauto.
Qed.

Lemma C3_getLength_raises_on_second_operation_witness :
  ∃ e, getLength "5M3S" = Raise e.
Proof.
  apply (C3_getLength_raises_on_second_operation "5" "S" "M" "3"); reflexivity.
Defined.

Example getLength_5M3S : getLength "5M3S" = Raise TypeError ∧ spec_length "5M3S" = 8.
Proof. split; reflexivity. Qed.

Example getLength_20M : getLength "20M" = Ok 20 ∧ spec_length "20M" = 20.
Proof. split; reflexivity. Qed.

(** ** verifyWS *)

Lemma ws_invalid_false (w s : Z) :
  ws_invalid w s = false ↔ w ≠ 0 ∧ s ≠ 0 ∧ w mod s = 0.
Proof.
  unfold ws_invalid.
  rewrite !orb_false_iff, negb_false_iff, !bool_decide_eq_false, bool_decide_eq_true.
  tauto.
Qed.

Lemma prompt_loop_valid_le (n : nat) (inputs : list string) (w s : Z) :
  (length inputs ≤ n)%nat →
  prompt_loop inputs = Ok (w, s) → ws_invalid w s = false.
Proof.
  revert inputs. induction n as [|n IH]; intros inputs Hn.
  { destruct inputs; [discriminate|simpl in Hn; lia]. }
  destruct inputs as [|a rest]; simpl; [discriminate|]. simpl in Hn.
  destruct (py_int a) as [w0|]; [|apply IH; lia].
  case_decide as Hw; [apply IH; lia|].
  destruct rest as [|b rest']; [discriminate|]. simpl in Hn.
  destruct (py_int b) as [s0|]; [|apply IH; lia].
  case_decide as Hs; [apply IH; lia|].
  case_decide as Hm; [|apply IH; lia].
  intros [= <- <-]. by apply ws_invalid_false.
Qed.

Lemma prompt_loop_valid (inputs : list string) (w s : Z) :
  prompt_loop inputs = Ok (w, s) → ws_invalid w s = false.
Proof. by apply (prompt_loop_valid_le (length inputs)). Qed.

Lemma verifyWS_valid (w s : Z) (inputs : list string) (w' s' : Z) :
  verifyWS w s inputs = Ok (w', s') → ws_invalid w' s' = false.
Proof.
  unfold verifyWS. destruct (ws_invalid w s) eqn:E.
  - apply prompt_loop_valid.
  - by intros [= <- <-].
Qed.

(** C5 as stated fails: with a window of 0 on the command line and the
    replacement values 20 and 10 typed at the prompt, the run does not
    abort: it goes on with window 20 and step 10 and writes its table. *)
Lemma C5_invalid_pair_aborts_counterexample :
  ¬ (∀ (a : args) (chromosomes : chrom_table) (inputs : list string)
       (lines : list (list string)),
       ws_invalid (arg_window a) (arg_step a) = true →
       ∃ e, run a chromosomes inputs lines = ([], Some e)).
Proof.
  intros H.
  destruct (H Examples.args_window0 Examples.one_chrom ["20"; "10"]
              [Examples.read_at_15] eq_refl) as [e He].
  vm_compute in He. discriminate He.
Qed.

(** C5, amended: an invalid pair is never used for tallying.  [verifyWS]
    either returns a pair with window != 0, step != 0 and
    window % step == 0 (the pair of the command line when that one is
    valid, otherwise one read at the prompt), or the pair was invalid, the
    replacement input ran out and the run ends with no row written. *)
Theorem C5_verifyWS_only_valid_pairs (a : args) (chromosomes : chrom_table)
    (inputs : list string) (lines : list (list string)) :
  match verifyWS (arg_window a) (arg_step a) inputs with
  | Ok (w, s) =>
      (w ≠ 0 ∧ s ≠ 0 ∧ w mod s = 0) ∧
      ((w, s) = (arg_window a, arg_step a)
       ∨ (ws_invalid (arg_window a) (arg_step a) = true
          ∧ prompt_loop inputs = Ok (w, s)))
  | Raise e =>
      ws_invalid (arg_window a) (arg_step a) = true ∧
      ∃ e', run a chromosomes inputs lines = ([], Some e')
  end.
Proof.
  destruct (verifyWS (arg_window a) (arg_step a) inputs) as [[w s]|e] eqn:E.
  - split; [by eapply ws_invalid_false, verifyWS_valid|].
    unfold verifyWS in E. destruct (ws_invalid _ _); [by right|left; congruence].
  - split.
    + unfold verifyWS in E. by destruct (ws_invalid _ _).
    + unfold run. rewrite E. destruct (header_checks a chromosomes lines); by eauto.
Qed.

Example verifyWS_reprompts :
  verifyWS 0 10 ["20"; "10"] = Ok (20, 10)
  ∧ verifyWS 20 7 ["x"; "20"; "0"; "30"; "10"] = Ok (30, 10)
  ∧ verifyWS 20 0 [] = Raise EOFError.
Proof. repeat split; reflexivity. Qed.

(** ** Departures from the specification *)

(** [window_count] is the count of the last chromosome of [keys()]. *)
Lemma window_count_last (cs : chrom_table) (c : string) (len window step : Z) :
  c ∉ cs.*1 →
  window_count (cs ++ [(c, len)]) window step
  = let* n := ceil_div (len - window) step in Ok (n + 1).
Proof.
  intros Hc. unfold window_count, chrom_len.
  rewrite fmap_app. cbn [fmap list_fmap fst]. rewrite last_snoc. cbn [rbind].
  rewrite list_to_map_app, lookup_union_r by (by apply not_elem_of_list_to_map_1).
  cbn [list_to_map foldr fst snd uncurry]. by rewrite lookup_insert_eq.
Qed.

(** Without its tag a line leaves [na] as the line before left it. *)
Lemma bind_na_without_tag (a : args) (parts : list string) (v : option Z) :
  abundance a = true → find_tag "NA" parts = None → bind_na a parts v = Ok v.
Proof. unfold bind_na. by intros -> ->. Qed.

(** C1 (the code departs from it): [window_count] is computed once, from
    the last chromosome of [keys()], and drives the aggregation of every
    chromosome.  With chr1 of length 100 and chr2 of length 50 (window 20,
    step 10) chr1 gets the 4 rows of chr2 instead of its own 9; with the
    two in the other order chr2 is aggregated with the 9 windows of chr1
    and the run ends in an IndexError. *)
Theorem C1_window_count_from_last_chromosome :
  window_count Examples.two_chroms 20 10 = Ok 4
  ∧ spec_window_count 100 20 10 = 9
  ∧ (∃ rows, run Examples.args_len5 Examples.two_chroms [] [Examples.read_at_15]
               = (rows, None)
             ∧ length (rows_for "chr1" rows) = 4%nat
             ∧ length (rows_for "chr2" rows) = 4%nat)
  ∧ run Examples.args_len5 Examples.two_chroms_swapped [] [Examples.read_at_15]
    = ([], Some IndexError).
Proof.
  split; [reflexivity|]. split; [reflexivity|]. split; [|by vm_compute].
  eexists. split; [by vm_compute|]. split; reflexivity.
Qed.

(** C2 (the code departs from it): with --abundance, a line without an NA
    tag that follows a line with NA:i:5 is not rejected: the scan finds no
    tag, [na] keeps the 5 of the line before and the read is tallied with
    it (bins 4 to 6 hold 6*5, 10*5 and 4*5).  The check of the first
    alignment line in [getChromosomes] passes, since that line has the tag. *)
Theorem C2_missing_tag_reuses_previous_value :
  check_first_line Examples.args_abundance Examples.read_na5 = Ok ()
  ∧ find_tag "NA" Examples.read_no_na = None
  ∧ ∃ st, ingest Examples.args_abundance 10 [Examples.read_na5; Examples.read_no_na]
            (Examples.start Examples.args_abundance 10 Examples.one_chrom) = Ok st
          ∧ na st = Some 5
          ∧ steps st !! "chr1"
            = Some ((λ z, [[PInt z; PInt 0]]) <$> [30; 50; 20; 0; 30; 50; 20; 0; 0; 0]).
Proof.
  split; [reflexivity|]. split; [reflexivity|].
  eexists. split; [by vm_compute|]. split; reflexivity.
Qed.

(** C6 as stated fails: a chromosome of length 15 with window 20 and step
    10 is not rejected; the run completes and writes one row. *)
Lemma C6_short_chromosome_rejected_counterexample :
  ¬ (∀ (a : args) (chromosomes : chrom_table) (inputs : list string)
       (lines : list (list string)) (c : string) (len : Z),
       (c, len) ∈ chromosomes → len < arg_window a →
       ws_invalid (arg_window a) (arg_step a) = false →
       ∃ e, run a chromosomes inputs lines = ([], Some e)).
Proof.
  intros H.
  destruct (H Examples.args_len5 Examples.short_chrom [] [] "chr1" 15) as [e He].
  - by apply list_elem_of_singleton.
  - simpl. lia.
  - reflexivity.
  - vm_compute in He. discriminate He.
Qed.

(** ** Subscripts and updates in place *)

Section Subscripts.
Context {A : Type}.

Lemma norm_index_lt n i k : norm_index n i = Some k → (k < n)%nat.
Proof.
  unfold norm_index.
  destruct (decide (0 ≤ i < Z.of_nat n)); [intros [= <-]; lia|].
  destruct (decide (- Z.of_nat n ≤ i < 0)); intros [= <-]; lia.
Qed.

Lemma norm_index_nonneg n i :
  0 ≤ i → norm_index n i = if decide (i < Z.of_nat n) then Some (Z.to_nat i) else None.
Proof.
  intros Hi. unfold norm_index.
  destruct (decide (0 ≤ i < Z.of_nat n)), (decide (i < Z.of_nat n)); try done; try lia.
  destruct (decide (- Z.of_nat n ≤ i < 0)); [lia|done].
Qed.

Lemma py_getitem_Ok (l : list A) i v :
  py_getitem l i = Ok v ↔ ∃ k, norm_index (length l) i = Some k ∧ l !! k = Some v.
Proof.
  unfold py_getitem. destruct (norm_index (length l) i) as [k|].
  - destruct (l !! k) as [a|] eqn:E; split.
    + intros [= ->]. by exists k.
    + intros (k' & [= <-] & Hv). congruence.
    + done.
    + intros (k' & [= <-] & Hv). congruence.
  - split; [done|]. by intros (k' & [=] & _).
Qed.

Lemma py_getitem_nonneg (l : list A) i v :
  0 ≤ i → py_getitem l i = Ok v ↔ l !! Z.to_nat i = Some v.
Proof.
  intros Hi. rewrite py_getitem_Ok, norm_index_nonneg by done. split.
  - intros (k & Hk & Hv). case_decide; naive_solver.
  - intros Hv. exists (Z.to_nat i). split; [|done].
    apply lookup_lt_Some in Hv. rewrite decide_True; [done|lia].
Qed.

Lemma py_getitem_in_range (l : list A) i :
  0 ≤ i < Z.of_nat (length l) → ∃ v, py_getitem l i = Ok v.
Proof.
  intros Hi. destruct (lookup_lt_is_Some_2 l (Z.to_nat i)) as [v Hv]; [lia|].
  exists v. apply py_getitem_nonneg; [lia|done].
Qed.

Lemma length_py_setitem (l : list A) i v : length (py_setitem l i v) = length l.
Proof. unfold py_setitem. destruct (norm_index _ _); [apply length_insert|done]. Qed.

(** Reading [l[j]] after [l[i] = v], when [l[i]] exists. *)
Lemma py_getitem_setitem (l : list A) i j v :
  is_ok (py_getitem l i) = true →
  py_getitem (py_setitem l i v) j
  = if decide (norm_index (length l) i = norm_index (length l) j)
    then Ok v else py_getitem l j.
Proof.
  intros Hi. unfold py_getitem in Hi |- *. rewrite length_py_setitem.
  unfold py_setitem.
  destruct (norm_index (length l) i) as [ki|] eqn:Ei; [|done].
  destruct (norm_index (length l) j) as [kj|] eqn:Ej.
  - case_decide as Hd.
    + simplify_eq. rewrite list_lookup_insert_eq; [done|by eapply norm_index_lt].
    + rewrite list_lookup_insert_ne; [done|congruence].
  - by rewrite decide_False.
Qed.

Lemma py_getitem_setitem_nonneg (l : list A) i j v :
  0 ≤ i → 0 ≤ j → is_ok (py_getitem l i) = true →
  py_getitem (py_setitem l i v) j = if decide (i = j) then Ok v else py_getitem l j.
Proof.
  intros Hi Hj Hok. rewrite py_getitem_setitem by done.
  unfold py_getitem in Hok. rewrite !norm_index_nonneg in * by done.
  repeat case_decide; simplify_eq; done || lia.
Qed.

Lemma Forall_py_setitem (P : A → Prop) l i v :
  Forall P l → P v → Forall P (py_setitem l i v).
Proof.
  intros Hl Hv. unfold py_setitem. destruct (norm_index _ _); [|done].
  by apply Forall_insert.
Qed.

Lemma py_getitem_Forall (P : A → Prop) l i v :
  Forall P l → py_getitem l i = Ok v → P v.
Proof.
  intros Hl (k & _ & Hk)%py_getitem_Ok. by eapply Forall_lookup_1.
Qed.

Lemma py_getitem_setitem_same (l : list A) i v :
  is_ok (py_getitem l i) = true → py_getitem (py_setitem l i v) i = Ok v.
Proof. intros Hi. rewrite py_getitem_setitem by done. by rewrite decide_True. Qed.

Lemma length_py_alter (f : A → A) i (l : list A) : length (py_alter f i l) = length l.
Proof. unfold py_alter. destruct (norm_index _ _); [apply length_alter|done]. Qed.

Lemma py_setitem_alter (f : A → A) (l : list A) i v :
  py_getitem l i = Ok v → py_setitem l i (f v) = py_alter f i l.
Proof.
  intros (k & Hk & Hv)%py_getitem_Ok. unfold py_setitem, py_alter. rewrite Hk.
  apply list_eq. intros j. destruct (decide (k = j)) as [<-|Hkj].
  - rewrite list_lookup_insert_eq by (by eapply lookup_lt_Some).
    by rewrite list_lookup_alter_eq, Hv.
  - by rewrite list_lookup_insert_ne, list_lookup_alter_ne.
Qed.

Lemma list_alter_comm (f g : A → A) i j (l : list A) :
  (∀ v, f (g v) = g (f v)) → alter f i (alter g j l) = alter g j (alter f i l).
Proof.
  intros Hfg. destruct (decide (i = j)) as [->|Hij].
  - rewrite !list_alter_alter_eq. apply list_alter_ext; [|done]. intros v _. apply Hfg.
  - by apply list_alter_alter_ne.
Qed.

Lemma py_alter_comm (f g : A → A) i j (l : list A) :
  (∀ v, f (g v) = g (f v)) → py_alter f i (py_alter g j l) = py_alter g j (py_alter f i l).
Proof.
  intros Hfg. unfold py_alter.
  destruct (norm_index (length l) i) as [ki|] eqn:Ei,
           (norm_index (length l) j) as [kj|] eqn:Ej;
    rewrite ?length_alter, ?Ei, ?Ej; try done.
  by apply list_alter_comm.
Qed.

(** Reading [l[i]] after [l[j] = f(l[j])] succeeds when it did before. *)
Lemma py_alter_closed (Q : A → Prop) (f : A → A) i j (l : list A) :
  (∀ v, Q (f v) ↔ Q v) →
  (∃ v, py_getitem (py_alter f j l) i = Ok v ∧ Q v) ↔ (∃ v, py_getitem l i = Ok v ∧ Q v).
Proof.
  intros HQ. unfold py_alter. destruct (norm_index (length l) j) as [kj|] eqn:Ej; [|done].
  split.
  - intros (v & (k & Hk & Hv)%py_getitem_Ok & Hq). rewrite length_alter in Hk.
    rewrite list_lookup_alter in Hv. case_decide as Hd.
    + apply fmap_Some in Hv as (v0 & Hv0 & ->). exists v0. split; [|by apply HQ].
      apply py_getitem_Ok. exists k. split; [done|congruence].
    + exists v. split; [|done]. apply py_getitem_Ok. by exists k.
  - intros (v & (k & Hk & Hv)%py_getitem_Ok & Hq).
    destruct (decide (kj = k)) as [->|Hne].
    + exists (f v). split; [|by apply HQ]. apply py_getitem_Ok. exists k.
      rewrite length_alter. split; [done|]. by rewrite list_lookup_alter_eq, Hv.
    + exists v. split; [|done]. apply py_getitem_Ok. exists k.
      rewrite length_alter. split; [done|]. by rewrite list_lookup_alter_ne.
Qed.

End Subscripts.

(** ** Cells, shape and kind of the tables *)

(** Taking a successful sequence of steps apart. *)
Ltac bind_ok H :=
  repeat match type of H with
  | rbind ?m _ = Ok _ =>
      let E := fresh "E" in destruct m eqn:E; simpl in H; [|discriminate H]
  | match ?m with Ok _ => _ | Raise _ => _ end = Ok _ =>
      let E := fresh "E" in destruct m eqn:E; simpl in H; [|discriminate H]
  end.

Lemma get3_Ok (t : list grid) i j k v :
  get3 t i j k = Ok v ↔
  ∃ g row, py_getitem t i = Ok g ∧ py_getitem g j = Ok row ∧ py_getitem row k = Ok v.
Proof.
  unfold get3. split.
  - intros H. bind_ok H. by eauto.
  - intros (g & row & -> & Hr & Hv). simpl. by rewrite Hr.
Qed.

(** Reading a slot after the three nested assignments of a [+=]. *)
Lemma get3_after_set (t : list grid) (g : grid) (row : list pynum) w l x old new i j k :
  py_getitem t w = Ok g → py_getitem g l = Ok row → py_getitem row x = Ok old →
  0 ≤ w → 0 ≤ l → 0 ≤ x → 0 ≤ i → 0 ≤ j → 0 ≤ k →
  get3 (py_setitem t w (py_setitem g l (py_setitem row x new))) i j k
  = if decide (w = i ∧ l = j ∧ x = k) then Ok new else get3 t i j k.
Proof.
  intros Hg Hrow Hold ??????. unfold get3.
  rewrite py_getitem_setitem_nonneg by (done || by rewrite Hg).
  destruct (decide (w = i)) as [<-|Hwi]; simpl.
  - rewrite Hg. simpl. rewrite py_getitem_setitem_nonneg by (done || by rewrite Hrow).
    destruct (decide (l = j)) as [<-|Hlj]; simpl.
    + rewrite Hrow. simpl. rewrite py_getitem_setitem_nonneg by (done || by rewrite Hold).
      destruct (decide (x = k)) as [<-|Hxk].
      * by rewrite decide_True.
      * rewrite decide_False; [done|]. by intros (_ & _ & ?).
    + rewrite decide_False; [done|]. by intros (_ & ? & _).
  - rewrite decide_False; [done|]. by intros (? & _ & _).
Qed.

Lemma elem_of_py_range n i : i ∈ py_range n ↔ 0 ≤ i < n.
Proof. unfold py_range. rewrite elem_of_seqZ. lia. Qed.

Lemma length_py_range n : length (py_range n) = Z.to_nat n.
Proof. apply length_seqZ. Qed.

Lemma float_of_Z_0 : float_of_Z 0 = Ok PrimFloat.zero.
Proof. reflexivity. Qed.

(** Tallies of one kind add up without an exception, to a tally of that
    kind. *)
Lemma py_add_kind fl v1 v2 :
  tally_kind fl v1 → tally_kind fl v2 →
  ∃ v, py_add v1 v2 = Ok v ∧ tally_kind fl v.
Proof.
  destruct fl; simpl.
  - intros [->|[f1 ->]] [->|[f2 ->]]; simpl; rewrite ?float_of_Z_0; simpl; eauto.
  - intros [z1 ->] [z2 ->]. simpl. by eauto.
Qed.

Section Tables.
Context (a : args) (fl : bool).

Lemma zero_bins_ok n : bins_ok a fl (zero_bins a n).
Proof.
  unfold bins_ok, zero_bins. apply Forall_fmap, Forall_true. intros ?.
  unfold grid_ok, zero_grid. simpl. rewrite length_fmap, length_py_range.
  split; [done|].
  apply Forall_fmap, Forall_true. intros ?. simpl.
  rewrite length_fmap, length_py_range. split; [done|].
  apply Forall_fmap, Forall_true. intros ?. simpl. destruct fl; simpl; eauto.
Qed.

Lemma get3_bins_ok (t : list grid) i j k :
  bins_ok a fl t →
  0 ≤ i < Z.of_nat (length t) → 0 ≤ j < n_sizes a → 0 ≤ k < n_strands a →
  ∃ g row v, py_getitem t i = Ok g ∧ py_getitem g j = Ok row ∧ py_getitem row k = Ok v
             ∧ grid_ok a fl g ∧ Forall (tally_kind fl) row ∧ tally_kind fl v.
Proof.
  intros Ht Hi Hj Hk.
  destruct (py_getitem_in_range t i Hi) as [g Hg].
  pose proof (py_getitem_Forall _ _ _ _ Ht Hg) as [Hlen Hrows].
  destruct (py_getitem_in_range g j) as [row Hrow]; [lia|].
  pose proof (py_getitem_Forall _ _ _ _ Hrows Hrow) as [Hlen' Hcells].
  destruct (py_getitem_in_range row k) as [v Hv]; [lia|].
  pose proof (py_getitem_Forall _ _ _ _ Hcells Hv).
  by exists g, row, v.
Qed.

Lemma bins_ok_set (t : list grid) g row w l x new :
  bins_ok a fl t → grid_ok a fl g → Forall (tally_kind fl) row →
  length row = Z.to_nat (n_strands a) → tally_kind fl new →
  bins_ok a fl (py_setitem t w (py_setitem g l (py_setitem row x new))).
Proof.
  intros Ht [Hlen Hrows] Hcells Hlrow Hnew.
  apply Forall_py_setitem; [done|]. split.
  - by rewrite length_py_setitem.
  - apply Forall_py_setitem; [done|]. split.
    + by rewrite length_py_setitem.
    + by apply Forall_py_setitem.
Qed.

End Tables.

Lemma get3_zero_bins a n i j k :
  0 ≤ i < n → 0 ≤ j < n_sizes a → 0 ≤ k < n_strands a →
  get3 (zero_bins a n) i j k = Ok (PInt 0).
Proof.
  intros Hi Hj Hk.
  destruct (get3_bins_ok a false (zero_bins a n) i j k)
    as (g & row & v & Hg & Hrow & Hv & _ & _ & _);
    [apply zero_bins_ok|rewrite length_zero_bins; lia|done..|].
  apply get3_Ok. exists g, row. repeat split; try done.
  assert (Forall (λ g, g = zero_grid a) (zero_bins a n)) as Hgs.
  { apply Forall_fmap, Forall_true. by intros ?. }
  pose proof (py_getitem_Forall _ _ _ _ Hgs Hg) as ->.
  assert (Forall (λ r, r = (λ _, PInt 0) <$> py_range (n_strands a)) (zero_grid a))
    as Hrs.
  { apply Forall_fmap, Forall_true. by intros ?. }
  pose proof (py_getitem_Forall _ _ _ _ Hrs Hrow) as ->.
  assert (Forall (λ v, v = PInt 0) ((λ _ : Z, PInt 0) <$> py_range (n_strands a)))
    as Hvs.
  { apply Forall_fmap, Forall_true. by intros ?. }
  by pose proof (py_getitem_Forall _ _ _ _ Hvs Hv) as ->.
Qed.

(** ** Aggregation of one chromosome *)

Section Aggregation.
Context (a : args) (window step : Z).
Context (steps : gmap string (list grid)) (c : string) (bins : list grid).
Context (Hbins : steps !! c = Some bins).

Lemma window_add_Ok w s l x win win' :
  window_add steps c w s l x win = Ok win' →
  ∃ g row old v new,
    py_getitem win w = Ok g ∧ py_getitem g l = Ok row ∧ py_getitem row x = Ok old ∧
    get3 bins (w + s) l x = Ok v ∧ py_add old v = Ok new ∧
    win' = py_setitem win w (py_setitem g l (py_setitem row x new)).
Proof.
  intros H. unfold window_add in H.
  destruct (py_getitem win w) as [g|] eqn:Eg; simpl in H; [|done].
  destruct (py_getitem g l) as [row|] eqn:Erow; simpl in H; [|done].
  destruct (py_getitem row x) as [old|] eqn:Eold; simpl in H; [|done].
  rewrite Hbins in H; simpl in H.
  destruct (py_getitem bins (w + s)) as [bg|] eqn:Ebg; simpl in H; [|done].
  destruct (py_getitem bg l) as [brow|] eqn:Ebrow; simpl in H; [|done].
  destruct (py_getitem brow x) as [v|] eqn:Ev; simpl in H; [|done].
  destruct (py_add old v) as [new|] eqn:Enew; simpl in H; [|done].
  exists g, row, old, v, new. repeat split; try done.
  - apply get3_Ok. by eauto.
  - by injection H.
Qed.

(** One pass of the loop body, seen from slot [(i, j, k)]. *)
Lemma window_add_cell_step i j k w s l x win win' acc :
  0 ≤ i → 0 ≤ j → 0 ≤ k → 0 ≤ w → 0 ≤ l → 0 ≤ x →
  get3 win i j k = Ok acc →
  window_add steps c w s l x win = Ok win' →
  ∃ acc', cell_step bins i j k w s l x acc = Ok acc' ∧ get3 win' i j k = Ok acc'.
Proof.
  intros ?????? Hacc Hadd.
  destruct (window_add_Ok _ _ _ _ _ _ Hadd)
    as (g & row & old & v & new & Hg & Hrow & Hold & Hv & Hnew & ->).
  rewrite (get3_after_set _ _ _ _ _ _ old) by done.
  unfold cell_step. case_decide as Hd.
  - destruct Hd as (<- & <- & <-).
    assert (get3 win w l x = Ok old) as Hold' by (apply get3_Ok; eauto).
    rewrite Hv. simpl. exists new. split; [congruence|done].
  - by eauto.
Qed.

(** The four loops, seen from one slot. *)
Lemma aggregate_loops_cell wc i j k win win' acc :
  0 ≤ i → 0 ≤ j → 0 ≤ k →
  get3 win i j k = Ok acc →
  for_each (λ w,
    for_each (λ s,
      for_each (λ l,
        for_each (λ x, window_add steps c w s l x) (py_range (n_strands a)))
        (py_range (n_sizes a)))
      (py_range (window / step)))
    (py_range wc) win = Ok win' →
  ∃ acc',
    for_each (λ w,
      for_each (λ s,
        for_each (λ l,
          for_each (λ x, cell_step bins i j k w s l x) (py_range (n_strands a)))
          (py_range (n_sizes a)))
        (py_range (window / step)))
      (py_range wc) acc = Ok acc'
    ∧ get3 win' i j k = Ok acc'.
Proof.
  intros Hi Hj Hk Hacc.
  apply (for_each_sim (λ t v, get3 t i j k = Ok v)); [|done].
  intros w t v t' Hw%elem_of_py_range Hv.
  apply (for_each_sim (λ t v, get3 t i j k = Ok v)); [|done].
  clear t v t' Hv. intros s t v t' _ Hv.
  apply (for_each_sim (λ t v, get3 t i j k = Ok v)); [|done].
  clear t v t' Hv. intros l t v t' Hl%elem_of_py_range Hv.
  apply (for_each_sim (λ t v, get3 t i j k = Ok v)); [|done].
  clear t v t' Hv. intros x t v t' Hx%elem_of_py_range Hv.
  apply window_add_cell_step; done || lia.
Qed.

(** Seen from slot [(i, j, k)], the loops reduce to the sum over [s]. *)
Lemma cell_loops_window_sum wc i j k acc :
  0 ≤ i < wc → 0 ≤ j < n_sizes a → 0 ≤ k < n_strands a →
  for_each (λ w,
    for_each (λ s,
      for_each (λ l,
        for_each (λ x, cell_step bins i j k w s l x) (py_range (n_strands a)))
        (py_range (n_sizes a)))
      (py_range (window / step)))
    (py_range wc) acc
  = for_each (λ s acc, let* v := get3 bins (i + s) j k in py_add acc v)
             (py_range (window / step)) acc.
Proof.
  intros Hi Hj Hk.
  rewrite (for_each_hit _ _ i); [|apply NoDup_seqZ|by apply elem_of_py_range|].
  - apply for_each_ext. intros s v _.
    rewrite (for_each_hit _ _ j); [|apply NoDup_seqZ|by apply elem_of_py_range|].
    + rewrite (for_each_hit _ _ k); [|apply NoDup_seqZ|by apply elem_of_py_range|].
      * unfold cell_step. by rewrite decide_True.
      * intros x t _ Hx. unfold cell_step. rewrite decide_False; [done|].
        by intros (_ & _ & ?).
    + intros l t _ Hl. apply for_each_skip. intros x t' _.
      unfold cell_step. rewrite decide_False; [done|]. by intros (_ & ? & _).
  - intros w t _ Hw. apply for_each_skip. intros s t1 _.
    apply for_each_skip. intros l t2 _. apply for_each_skip. intros x t3 _.
    unfold cell_step. rewrite decide_False; [done|]. by intros (? & _ & _).
Qed.

(** The loop body goes through on tables of the dimensions of a run. *)
Lemma window_add_ok fl w s l x win :
  bins_ok a fl bins → bins_ok a fl win →
  0 ≤ w < Z.of_nat (length win) → 0 ≤ l < n_sizes a → 0 ≤ x < n_strands a →
  0 ≤ w + s < Z.of_nat (length bins) →
  ∃ win', window_add steps c w s l x win = Ok win'
          ∧ bins_ok a fl win' ∧ length win' = length win.
Proof.
  intros Hb Hwin Hw Hl Hx Hws.
  destruct (get3_bins_ok a fl win w l x)
    as (g & row & old & Hg & Hrow & Hold & Hgok & Hrok & Hok); [done..|].
  destruct (get3_bins_ok a fl bins (w + s) l x)
    as (bg & brow & v & Hbg & Hbrow & Hv & _ & _ & Hvk); [done..|].
  destruct (py_add_kind fl old v Hok Hvk) as (new & Hnew & Hnk).
  unfold window_add. rewrite Hg; simpl. rewrite Hrow; simpl. rewrite Hold; simpl.
  rewrite Hbins; simpl. rewrite Hbg; simpl. rewrite Hbrow; simpl. rewrite Hv; simpl.
  rewrite Hnew; simpl. eexists. split; [done|]. split.
  - apply bins_ok_set; try done.
    destruct Hgok as [_ Hrows]. by destruct (py_getitem_Forall _ _ _ _ Hrows Hrow).
  - by rewrite length_py_setitem.
Qed.

Lemma window_add_length w s l x win win' :
  window_add steps c w s l x win = Ok win' → length win' = length win.
Proof.
  unfold window_add. intros H. bind_ok H. injection H as <-.
  by rewrite length_py_setitem.
Qed.

Lemma aggregate_length wc win :
  aggregate a window step steps c wc = Ok win → length win = Z.to_nat wc.
Proof.
  unfold aggregate. rewrite <- (length_zero_bins a wc).
  generalize (zero_bins a wc). intros t.
  apply (for_each_inv (λ t', length t' = length t)); [|done].
  intros w t1 t1' _ H1. apply (for_each_inv (λ t', length t' = length t)); [|done].
  intros s t2 t2' _ H2. apply (for_each_inv (λ t', length t' = length t)); [|done].
  intros l t3 t3' _ H3. apply (for_each_inv (λ t', length t' = length t)); [|done].
  intros x t4 t4' _ H4 Hadd. apply window_add_length in Hadd. congruence.
Qed.

(** The aggregation returns when the last window ends inside the bins. *)
Lemma aggregate_ok fl wc :
  bins_ok a fl bins →
  (0 < wc → 0 < window / step → wc + window / step - 1 ≤ Z.of_nat (length bins)) →
  ∃ win, aggregate a window step steps c wc = Ok win.
Proof.
  intros Hb Hrange. unfold aggregate.
  set (I := λ t : list grid, bins_ok a fl t ∧ length t = Z.to_nat wc).
  assert (I (zero_bins a wc)) as HI0.
  { split; [apply zero_bins_ok|apply length_zero_bins]. }
  revert HI0. generalize (zero_bins a wc). intros t Ht.
  cut (∃ win, for_each (λ w,
    for_each (λ s,
      for_each (λ l,
        for_each (λ x, window_add steps c w s l x) (py_range (n_strands a)))
        (py_range (n_sizes a)))
      (py_range (window / step)))
    (py_range wc) t = Ok win ∧ I win); [by intros (win & ? & _); eauto|].
  apply for_each_ok; [|done]. clear t Ht.
  intros w t Hw%elem_of_py_range Ht. apply for_each_ok; [|done]. clear t Ht.
  intros s t Hs%elem_of_py_range Ht. apply for_each_ok; [|done]. clear t Ht.
  intros l t Hl%elem_of_py_range Ht. apply for_each_ok; [|done]. clear t Ht.
  intros x t Hx%elem_of_py_range [Ht Hlen].
  destruct (window_add_ok fl w s l x t) as (t' & ? & ? & ?); try done; [lia..|].
  exists t'. split; [done|]. split; [done|congruence].
Qed.

End Aggregation.

(** C7: whenever the aggregation of a chromosome returns, it has one
    table per window index below window_count, and the value of every
    (length, strand) slot of window w is the sum of that slot over the
    bins w to w + window/step - 1 of the chromosome.  It does return when
    the bins have the dimensions and values of a run and the last window
    ends inside them. *)
Theorem C7_window_is_sum_of_its_bins (a : args) (window step : Z)
    (steps : gmap string (list grid)) (c : string) (bins : list grid) (wc : Z) :
  steps !! c = Some bins →
  (∀ win, aggregate a window step steps c wc = Ok win →
     length win = Z.to_nat wc ∧
     ∀ w l x, 0 ≤ w < wc → 0 ≤ l < n_sizes a → 0 ≤ x < n_strands a →
       ∃ v, get3 win w l x = Ok v ∧ window_sum bins w l x (window / step) = Ok v)
  ∧ (∀ fl, bins_ok a fl bins →
       (0 < wc → 0 < window / step →
        wc + window / step - 1 ≤ Z.of_nat (length bins)) →
       ∃ win, aggregate a window step steps c wc = Ok win).
Proof.
  intros Hbins. split.
  - intros win Hagg. split; [by eapply aggregate_length|].
    intros w l x Hw Hl Hx. unfold aggregate in Hagg.
    destruct (aggregate_loops_cell a window step steps c bins Hbins wc w l x
                (zero_bins a wc) win (PInt 0)) as (v & Hv & Hget);
      [lia..|by apply get3_zero_bins|done|].
    exists v. split; [done|].
    by rewrite cell_loops_window_sum in Hv.
  - intros fl Hok Hrange. by eapply aggregate_ok.
Qed.

Lemma C7_window_is_sum_of_its_bins_witness :
  (∀ win, aggregate Examples.args_len5 20 10
            (steps Examples.after_read_at_15) "chr1" 9 = Ok win →
     length win = Z.to_nat 9 ∧
     ∀ w l x, 0 ≤ w < 9 → 0 ≤ l < n_sizes Examples.args_len5 →
       0 ≤ x < n_strands Examples.args_len5 →
       ∃ v, get3 win w l x = Ok v
            ∧ window_sum Examples.bins_read_at_15 w l x (20 / 10) = Ok v)
  ∧ (∀ fl, bins_ok Examples.args_len5 fl Examples.bins_read_at_15 →
       (0 < 9 → 0 < 20 / 10 →
        9 + 20 / 10 - 1 ≤ Z.of_nat (length Examples.bins_read_at_15)) →
       ∃ win, aggregate Examples.args_len5 20 10
                (steps Examples.after_read_at_15) "chr1" 9 = Ok win).
Proof.
  apply (C7_window_is_sum_of_its_bins Examples.args_len5 20 10
           (steps Examples.after_read_at_15) "chr1" Examples.bins_read_at_15 9).
  by vm_compute.
Defined.

(** The scenario of the specification: chromosome of length 100, window
    20, step 10, one read of length 5 at position 15.  Bin 1 gets 5, and
    so do windows 0 and 1, the two that contain it. *)
Example end_to_end_scenario :
  run Examples.args_len5 Examples.one_chrom [] [Examples.read_at_15]
  = ((λ r, ("chr1", r.1, [PInt r.2; PInt 0]))
       <$> [(0, 5); (1, 5); (2, 0); (3, 0); (4, 0); (5, 0); (6, 0); (7, 0); (8, 0)],
     None).
Proof. by vm_compute. Qed.

Lemma window_count_single (c : string) (len window step : Z) :
  window_count [(c, len)] window step
  = let* n := ceil_div (len - window) step in Ok (n + 1).
Proof.
  unfold window_count, chrom_len. simpl. by rewrite lookup_insert_eq.
Qed.

(** Below 2^53 the count of a single chromosome is the one of the
    specification. *)
Lemma window_count_single_exact (c : string) (len window step : Z) :
  Z.abs (len - window) < 2 ^ 53 → step ≠ 0 → Z.abs step < 2 ^ 53 →
  window_count [(c, len)] window step = Ok (spec_window_count len window step).
Proof.
  intros. rewrite window_count_single, ceil_div_exact by done. done.
Qed.

Lemma spec_window_count_short (len window step : Z) :
  0 < step → len < window →
  spec_window_count len window step ≤ 1 ∧
  (spec_window_count len window step = 1 ↔ window - len < step).
Proof.
  intros Hs Hlen. unfold spec_window_count. rewrite exact_ceil_floor by done.
  pose proof (Z.div_mod (len - window - 1) step ltac:(lia)) as Hq.
  pose proof (Z.mod_pos_bound (len - window - 1) step Hs) as Hr.
  split; [nia|]. split; intros H; nia.
Qed.

(** ** Conservation of the bases of an alignment *)

Lemma bases_fmap_const {A} (f : A → Z) (k : Z) (l : list A) :
  bases ((λ b, (f b, k)) <$> l) = k * Z.of_nat (length l).
Proof.
  induction l as [|b l IH]; [simpl; lia|].
  change (bases ((λ b, (f b, k)) <$> b :: l))
    with (k + bases ((λ b, (f b, k)) <$> l)).
  rewrite IH, length_cons. lia.
Qed.

(** The first-bin, last-bin and interior counts of an alignment add up
    to its length. *)
Lemma split_bases_bases (step bs be s len : Z) :
  bs ≤ be →
  bases (split_bases step bs be s (s + len - 1) len) = len.
Proof.
  intros Hmono. unfold split_bases.
  case_decide as Heq; [unfold bases; cbn [foldr snd]; lia|].
  change (bases (?w1 :: ?w2 :: ?l)) with (w1.2 + (w2.2 + bases l)).
  rewrite bases_fmap_const. unfold py_range2. rewrite length_seqZ. cbn [snd].
  rewrite Z2Nat.id by lia. lia.
Qed.

Lemma slot_total_insert (bins : list grid) (p : nat) (g g' : grid) li x :
  bins !! p = Some g →
  slot_total (<[p := g']> bins) li x
  = slot_total bins li x - slot_int g li x + slot_int g' li x.
Proof.
  revert p. induction bins as [|g0 bins IH]; intros [|p] Hp; try done.
  - injection Hp as ->. unfold slot_total. cbn [insert list_insert foldr]. lia.
  - change (slot_int g0 li x + slot_total (<[p := g']> bins) li x
            = slot_int g0 li x + slot_total bins li x - slot_int g li x + slot_int g' li x).
    rewrite (IH p) by done. lia.
Qed.

Lemma slot_total_setitem (bins : list grid) (b : Z) (g g' : grid) li x :
  py_getitem bins b = Ok g →
  slot_total (py_setitem bins b g') li x
  = slot_total bins li x - slot_int g li x + slot_int g' li x.
Proof.
  intros (p & Hp & Hg)%py_getitem_Ok. unfold py_setitem. rewrite Hp.
  by apply slot_total_insert.
Qed.

Lemma slot_int_set (g : grid) (row : list pynum) li x old new :
  py_getitem g li = Ok row → py_getitem row x = Ok old →
  slot_int (py_setitem g li (py_setitem row x new)) li x
  = match new with PInt z => z | PFloat _ => 0 end
  ∧ slot_int g li x = match old with PInt z => z | PFloat _ => 0 end.
Proof.
  intros Hrow Hold. unfold slot_int. split.
  - rewrite py_getitem_setitem_same by (by rewrite Hrow). simpl.
    by rewrite py_getitem_setitem_same by (by rewrite Hold).
  - rewrite Hrow. simpl. by rewrite Hold.
Qed.

(** What a successful [+=] of ingestion did. *)
Lemma tally_add_Ok c li x na nh (w : Z * Z) (steps steps' : gmap string (list grid)) :
  tally_add c li x na nh w steps = Ok steps' →
  ∃ bins g row old n h v new,
    steps !! c = Some bins ∧ py_getitem bins w.1 = Ok g ∧ py_getitem g li = Ok row
    ∧ py_getitem row x = Ok old ∧ na = Some n ∧ nh = Some h
    ∧ py_div (PInt (w.2 * n)) h = Ok v ∧ py_add old v = Ok new
    ∧ steps' = <[c := py_setitem bins w.1 (py_setitem g li (py_setitem row x new))]> steps.
Proof.
  unfold tally_add. intros H.
  destruct (steps !! c) as [bins|] eqn:Ebins; cbn [rbind load] in H; [|done].
  destruct (py_getitem bins w.1) as [g|] eqn:Eg; cbn [rbind load] in H; [|done].
  destruct (py_getitem g li) as [row|] eqn:Erow; cbn [rbind load] in H; [|done].
  destruct (py_getitem row x) as [old|] eqn:Eold; cbn [rbind load] in H; [|done].
  destruct na as [n|]; cbn [rbind load] in H; [|done].
  destruct nh as [h|]; cbn [rbind load] in H; [|done].
  destruct (py_div (PInt (w.2 * n)) h) as [v|] eqn:Ev; cbn [rbind load] in H; [|done].
  destruct (py_add old v) as [new|] eqn:Enew; cbn [rbind load] in H; [|done].
  injection H as <-. by exists bins, g, row, old, n, h, v, new.
Qed.

Lemma py_div_kind fl z h v :
  nh_ok fl (Some h) → py_div (PInt z) h = Ok v → tally_kind fl v.
Proof.
  destruct fl; simpl.
  - intros [f ->]. simpl. destruct (float_of_Z z); simpl; [|done].
    destruct (PrimFloat.is_zero f); [done|]. intros [= <-]. by eauto.
  - intros ->. simpl. intros [= <-]. by eauto.
Qed.

(** A [+=] of ingestion keeps the dimensions and the kind of the tallies. *)
Lemma tally_add_tallies_ok a fl c li x na nh (w : Z * Z)
    (steps steps' : gmap string (list grid)) :
  nh_ok fl nh → tallies_ok a fl steps →
  tally_add c li x na nh w steps = Ok steps' → tallies_ok a fl steps'.
Proof.
  intros Hnh Hok H.
  destruct (tally_add_Ok _ _ _ _ _ _ _ _ H)
    as (bins & g & row & old & n & h & v & new & Hbins & Hg & Hrow & Hold & -> & ->
        & Hv & Hnew & ->).
  pose proof (Hok _ _ Hbins) as Hb.
  pose proof (py_getitem_Forall _ _ _ _ Hb Hg) as Hgok.
  destruct (py_getitem_Forall _ _ _ _ (proj2 Hgok) Hrow) as [Hlrow Hcells].
  pose proof (py_getitem_Forall _ _ _ _ Hcells Hold) as Holdk.
  pose proof (py_div_kind fl _ _ _ Hnh Hv) as Hvk.
  destruct (py_add_kind fl old v Holdk Hvk) as (new' & Hnew' & Hnewk).
  assert (new' = new) as -> by congruence.
  apply map_Forall_insert_2; [|done]. by apply bins_ok_set.
Qed.

(** Without --normalize a [+=] of ingestion raises the total of its slot
    by the bases counted times [na]. *)
Lemma tally_add_total a c li x n (w : Z * Z) (steps steps' : gmap string (list grid)) bins :
  tallies_ok a false steps →
  steps !! c = Some bins →
  tally_add c li x (Some n) (Some (PInt 1)) w steps = Ok steps' →
  ∃ bins', steps' !! c = Some bins'
    ∧ slot_total bins' li x = slot_total bins li x + w.2 * n.
Proof.
  intros Hok Hbins H.
  destruct (tally_add_Ok _ _ _ _ _ _ _ _ H)
    as (bins0 & g & row & old & n0 & h & v & new & Hbins0 & Hg & Hrow & Hold
        & [= <-] & [= <-] & Hv & Hnew & ->).
  assert (bins0 = bins) as -> by congruence.
  simpl in Hv. rewrite Z.div_1_r in Hv. injection Hv as <-.
  pose proof (Hok _ _ Hbins) as Hb.
  pose proof (py_getitem_Forall _ _ _ _ Hb Hg) as Hgok.
  destruct (py_getitem_Forall _ _ _ _ (proj2 Hgok) Hrow) as [Hlrow Hcells].
  destruct (py_getitem_Forall _ _ _ _ Hcells Hold) as [z ->].
  simpl in Hnew. injection Hnew as <-.
  eexists. split; [apply lookup_insert_eq|].
  rewrite (slot_total_setitem _ _ g) by done.
  destruct (slot_int_set g row li x (PInt z) (PInt (z + w.2 * n)) Hrow Hold) as [-> ->].
  lia.
Qed.

Lemma tally_writes_total a c li x n (ws : list (Z * Z))
    (steps steps' : gmap string (list grid)) bins :
  tallies_ok a false steps →
  steps !! c = Some bins →
  for_each (tally_add c li x (Some n) (Some (PInt 1))) ws steps = Ok steps' →
  ∃ bins', steps' !! c = Some bins'
    ∧ slot_total bins' li x = slot_total bins li x + bases ws * n.
Proof.
  revert steps bins.
  induction ws as [|w ws IH]; intros steps bins Hok Hbins Hrest; cbn [for_each] in Hrest.
  - injection Hrest as <-. exists bins. split; [done|]. unfold bases. simpl. lia.
  - destruct (tally_add c li x (Some n) (Some (PInt 1)) w steps) as [steps1|] eqn:E;
      cbn [rbind] in Hrest; [|done].
    destruct (tally_add_total a _ _ _ _ _ _ _ _ Hok Hbins E) as (bins1 & Hbins1 & Ht1).
    destruct (IH steps1 bins1) as (bins' & Hbins' & Ht'); [|done..|].
    { by apply (tally_add_tallies_ok a false c li x (Some n) (Some (PInt 1)) w steps). }
    exists bins'. split; [done|]. rewrite Ht', Ht1. unfold bases. cbn [foldr]. lia.
Qed.

(** ** One line of the file *)

Lemma ingest_line_Ok a step parts st st' :
  ingest_line a step parts st = Ok st' →
  (read_alignment a parts = Ok None ∧ st' = st)
  ∨ ∃ al na' nh' steps',
      read_alignment a parts = Ok (Some al)
      ∧ bind_na a parts (na st) = Ok na'
      ∧ bind_nh a parts (nh st) = Ok nh'
      ∧ tally a step al na' nh' (steps st) = Ok steps'
      ∧ st' = Acc steps' na' nh'.
Proof.
  unfold ingest_line. intros H.
  destruct (read_alignment a parts) as [[al|]|] eqn:Eal; cbn [rbind] in H; [|left|done].
  - destruct (bind_na a parts (na st)) as [na'|] eqn:Ena; cbn [rbind] in H; [|done].
    destruct (bind_nh a parts (nh st)) as [nh'|] eqn:Enh; cbn [rbind] in H; [|done].
    destruct (tally a step al na' nh' (steps st)) as [steps'|] eqn:Et;
      cbn [rbind] in H; [|done].
    injection H as <-. right. by exists al, na', nh', steps'.
  - by injection H as <-.
Qed.

Lemma split_bases_cons step bs be s e len :
  ∃ w ws, split_bases step bs be s e len = w :: ws.
Proof. unfold split_bases. case_decide; eauto. Qed.

Lemma bin_writes_cons step s e len writes :
  bin_writes step s e len = Ok writes → ∃ w ws, writes = w :: ws.
Proof.
  intros (bs & be & _ & _ & ->)%bin_writes_Ok. apply split_bases_cons.
Qed.

(** What a successful [tally] did. *)
Lemma tally_Ok a step al na nh (steps steps' : gmap string (list grid)) :
  tally a step al na nh steps = Ok steps' →
  ∃ writes,
    bin_writes step (r_start al) (r_end al) (r_length al) = Ok writes
    ∧ for_each (tally_add (r_chromosome al) (r_length al - sizemin a) (strand al) na nh)
               writes steps = Ok steps'.
Proof.
  unfold tally.
  destruct (bin_writes step (r_start al) (r_end al) (r_length al)) as [ws|];
    cbn [rbind]; [|done].
  by exists ws.
Qed.

(** A tallied read needs [na] and [nh] bound. *)
Lemma tally_bound a step al na nh (steps steps' : gmap string (list grid)) :
  tally a step al na nh steps = Ok steps' →
  ∃ n h bins, na = Some n ∧ nh = Some h ∧ steps !! r_chromosome al = Some bins.
Proof.
  intros (writes & Hw & H)%tally_Ok.
  destruct (bin_writes_cons _ _ _ _ _ Hw) as (w & ws & ->).
  cbn [for_each] in H.
  destruct (tally_add _ _ _ na nh w steps) as [s1|] eqn:E; cbn [rbind] in H; [|done].
  destruct (tally_add_Ok _ _ _ _ _ _ _ _ E)
    as (bins & g & row & old & n & h & v & new & ? & _ & _ & _ & ? & ? & _).
  by exists n, h, bins.
Qed.

Lemma bind_nh_ok a parts nh nh' :
  nh_ok (normalize a) nh → bind_nh a parts nh = Ok nh' → nh_ok (normalize a) nh'.
Proof.
  unfold bind_nh. destruct (normalize a); simpl.
  - destruct (find_tag "NH" parts) as [p|]; [|by intros ? [= <-]].
    intros _ H. destruct (py_float _) as [f|]; cbn [rbind] in H; [|done].
    injection H as <-. simpl. by eauto.
  - by intros _ [= <-].
Qed.

Lemma bind_nh_not_normalize a parts nh nh' :
  normalize a = false → bind_nh a parts nh = Ok nh' → nh' = Some (PInt 1).
Proof. unfold bind_nh. intros ->. by intros [= <-]. Qed.

Lemma tally_tallies_ok a fl step al na nh (steps steps' : gmap string (list grid)) :
  nh_ok fl nh → tallies_ok a fl steps →
  tally a step al na nh steps = Ok steps' → tallies_ok a fl steps'.
Proof.
  intros Hnh Hok (writes & _ & H)%tally_Ok. revert H.
  apply for_each_inv; [|done].
  intros w s s' _ Hs. by apply tally_add_tallies_ok.
Qed.

(** Ingestion keeps the dimensions of the bins and the kind of the
    tallies. *)
Lemma ingest_line_state_ok a step parts st st' :
  state_ok a st → ingest_line a step parts st = Ok st' → state_ok a st'.
Proof.
  intros [Hsteps Hnh] H.
  destruct (ingest_line_Ok _ _ _ _ _ H)
    as [[_ ->]|(al & na' & nh' & steps' & _ & _ & Hbnh & Ht & ->)]; [done|].
  pose proof (bind_nh_ok _ _ _ _ Hnh Hbnh) as Hnh'.
  split; [|done]. simpl. by eapply tally_tallies_ok.
Qed.

Lemma ingest_state_ok a step lines st st' :
  state_ok a st → ingest a step lines st = Ok st' → state_ok a st'.
Proof.
  unfold ingest. apply for_each_inv. intros parts s s' _. apply ingest_line_state_ok.
Qed.

Lemma init_chromosome_Ok a step cl (steps steps' : gmap string (list grid)) :
  init_chromosome a step cl steps = Ok steps' ↔
  ∃ n, ceil_div cl.2 step = Ok n ∧ steps' = <[cl.1 := zero_bins a n]> steps.
Proof.
  unfold init_chromosome. destruct (ceil_div cl.2 step) as [n|]; cbn [rbind].
  - split; [intros [= <-]; by exists n|intros (? & [= <-] & ->); done].
  - split; [done|intros (? & ? & _); done].
Qed.

Lemma init_steps_ok a fl step (chromosomes : chrom_table) steps0 :
  init_steps a step chromosomes = Ok steps0 → tallies_ok a fl steps0.
Proof.
  unfold init_steps.
  apply (for_each_inv (tallies_ok a fl)); [|apply map_Forall_empty].
  intros cl s s' _ Hs (n & _ & ->)%init_chromosome_Ok.
  apply map_Forall_insert_2; [apply zero_bins_ok|done].
Qed.

Lemma init_state_ok a step (chromosomes : chrom_table) steps0 :
  init_steps a step chromosomes = Ok steps0 → state_ok a (Acc steps0 None None).
Proof. intros H. split; [by eapply init_steps_ok|done]. Qed.

Lemma initial_ok a fl step (chromosomes : chrom_table) :
  tallies_ok a fl (Examples.initial a step chromosomes).
Proof.
  unfold Examples.initial.
  destruct (init_steps a step chromosomes) eqn:E; [by eapply init_steps_ok|].
  apply map_Forall_empty.
Qed.

Lemma read_alignment_in_range a parts al :
  read_alignment a parts = Ok (Some al) → sizemin a ≤ r_length al ≤ sizemax a.
Proof.
  unfold read_alignment. intros H.
  destruct (is_header parts); [done|].
  destruct (let* p := py_getitem parts 1 in py_int p) as [flag|]; cbn [rbind] in H; [|done].
  destruct (decide (flag = 4)); [done|].
  destruct (let* p := py_getitem parts 5 in getLength p) as [len|]; cbn [rbind] in H; [|done].
  destruct (bool_decide (len ∈ read_size a)) eqn:Hin; [|done].
  destruct (py_getitem parts 2) as [c|]; cbn [rbind] in H; [|done].
  destruct (let* p := py_getitem parts 3 in py_int p) as [start|]; cbn [rbind] in H; [|done].
  injection H as <-. simpl.
  apply bool_decide_eq_true in Hin. unfold read_size, py_range2 in Hin.
  apply elem_of_seqZ in Hin. lia.
Qed.

(** Ingestion keeps the chromosomes and the number of bins of each. *)
Lemma tally_add_bin_counts c li x na nh (w : Z * Z)
    (steps steps' : gmap string (list grid)) :
  tally_add c li x na nh w steps = Ok steps' →
  (length <$> steps' : gmap string nat) = length <$> steps.
Proof.
  intros H.
  destruct (tally_add_Ok _ _ _ _ _ _ _ _ H)
    as (bins & g & row & old & n & h & v & new & Hbins & _ & _ & _ & _ & _ & _ & _ & ->).
  rewrite fmap_insert, length_py_setitem. apply insert_id.
  by rewrite lookup_fmap, Hbins.
Qed.

Lemma ingest_line_bin_counts a step parts st st' :
  ingest_line a step parts st = Ok st' →
  (length <$> steps st' : gmap string nat) = length <$> steps st.
Proof.
  intros H.
  destruct (ingest_line_Ok _ _ _ _ _ H)
    as [[_ ->]|(al & na' & nh' & steps' & _ & _ & _ & Ht & ->)]; [done|].
  simpl. apply tally_Ok in Ht as (writes & _ & Ht). revert Ht.
  apply (for_each_inv (λ s : gmap string (list grid),
           (length <$> s : gmap string nat) = length <$> steps st)); [|done].
  intros w s s' _ Hs Hadd. by rewrite (tally_add_bin_counts _ _ _ _ _ _ _ _ Hadd).
Qed.

Lemma ingest_bin_counts a step lines st st' :
  ingest a step lines st = Ok st' →
  (length <$> steps st' : gmap string nat) = length <$> steps st.
Proof.
  unfold ingest.
  apply (for_each_inv (λ s, (length <$> steps s : gmap string nat) = length <$> steps st));
    [|done].
  intros parts s s' _ Hs Hline. by rewrite (ingest_line_bin_counts _ _ _ _ _ Hline).
Qed.

Lemma length_rows_of c (win : list grid) : length (rows_of c win) = length win.
Proof. unfold rows_of. apply length_imap. Qed.

(** On integer tallies the exact total is the integer total. *)
Lemma exact_total_int a (bins : list grid) li x :
  bins_ok a false bins →
  exact_total bins li x = QArith_base.inject_Z (slot_total bins li x).
Proof.
  induction 1 as [|g bins Hg _ IH]; [done|].
  unfold exact_total, slot_total in *. cbn [foldr]. rewrite IH.
  rewrite QArith_base.inject_Z_plus. f_equal.
  unfold slot_exact, slot_int.
  destruct (py_getitem g li) as [row|] eqn:Hrow; cbn [rbind]; [|done].
  destruct (py_getitem row x) as [v|] eqn:Hv; [|done].
  destruct (py_getitem_Forall _ _ _ _ (proj2 Hg) Hrow) as [_ Hcells].
  by destruct (py_getitem_Forall _ _ _ _ Hcells Hv) as [z ->].
Qed.

(** ** A chromosome shorter than the window *)

Lemma init_steps_single a step c len n :
  ceil_div len step = Ok n →
  init_steps a step [(c, len)] = Ok {[c := zero_bins a n]}.
Proof.
  intros Hn. unfold init_steps. cbn [for_each]. unfold init_chromosome.
  cbn [fst snd]. rewrite Hn. done.
Qed.

(** C6, amended: a chromosome shorter than the window is not rejected.
    A run on a table with that single chromosome (positive window and
    step, both below 2^53) initialises its bins without an exception,
    and when it gets through validation and ingestion it goes on to
    aggregate with window_count = ceil((length - window)/step) + 1, which
    is at most 1 and is 1 exactly when window - length < step; the
    aggregation reads no bin out of range and the run completes, writing
    that many rows (none or one). *)
Theorem C6_short_chromosome_aggregates (a : args) (c : string) (len : Z)
    (inputs : list string) (lines : list (list string)) (window step : Z) :
  0 < step < 2 ^ 53 → 0 < window < 2 ^ 53 →
  0 ≤ len < window →
  header_checks a [(c, len)] lines = Ok () →
  verifyWS (arg_window a) (arg_step a) inputs = Ok (window, step) →
  ∃ steps0,
    init_steps a step [(c, len)] = Ok steps0
    ∧ ∀ st, ingest a step lines (Acc steps0 None None) = Ok st →
        ∃ win,
          run a [(c, len)] inputs lines = (rows_of c win, None)
          ∧ length (rows_of c win) = Z.to_nat (spec_window_count len window step)
          ∧ spec_window_count len window step ≤ 1
          ∧ (spec_window_count len window step = 1 ↔ window - len < step).
Proof.
  intros Hs Hw Hlen Hhead Hws.
  pose proof (init_steps_single a step c len _ (ceil_div_exact len step
                ltac:(lia) ltac:(lia) ltac:(lia))) as Hinit.
  eexists. split; [exact Hinit|]. intros st Hing.
  destruct (spec_window_count_short len window step) as [Hle Hone]; [lia..|].
  pose proof (verifyWS_valid _ _ _ _ _ Hws) as (_ & _ & Hmod)%ws_invalid_false.
  pose proof (ingest_state_ok _ _ _ _ _ (init_state_ok a step [(c, len)] _ Hinit) Hing)
    as [Hok _].
  pose proof (ingest_bin_counts _ _ _ _ _ Hing) as Hcounts.
  apply (f_equal (λ m : gmap string nat, m !! c)) in Hcounts.
  cbn [steps] in Hcounts.
  rewrite !lookup_fmap, lookup_singleton_eq in Hcounts.
  destruct (steps st !! c) as [bins|] eqn:Hbins; [|done].
  cbn [fmap option_fmap option_map] in Hcounts.
  injection Hcounts as Hnb. rewrite length_zero_bins in Hnb.
  destruct (aggregate_ok a window step (steps st) c bins Hbins (normalize a)
              (spec_window_count len window step)) as [win Hwin].
  { by apply (Hok c). }
  { intros Hpos Hk. assert (spec_window_count len window step = 1) as H1 by lia.
    rewrite H1. apply Hone in H1. rewrite Hnb, exact_ceil_floor by lia.
    apply Z.div_exact in Hmod; [|lia].
    assert (step ≤ window) by nia. assert (0 < len) by lia.
    pose proof (Z.div_mod (len - 1) step ltac:(lia)) as Hq.
    pose proof (Z.mod_pos_bound (len - 1) step ltac:(lia)) as Hr.
    assert (0 ≤ (len - 1) / step) by (apply Z.div_pos; lia).
    nia. }
  exists win. split; [|split; [|done]].
  - unfold run. rewrite Hhead, Hws, Hinit, Hing, window_count_single_exact by lia.
    simpl. rewrite Hwin. by rewrite app_nil_r.
  - rewrite length_rows_of. by eapply aggregate_length.
Qed.

Lemma C6_short_chromosome_aggregates_witness :
  ∃ steps0,
    init_steps Examples.args_len5 10 [("chr1", 15)] = Ok steps0
    ∧ ∀ st, ingest Examples.args_len5 10 [] (Acc steps0 None None) = Ok st →
        ∃ win,
          run Examples.args_len5 [("chr1", 15)] [] [] = (rows_of "chr1" win, None)
          ∧ length (rows_of "chr1" win) = Z.to_nat (spec_window_count 15 20 10)
          ∧ spec_window_count 15 20 10 ≤ 1
          ∧ (spec_window_count 15 20 10 = 1 ↔ 20 - 15 < 10).
Proof.
  apply (C6_short_chromosome_aggregates Examples.args_len5 "chr1" 15 [] [] 20 10);
    solve [lia | reflexivity].
Defined.

(** With a second chromosome the count of the last one of [keys()] is
    used for the short one too: a chromosome of length 15 listed before
    one of length 100 is aggregated with 9 windows over its 2 bins, and
    the run ends in an IndexError with no row written. *)
Example short_chromosome_before_long :
  run Examples.args_len5 [("chrS", 15); ("chr1", 100)] [] [] = ([], Some IndexError).
Proof. by vm_compute. Qed.

Lemma split_bases_crossed (step bs be s len : Z) :
  be < bs →
  bases (split_bases step bs be s (s + len - 1) len) = len + (bs - be + 1) * step.
Proof.
  intros Hlt. unfold split_bases.
  case_decide as Heq; [lia|].
  change (bases (?w1 :: ?w2 :: ?l)) with (w1.2 + (w2.2 + bases l)).
  rewrite bases_fmap_const. unfold py_range2. rewrite length_seqZ. cbn [snd].
  replace (Z.to_nat (be - bs - 1 + 1 - 1)) with 0%nat by lia. lia.
Qed.

(** C4, amended: without --normalize (nh is the int 1 and the tallies are
    ints) every ingested alignment raises the total of its
    (length, strand) slot over all the bins of its chromosome by the
    bases written times na.  When bin_s <= bin_e the bases counted in the
    single bin, or in the first, last and interior bins, add up to the
    length, and the total rises by exactly length * na, the weight of the
    read; that is so for every read of positive length when the step is
    positive and step, start and end are below 2^53.  When bin_e < bin_s
    the bases written are length + (bin_s - bin_e + 1) * step. *)
Theorem C4_weight_conserved_without_normalize (a : args) (step : Z)
    (parts : list string) (st st' : acc) (al : alignment) :
  normalize a = false →
  state_ok a st →
  read_alignment a parts = Ok (Some al) →
  ingest_line a step parts st = Ok st' →
  ∃ n bin_s bin_e writes bins bins',
    sizemin a ≤ r_length al ≤ sizemax a
    ∧ na st' = Some n ∧ nh st' = Some (PInt 1)
    ∧ weight al n (PInt 1) = Ok (PInt (r_length al * n))
    ∧ bin_index step (r_start al) = Ok bin_s
    ∧ bin_index step (r_end al) = Ok bin_e
    ∧ bin_writes step (r_start al) (r_end al) (r_length al) = Ok writes
    ∧ steps st !! r_chromosome al = Some bins
    ∧ steps st' !! r_chromosome al = Some bins'
    ∧ slot_total bins' (r_length al - sizemin a) (strand al)
      = slot_total bins (r_length al - sizemin a) (strand al) + bases writes * n
    ∧ (bin_s ≤ bin_e →
       bases writes = r_length al
       ∧ slot_total bins' (r_length al - sizemin a) (strand al)
         = slot_total bins (r_length al - sizemin a) (strand al) + r_length al * n
       ∧ QArith_base.Qeq
           (exact_total bins' (r_length al - sizemin a) (strand al))
           (QArith_base.Qplus (exact_total bins (r_length al - sizemin a) (strand al))
                              (pynum_exact (PInt (r_length al * n)))))
    ∧ (bin_e < bin_s → bases writes = r_length al + (bin_s - bin_e + 1) * step)
    ∧ (0 < step < 2 ^ 53 → 0 < r_length al →
       Z.abs (r_start al) < 2 ^ 53 → Z.abs (r_end al) < 2 ^ 53 →
       bin_s ≤ bin_e).
Proof.
  intros Hnorm Hst Hal H.
  pose proof (ingest_line_state_ok _ _ _ _ _ Hst H) as [Hsteps' _].
  destruct Hst as [Hsteps _]. rewrite Hnorm in Hsteps, Hsteps'.
  destruct (ingest_line_Ok _ _ _ _ _ H)
    as [[Hnone _]|(al' & na' & nh' & steps' & Hal' & _ & Hbnh & Ht & ->)]; [congruence|].
  assert (al' = al) as -> by congruence.
  apply (bind_nh_not_normalize _ _ _ _ Hnorm) in Hbnh as ->.
  destruct (tally_bound _ _ _ _ _ _ _ Ht) as (n & h & bins & -> & _ & Hbins).
  apply tally_Ok in Ht as (writes & Hw & Ht).
  pose proof Hw as (bs & be & Hbs & Hbe & Hws)%bin_writes_Ok.
  destruct (tally_writes_total a _ _ _ _ _ _ _ _ Hsteps Hbins Ht) as (bins' & Hbins' & Htot).
  exists n, bs, be, writes, bins, bins'.
  pose proof (read_alignment_in_range a parts al Hal) as Hrange.
  split; [done|]. do 2 (split; [done|]).
  split; [unfold weight; simpl; by rewrite Z.div_1_r|].
  do 6 (split; [done|]).
  unfold r_end in Hws.
  split; [|split].
  - intros Hle.
    pose proof (split_bases_bases step bs be (r_start al) (r_length al) Hle) as Hbases.
    rewrite <- Hws in Hbases. rewrite Hbases in Htot.
    do 2 (split; [done|]).
    rewrite (exact_total_int a bins') by (by apply (Hsteps' (r_chromosome al))).
    rewrite (exact_total_int a bins) by (by apply (Hsteps (r_chromosome al))).
    rewrite Htot. cbn [pynum_exact]. rewrite QArith_base.inject_Z_plus.
    apply QArith_base.Qeq_refl.
  - intros Hlt. rewrite Hws. by apply split_bases_crossed.
  - intros Hstep Hlen Hs He.
    rewrite bin_index_exact in Hbs, Hbe by lia.
    injection Hbs as <-. injection Hbe as <-.
    apply exact_bin_index_mono; [lia|]. unfold r_end. lia.
Qed.

Lemma C4_weight_conserved_without_normalize_witness :
  ∃ n bin_s bin_e writes bins bins',
    sizemin Examples.args_abundance ≤ r_length Examples.al_na5
      ≤ sizemax Examples.args_abundance
    ∧ na Examples.after_na5 = Some n ∧ nh Examples.after_na5 = Some (PInt 1)
    ∧ weight Examples.al_na5 n (PInt 1) = Ok (PInt (r_length Examples.al_na5 * n))
    ∧ bin_index 10 (r_start Examples.al_na5) = Ok bin_s
    ∧ bin_index 10 (r_end Examples.al_na5) = Ok bin_e
    ∧ bin_writes 10 (r_start Examples.al_na5) (r_end Examples.al_na5)
                 (r_length Examples.al_na5) = Ok writes
    ∧ steps (Examples.start Examples.args_abundance 10 Examples.one_chrom)
        !! r_chromosome Examples.al_na5 = Some bins
    ∧ steps Examples.after_na5 !! r_chromosome Examples.al_na5 = Some bins'
    ∧ slot_total bins' (r_length Examples.al_na5 - sizemin Examples.args_abundance)
                 (strand Examples.al_na5)
      = slot_total bins (r_length Examples.al_na5 - sizemin Examples.args_abundance)
                   (strand Examples.al_na5)
        + bases writes * n
    ∧ (bin_s ≤ bin_e →
       bases writes = r_length Examples.al_na5
       ∧ slot_total bins' (r_length Examples.al_na5 - sizemin Examples.args_abundance)
                    (strand Examples.al_na5)
         = slot_total bins (r_length Examples.al_na5 - sizemin Examples.args_abundance)
                      (strand Examples.al_na5)
           + r_length Examples.al_na5 * n
       ∧ QArith_base.Qeq
           (exact_total bins' (r_length Examples.al_na5 - sizemin Examples.args_abundance)
                        (strand Examples.al_na5))
           (QArith_base.Qplus
              (exact_total bins (r_length Examples.al_na5 - sizemin Examples.args_abundance)
                           (strand Examples.al_na5))
              (pynum_exact (PInt (r_length Examples.al_na5 * n)))))
    ∧ (bin_e < bin_s →
       bases writes = r_length Examples.al_na5 + (bin_s - bin_e + 1) * 10)
    ∧ (0 < 10 < 2 ^ 53 → 0 < r_length Examples.al_na5 →
       Z.abs (r_start Examples.al_na5) < 2 ^ 53 →
       Z.abs (r_end Examples.al_na5) < 2 ^ 53 →
       bin_s ≤ bin_e).
Proof.
  apply (C4_weight_conserved_without_normalize Examples.args_abundance 10
           Examples.read_na5
           (Examples.start Examples.args_abundance 10 Examples.one_chrom)
           Examples.after_na5 Examples.al_na5); try reflexivity.
  split; [apply initial_ok|done].
Defined.

(** C4 as stated fails with --normalize: a read of length 3 at position
    10 with NH:i:10 (step 10) adds 1/10.0 to bin 0 and 2/10.0 to bin 1.
    The exact sum of the two doubles is not the double 3/10.0, the weight
    of the read.  It fails without --normalize too, for a read of length
    0 (CIGAR 0M with sizemin 0): at position 11 with step 10 its end is
    10, bin_s = 1 and bin_e = 0, and bins 1 and 0 gain 10 each where the
    weight of the read is 0. *)
Lemma C4_weight_conserved_counterexample :
  ¬ (∀ (a : args) (step : Z) (parts : list string) (st st' : acc) (al : alignment)
       (n : Z) (h w : pynum) (bins bins' : list grid),
       0 < step → 0 < r_length al → state_ok a st →
       read_alignment a parts = Ok (Some al) →
       ingest_line a step parts st = Ok st' →
       na st' = Some n → nh st' = Some h → weight al n h = Ok w →
       steps st !! r_chromosome al = Some bins →
       steps st' !! r_chromosome al = Some bins' →
       QArith_base.Qeq
         (exact_total bins' (r_length al - sizemin a) (strand al))
         (QArith_base.Qplus (exact_total bins (r_length al - sizemin a) (strand al))
                            (pynum_exact w)))
  ∧ ¬ (∀ (a : args) (step : Z) (parts : list string) (st st' : acc) (al : alignment)
         (n : Z) (bins bins' : list grid),
         normalize a = false → 0 < step → state_ok a st →
         read_alignment a parts = Ok (Some al) →
         ingest_line a step parts st = Ok st' →
         na st' = Some n →
         steps st !! r_chromosome al = Some bins →
         steps st' !! r_chromosome al = Some bins' →
         slot_total bins' (r_length al - sizemin a) (strand al)
         = slot_total bins (r_length al - sizemin a) (strand al) + r_length al * n).
Proof.
  split.
  - intros H.
    pose (st := Examples.start Examples.args_normalize3 10 Examples.one_chrom).
    destruct (ingest_line Examples.args_normalize3 10 Examples.read_nh10 st)
      as [st'|] eqn:Est; [|by vm_compute in Est].
    specialize (H Examples.args_normalize3 10 Examples.read_nh10 st st'
                  (Alignment "chr1" 3 0 10) 1 (PFloat 10) (PFloat Examples.three_tenths)
                  (zero_bins Examples.args_normalize3 10)
                  ((λ v, [[v; PInt 0]]) <$>
                     [PFloat Examples.tenth; PFloat Examples.two_tenths; PInt 0; PInt 0;
                      PInt 0; PInt 0; PInt 0; PInt 0; PInt 0; PInt 0])).
    vm_compute in Est. injection Est as <-.
    assert (QArith_base.Qeq
              (exact_total ((λ v, [[v; PInt 0]]) <$>
                     [PFloat Examples.tenth; PFloat Examples.two_tenths; PInt 0; PInt 0;
                      PInt 0; PInt 0; PInt 0; PInt 0; PInt 0; PInt 0]) (3 - 3) 0)
              (QArith_base.Qplus
                 (exact_total (zero_bins Examples.args_normalize3 10) (3 - 3) 0)
                 (pynum_exact (PFloat Examples.three_tenths)))) as Heq.
    { apply H; try reflexivity; try lia. split; [apply initial_ok|done]. }
    vm_compute in Heq. discriminate Heq.
  - intros H.
    pose (a := Args 20 10 0 5 false false false).
    pose (st := Examples.start a 10 Examples.one_chrom).
    destruct (ingest_line a 10 Examples.read_0M st) as [st'|] eqn:Est;
      [|by vm_compute in Est].
    specialize (H a 10 Examples.read_0M st st' (Alignment "chr1" 0 0 11) 1
                  (zero_bins a 10)
                  ((λ z, [[PInt z; PInt 0]; [PInt 0; PInt 0]; [PInt 0; PInt 0];
                           [PInt 0; PInt 0]; [PInt 0; PInt 0]; [PInt 0; PInt 0]])
                     <$> [10; 10; 0; 0; 0; 0; 0; 0; 0; 0])).
    vm_compute in Est. injection Est as <-.
    assert (slot_total
              ((λ z, [[PInt z; PInt 0]; [PInt 0; PInt 0]; [PInt 0; PInt 0];
                      [PInt 0; PInt 0]; [PInt 0; PInt 0]; [PInt 0; PInt 0]])
                 <$> [10; 10; 0; 0; 0; 0; 0; 0; 0; 0]) (0 - 0) 0
            = slot_total (zero_bins a 10) (0 - 0) 0 + 0 * 1) as Heq.
    { apply H; try reflexivity; try lia. split; [apply initial_ok|done]. }
    vm_compute in Heq. discriminate Heq.
Qed.

Example bins_after_read_0M :
  read_alignment (Args 20 10 0 5 false false false) Examples.read_0M
  = Ok (Some (Alignment "chr1" 0 0 11))
  ∧ ∃ st', ingest_line (Args 20 10 0 5 false false false) 10 Examples.read_0M
             (Examples.start (Args 20 10 0 5 false false false) 10 Examples.one_chrom)
           = Ok st'
      ∧ get4 (steps st') "chr1" 0 0 0 = Ok (PInt 10)
      ∧ get4 (steps st') "chr1" 1 0 0 = Ok (PInt 10)
      ∧ weight (Alignment "chr1" 0 0 11) 1 (PInt 1) = Ok (PInt 0).
Proof.
  split; [reflexivity|]. eexists. split; [by vm_compute|]. repeat split; reflexivity.
Qed.

Example bins_after_read_nh10 :
  ∃ st', ingest_line Examples.args_normalize3 10 Examples.read_nh10
           (Examples.start Examples.args_normalize3 10 Examples.one_chrom) = Ok st'
    ∧ get4 (steps st') "chr1" 0 0 0 = Ok (PFloat Examples.tenth)
    ∧ get4 (steps st') "chr1" 1 0 0 = Ok (PFloat Examples.two_tenths)
    ∧ weight (Alignment "chr1" 3 0 10) 1 (PFloat 10) = Ok (PFloat Examples.three_tenths)
    ∧ PrimFloat.add Examples.tenth Examples.two_tenths = Examples.above_three_tenths
    ∧ PrimFloat.eqb Examples.above_three_tenths Examples.three_tenths = false.
Proof.
  eexists. split; [by vm_compute|]. repeat split; reflexivity.
Qed.

(** ** Writes on integer tallies *)

Lemma add_int_comm d1 d2 v : add_int d1 (add_int d2 v) = add_int d2 (add_int d1 v).
Proof. destruct v; simpl; [f_equal; lia|done]. Qed.

(** Two writes commute. *)
Lemma bump_comm (w1 w2 : write) (s : gmap string (list grid)) :
  bump w1 (bump w2 s) = bump w2 (bump w1 s).
Proof.
  unfold bump. rewrite alter_alter. rewrite (alter_alter _ _ s (w_chrom w2)).
  destruct (decide (w_chrom w1 = w_chrom w2)) as [Heq|Hne].
  - rewrite decide_True by done. rewrite Heq. apply alter_ext. intros bins _. simpl.
    apply py_alter_comm. intros g. apply py_alter_comm. intros row.
    apply py_alter_comm. intros v. apply add_int_comm.
  - by rewrite decide_False by done.
Qed.

Lemma foldl_bump_perm (ws ws' : list write) :
  ws ≡ₚ ws' →
  ∀ s : gmap string (list grid), foldl (flip bump) s ws = foldl (flip bump) s ws'.
Proof.
  induction 1 as [|w ws ws' _ IH|w1 w2 ws|ws1 ws2 ws3 _ IH1 _ IH2]; intros s; simpl.
  - done.
  - apply IH.
  - unfold flip. by rewrite bump_comm.
  - by rewrite IH1.
Qed.

Lemma path_ok_alt (s : gmap string (list grid)) (w : write) :
  path_ok s w ↔
  ∃ bins, s !! w_chrom w = Some bins ∧
    ∃ g, py_getitem bins (w_bin w) = Ok g ∧
      ∃ row, py_getitem g (w_len w) = Ok row ∧
        ∃ v, py_getitem row (w_strand w) = Ok v ∧ True.
Proof.
  unfold path_ok, get4. destruct (s !! w_chrom w) as [bins|]; simpl.
  - split.
    + intros H. destruct (get3 bins _ _ _) as [v|] eqn:E; [|done].
      apply get3_Ok in E as (g & row & ? & ? & ?). exists bins. split; [done|].
      exists g. split; [done|]. exists row. split; [done|]. by exists v.
    + intros (bins' & [= <-] & g & Hg & row & Hrow & v & Hv & _).
      assert (get3 bins (w_bin w) (w_len w) (w_strand w) = Ok v) as ->; [|done].
      apply get3_Ok. by eauto.
  - split; [done|]. by intros (bins & [=] & _).
Qed.

(** A write does not change which slots exist. *)
Lemma path_ok_bump (w p : write) (s : gmap string (list grid)) :
  path_ok (bump w s) p ↔ path_ok s p.
Proof.
  rewrite !path_ok_alt. unfold bump. split.
  - intros (bins' & Hb & Hrest). rewrite lookup_alter in Hb. case_decide as Hd.
    + apply fmap_Some in Hb as (bins & Hbins & ->). rewrite Hd in Hbins.
      exists bins. split; [done|].
      apply py_alter_closed in Hrest; [done|]. intros g.
      apply py_alter_closed. intros row. apply py_alter_closed. done.
    + by exists bins'.
  - intros (bins & Hb & Hrest). destruct (decide (w_chrom w = w_chrom p)) as [Hd|Hd].
    + eexists. split; [by rewrite lookup_alter, decide_True, Hd, Hb by done|].
      apply py_alter_closed; [|done]. intros g.
      apply py_alter_closed. intros row. apply py_alter_closed. done.
    + exists bins. split; [|done]. by rewrite lookup_alter_ne.
Qed.

Lemma insert_as_alter {A} (F : A → A) (s : gmap string A) c v :
  s !! c = Some v → <[c := F v]> s = alter F c s.
Proof.
  intros Hv. apply map_eq. intros k. destruct (decide (c = k)) as [<-|Hne].
  - by rewrite lookup_insert_eq, lookup_alter_eq, Hv.
  - by rewrite lookup_insert_ne, lookup_alter_ne.
Qed.

(** ** Ingestion without --normalize *)

Section Without_normalize.
Context (a : args) (Hnorm : normalize a = false).

(** Without --normalize a [+=] of ingestion on integer tallies is a
    [bump], and it goes through exactly when its slot exists. *)
Lemma tally_add_bump_bwd c li x n (w : Z * Z) (s : gmap string (list grid)) :
  tallies_ok a false s →
  path_ok s (Write c w.1 li x (w.2 * n)) →
  tally_add c li x (Some n) (Some (PInt 1)) w s
  = Ok (bump (Write c w.1 li x (w.2 * n)) s).
Proof.
  intros Hok (bins & Hbins & g & Hg & row & Hrow & v & Hv & _)%path_ok_alt.
  simpl in *.
  pose proof (Hok _ _ Hbins) as Hb.
  pose proof (py_getitem_Forall _ _ _ _ Hb Hg) as Hgok.
  destruct (py_getitem_Forall _ _ _ _ (proj2 Hgok) Hrow) as [_ Hcells].
  destruct (py_getitem_Forall _ _ _ _ Hcells Hv) as [z ->].
  unfold tally_add. rewrite Hbins; cbn [rbind]. rewrite Hg; cbn [rbind].
  rewrite Hrow; cbn [rbind]. rewrite Hv; cbn [rbind load].
  unfold py_div. rewrite decide_False by done. cbn [rbind py_add]. f_equal.
  rewrite Z.div_1_r.
  change (PInt (z + w.2 * n)) with (add_int (w.2 * n) (PInt z)).
  rewrite (py_setitem_alter (add_int (w.2 * n)) row x (PInt z)) by done.
  rewrite (py_setitem_alter (py_alter (add_int (w.2 * n)) x) g li row) by done.
  rewrite (insert_as_alter
             (λ bins, py_setitem bins w.1
                        (py_alter (py_alter (add_int (w.2 * n)) x) li g)) s c bins)
    by done.
  unfold bump. simpl. apply alter_ext. intros bins' Hbins'.
  assert (bins' = bins) as -> by congruence.
  by rewrite (py_setitem_alter (py_alter (py_alter (add_int (w.2 * n)) x) li) bins w.1 g).
Qed.

Lemma tally_add_bump_fwd c li x n (w : Z * Z) (s s' : gmap string (list grid)) :
  tallies_ok a false s →
  tally_add c li x (Some n) (Some (PInt 1)) w s = Ok s' →
  path_ok s (Write c w.1 li x (w.2 * n)) ∧ s' = bump (Write c w.1 li x (w.2 * n)) s.
Proof.
  intros Hok H.
  assert (path_ok s (Write c w.1 li x (w.2 * n))) as Hpath.
  { destruct (tally_add_Ok _ _ _ _ _ _ _ _ H)
      as (bins & g & row & old & _ & _ & _ & _ & ? & ? & ? & ? & _).
    apply path_ok_alt. simpl. exists bins. split; [done|]. exists g. split; [done|].
    exists row. split; [done|]. by exists old. }
  split; [done|]. rewrite tally_add_bump_bwd in H by done. by injection H.
Qed.

(** The writes of one alignment. *)
Lemma tally_writes_bumps c li x n (bw : list (Z * Z)) (s s' : gmap string (list grid)) :
  tallies_ok a false s →
  for_each (tally_add c li x (Some n) (Some (PInt 1))) bw s = Ok s' ↔
  Forall (path_ok s) ((λ w, Write c w.1 li x (w.2 * n)) <$> bw)
  ∧ s' = foldl (flip bump) s ((λ w, Write c w.1 li x (w.2 * n)) <$> bw).
Proof.
  assert (nh_ok false (Some (PInt 1))) as Hnh by done.
  revert s. induction bw as [|w bw IH]; intros s Hok; cbn [for_each fmap list_fmap foldl].
  - split; [intros [= <-]; by split|by intros [_ ->]].
  - split.
    + intros H.
      destruct (tally_add c li x (Some n) (Some (PInt 1)) w s) as [s1|] eqn:E;
        cbn [rbind] in H; [|done].
      pose proof (tally_add_tallies_ok a false _ _ _ _ _ _ _ _ Hnh Hok E) as Hok1.
      apply tally_add_bump_fwd in E as [Hp ->]; [|done].
      apply IH in H as [Hall ->]; [|done]. split; [|done].
      constructor; [done|]. eapply Forall_impl; [exact Hall|].
      intros p. apply path_ok_bump.
    + intros [Hall ->]. apply Forall_cons in Hall as [Hp Hall].
      pose proof (tally_add_bump_bwd c li x n w s Hok Hp) as E. rewrite E. cbn [rbind].
      pose proof (tally_add_tallies_ok a false _ _ _ _ _ _ _ _ Hnh Hok E) as Hok1.
      apply IH; [done|]. split; [|done].
      eapply Forall_impl; [exact Hall|]. intros p. apply path_ok_bump.
Qed.

Lemma path_ok_foldl_bump (ws : list write) (p : write) (s : gmap string (list grid)) :
  path_ok (foldl (flip bump) s ws) p ↔ path_ok s p.
Proof.
  revert s. induction ws as [|w ws IH]; intros s; simpl; [done|].
  rewrite IH. apply path_ok_bump.
Qed.

Lemma bind_na_tagged parts v :
  tagged a parts → bind_na a parts v = (let* n := line_na a parts in Ok (Some n)).
Proof.
  unfold tagged, bind_na, line_na. destruct (abundance a); [|done].
  intros H. destruct (H eq_refl) as [p ->]. done.
Qed.

(** Without --normalize a line with its tag makes the writes of
    [writes_of], whatever [na] and [nh] were before. *)
Lemma ingest_line_bumps_fwd step parts st st' :
  tagged a parts → state_ok a st →
  ingest_line a step parts st = Ok st' →
  line_good a step parts
  ∧ Forall (path_ok (steps st)) (writes_of a step parts)
  ∧ steps st' = foldl (flip bump) (steps st) (writes_of a step parts).
Proof.
  intros Htag [Hok _] H. rewrite Hnorm in Hok.
  unfold line_good, writes_of, line_writes.
  destruct (ingest_line_Ok _ _ _ _ _ H)
    as [[-> ->]|(al & na' & nh' & steps' & -> & Hna & Hnh & Ht & ->)]; [done|].
  cbn [rbind]. rewrite bind_na_tagged in Hna by done.
  apply (bind_nh_not_normalize _ _ _ _ Hnorm) in Hnh as ->.
  destruct (line_na a parts) as [n|]; cbn [rbind] in Hna |- *; [|done].
  injection Hna as <-. apply tally_Ok in Ht as (ws & -> & Ht). cbn [rbind].
  apply tally_writes_bumps in Ht as [Hall ->]; done.
Qed.

Lemma ingest_line_bumps_bwd step parts st :
  tagged a parts → state_ok a st →
  line_good a step parts →
  Forall (path_ok (steps st)) (writes_of a step parts) →
  ∃ st', ingest_line a step parts st = Ok st'
    ∧ steps st' = foldl (flip bump) (steps st) (writes_of a step parts).
Proof.
  intros Htag [Hok _]. rewrite Hnorm in Hok.
  unfold line_good, writes_of, line_writes, ingest_line.
  destruct (read_alignment a parts) as [[al|]|]; cbn [rbind]; [| |done].
  - rewrite bind_na_tagged by done.
    destruct (line_na a parts) as [n|]; cbn [rbind is_ok]; [|done].
    unfold tally.
    destruct (bin_writes step (r_start al) (r_end al) (r_length al)) as [ws|];
      cbn [rbind is_ok]; [|done].
    intros _ Hall. unfold bind_nh. rewrite Hnorm. cbn [rbind].
    pose proof (proj2 (tally_writes_bumps _ _ _ _ _ _ _ Hok) (conj Hall eq_refl)) as ->.
    cbn [rbind]. by eexists.
  - intros _ _. by exists st.
Qed.

Lemma ingest_bumps_fwd step lines :
  Forall (tagged a) lines →
  ∀ st st', state_ok a st →
    ingest a step lines st = Ok st' →
    Forall (line_good a step) lines
    ∧ Forall (path_ok (steps st)) (lines ≫= writes_of a step)
    ∧ steps st' = foldl (flip bump) (steps st) (lines ≫= writes_of a step).
Proof.
  intros Htags. unfold ingest.
  induction Htags as [|parts lines Htag Htags IH]; intros st st' Hst H; cbn [for_each] in H.
  - injection H as <-. by repeat split.
  - destruct (ingest_line a step parts st) as [st1|] eqn:E; cbn [rbind] in H; [|done].
    pose proof (ingest_line_state_ok _ _ _ _ _ Hst E) as Hst1.
    destruct (ingest_line_bumps_fwd _ _ _ _ Htag Hst E) as (Hgood & Hall & Hs1).
    destruct (IH _ _ Hst1 H) as (Hgoods & Halls & Hs').
    split; [by constructor|]. rewrite bind_cons, Forall_app, foldl_app. split.
    + split; [done|]. eapply Forall_impl; [exact Halls|].
      intros p. rewrite Hs1. apply path_ok_foldl_bump.
    + by rewrite <- Hs1.
Qed.

Lemma ingest_bumps_bwd step lines :
  Forall (tagged a) lines →
  ∀ st, state_ok a st →
    Forall (line_good a step) lines →
    Forall (path_ok (steps st)) (lines ≫= writes_of a step) →
    ∃ st', ingest a step lines st = Ok st'
      ∧ steps st' = foldl (flip bump) (steps st) (lines ≫= writes_of a step).
Proof.
  intros Htags. unfold ingest.
  induction Htags as [|parts lines Htag Htags IH]; intros st Hst Hgoods Halls;
    cbn [for_each].
  - by exists st.
  - apply Forall_cons in Hgoods as [Hgood Hgoods].
    rewrite bind_cons, Forall_app in Halls. destruct Halls as [Hall Halls].
    destruct (ingest_line_bumps_bwd _ _ _ Htag Hst Hgood Hall) as (st1 & E & Hs1).
    rewrite E. cbn [rbind].
    pose proof (ingest_line_state_ok _ _ _ _ _ Hst E) as Hst1.
    destruct (IH st1 Hst1 Hgoods) as (st' & H & Hs').
    { eapply Forall_impl; [exact Halls|]. intros p. rewrite Hs1.
      apply path_ok_foldl_bump. }
    exists st'. split; [done|]. by rewrite bind_cons, foldl_app, <- Hs1.
Qed.

End Without_normalize.

(** C9, amended: without --normalize, on lines that carry the tag of
    --abundance when that option is on, ingestion does not depend on the
    order of the lines: if it succeeds on one order it succeeds on every
    permutation, with the same tallies in every slot of every bin. *)
Theorem C9_order_insensitive_without_normalize (a : args) (step : Z)
    (lines lines' : list (list string)) (st0 st : acc) :
  normalize a = false →
  Forall (tagged a) lines →
  state_ok a st0 →
  lines ≡ₚ lines' →
  ingest a step lines st0 = Ok st →
  ∃ st', ingest a step lines' st0 = Ok st' ∧ steps st' = steps st.
Proof.
  intros Hnorm Htags Hst Hperm H.
  destruct (ingest_bumps_fwd a Hnorm _ _ Htags _ _ Hst H) as (Hgoods & Halls & Hs).
  assert (lines ≫= writes_of a step ≡ₚ lines' ≫= writes_of a step) as Hperm'
    by (by rewrite Hperm).
  destruct (ingest_bumps_bwd a Hnorm step lines') with (st := st0) as (st' & H' & Hs').
  - by rewrite <- Hperm.
  - done.
  - by rewrite <- Hperm.
  - by rewrite <- Hperm'.
  - exists st'. split; [done|]. rewrite Hs', Hs. symmetry. by apply foldl_bump_perm.
Qed.

Lemma C9_order_insensitive_without_normalize_witness :
  ∃ st',
    ingest Examples.args_abundance 10 [Examples.read_na7; Examples.read_na5]
           (Examples.start Examples.args_abundance 10 Examples.one_chrom) = Ok st'
    ∧ steps st'
      = steps (Examples.ingested Examples.args_abundance 10 Examples.one_chrom
                 [Examples.read_na5; Examples.read_na7]).
Proof.
  apply (C9_order_insensitive_without_normalize Examples.args_abundance 10
           [Examples.read_na5; Examples.read_na7]
           [Examples.read_na7; Examples.read_na5]).
  - reflexivity.
  - repeat constructor; intros _; eexists; reflexivity.
  - split; [apply initial_ok|done].
  - apply perm_swap.
  - by vm_compute.
Defined.

(** C9 as stated fails with --normalize: three reads of length 20 in the
    same bin with NH 1, 2 and 3 add 20/1.0, 20/2.0 and 20/3.0 to the same
    slot; in that order the slot ends at 36.666666666666664, in the
    reverse order at 36.66666666666667, since the addition of doubles is
    not associative.  Every line carries its tag. *)
Lemma C9_order_insensitive_counterexample :
  ¬ (∀ (a : args) (step : Z) (lines lines' : list (list string)) (st0 st st' : acc),
       0 < step → state_ok a st0 →
       Forall (tagged a) lines → Forall (tagged_nh a) lines →
       lines ≡ₚ lines' →
       ingest a step lines st0 = Ok st →
       ingest a step lines' st0 = Ok st' →
       steps st' = steps st).
Proof.
  intros H.
  pose (a := Examples.args_normalize_wide).
  pose (l1 := [Examples.read_nh "1"; Examples.read_nh "2"; Examples.read_nh "3"]).
  pose (l2 := [Examples.read_nh "3"; Examples.read_nh "2"; Examples.read_nh "1"]).
  assert (steps (Examples.ingested a 100 Examples.one_chrom l2)
          = steps (Examples.ingested a 100 Examples.one_chrom l1)) as Heq.
  { apply (H a 100 l1 l2 (Examples.start a 100 Examples.one_chrom)).
    - done.
    - split; [apply initial_ok|done].
    - repeat constructor; intros [=].
    - repeat constructor; intros _; eexists; reflexivity.
    - apply (Permutation_rev l1).
    - by vm_compute.
    - by vm_compute. }
  apply (f_equal (λ s, match get4 s "chr1" 0 0 0 with
                       | Ok (PFloat f) => Prim2SF f
                       | _ => S754_zero false
                       end)) in Heq.
  vm_compute in Heq. discriminate Heq.
Qed.

Example tallies_depend_on_order_with_normalize :
  ∃ st st' x y,
    ingest Examples.args_normalize_wide 100
      [Examples.read_nh "1"; Examples.read_nh "2"; Examples.read_nh "3"]
      (Examples.start Examples.args_normalize_wide 100 Examples.one_chrom) = Ok st
    ∧ ingest Examples.args_normalize_wide 100
        [Examples.read_nh "3"; Examples.read_nh "2"; Examples.read_nh "1"]
        (Examples.start Examples.args_normalize_wide 100 Examples.one_chrom) = Ok st'
    ∧ get4 (steps st) "chr1" 0 0 0 = Ok (PFloat x)
    ∧ get4 (steps st') "chr1" 0 0 0 = Ok (PFloat y)
    ∧ PrimFloat.ltb x y = true.
Proof.
  do 4 eexists. split; [by vm_compute|]. split; [by vm_compute|].
  split; [by vm_compute|]. split; [by vm_compute|]. by vm_compute.
Qed.

(** * Further properties of the code *)

(** ** getLength: the CIGAR strings it accepts and what it returns *)

Lemma string_app_nil_r (s : string) : (s ++ "")%string = s.
Proof.
  induction s as [|c s IH]; [done|].
  change (String c (s ++ "") = String c s). by f_equal.
Qed.

Lemma string_app_assoc (s t u : string) : ((s ++ t) ++ u)%string = (s ++ (t ++ u))%string.
Proof.
  induction s as [|c s IH]; [done|].
  change (String c ((s ++ t) ++ u) = String c (s ++ (t ++ u))). by f_equal.
Qed.

Lemma str_of_digit_val (c : ascii) :
  is_digit c = true → str_of_digit (digit_val c) = String c EmptyString.
Proof.
  destruct c as [[] [] [] [] [] [] [] []]; try discriminate; intros _; reflexivity.
Qed.

Lemma digit_not_space (c : ascii) : is_digit c = true → is_space c = false.
Proof.
  destruct c as [[] [] [] [] [] [] [] []]; try discriminate; intros _; reflexivity.
Qed.

Lemma digit_val_bounds (c : ascii) : is_digit c = true → 0 ≤ digit_val c ≤ 9.
Proof.
  destruct c as [[] [] [] [] [] [] [] []]; try discriminate; intros _;
    vm_compute; split; discriminate.
Qed.

Lemma all_digits_cons (c : ascii) (s : string) :
  all_digits (String c s) ↔ is_digit c = true ∧ all_digits s.
Proof. unfold all_digits. simpl. by rewrite Forall_cons. Qed.

Lemma no_digits_cons (c : ascii) (s : string) :
  no_digits (String c s) ↔ is_digit c = false ∧ no_digits s.
Proof. unfold no_digits. simpl. by rewrite Forall_cons. Qed.

Lemma rstrip_all_digits (s : string) : all_digits s → rstrip s = s.
Proof.
  induction s as [|c s IH]; [done|].
  intros [Hc Hs]%all_digits_cons. simpl. rewrite (IH Hs).
  destruct s; [|done]. by rewrite (digit_not_space c Hc).
Qed.

Lemma strip_all_digits (s : string) : all_digits s → strip s = s.
Proof.
  intros Hs. unfold strip.
  assert (lstrip s = s) as ->; [|by apply rstrip_all_digits].
  destruct s as [|c s]; [done|]. apply all_digits_cons in Hs as [Hc _].
  simpl. by rewrite (digit_not_space c Hc).
Qed.

Lemma digits_val_all_digits (s : string) (acc : Z) :
  all_digits s → 0 ≤ acc → ∃ z, digits_val acc s = Some z ∧ 0 ≤ z.
Proof.
  revert acc. induction s as [|c s IH]; intros acc Hs Hacc; [by exists acc|].
  apply all_digits_cons in Hs as [Hc Hs]. simpl. rewrite Hc.
  apply IH; [done|]. pose proof (digit_val_bounds c Hc). lia.
Qed.

(** [int] of a string of digits is the number they spell. *)
Lemma py_int_all_digits (s : string) :
  all_digits s → s ≠ EmptyString →
  ∃ z, digits_val 0 s = Some z ∧ 0 ≤ z ∧ py_int s = Ok z.
Proof.
  intros Hs Hne. destruct (digits_val_all_digits s 0 Hs) as (z & Hz & Hpos); [done|].
  exists z. split_and!; [done..|].
  unfold py_int, int_lit. rewrite (strip_all_digits s Hs).
  destruct s as [|c s]; [done|]. apply all_digits_cons in Hs as [Hc _].
  assert (unsigned_lit (String c s) = Ok z) as Hu.
  { unfold unsigned_lit. by rewrite Hz. }
  destruct c as [[] [] [] [] [] [] [] []]; try discriminate Hc; exact Hu.
Qed.

Lemma py_int_empty : py_int "" = Raise ValueError.
Proof. reflexivity. Qed.

(** The digits in front: they are collected in [number]. *)
Lemma getLength_digits (ds acc : string) (count : Z) :
  all_digits ds →
  for_each getLength_step (list_ascii_of_string ds) (NumStr acc, count)
  = Ok (NumStr (acc ++ ds), count).
Proof.
  revert acc. induction ds as [|c ds IH]; intros acc Hds; simpl.
  - by rewrite string_app_nil_r.
  - apply all_digits_cons in Hds as [Hc Hds].
    rewrite (py_int_digit c Hc), (str_of_digit_val c Hc). cbn [rbind].
    rewrite (IH _ Hds), string_app_assoc. done.
Qed.

(** Operations after the first one: [number] is the int 0, and each adds
    nothing. *)
Lemma getLength_operations (rest : string) (count : Z) :
  no_digits rest →
  for_each getLength_step (list_ascii_of_string rest) (NumInt 0, count)
  = Ok (NumInt 0, count).
Proof.
  induction rest as [|c rest IH]; intros Hrest; simpl; [done|].
  apply no_digits_cons in Hrest as [Hc Hrest].
  rewrite (py_int_not_digit c Hc).
  destruct (is_length_op c); cbn [rbind int_of_numvar];
    rewrite ?Z.add_0_r; by apply IH.
Qed.

(** What [getLength] does on digits followed by operation letters. *)
Lemma getLength_digits_operations (ds rest : string) :
  all_digits ds → no_digits rest →
  getLength (ds ++ rest)
  = if starts_with_length_op rest then py_int ds else Ok 0.
Proof.
  intros Hds Hrest. unfold getLength.
  rewrite list_ascii_of_string_app, for_each_app, (getLength_digits ds "" 0 Hds).
  change ("" ++ ds)%string with ds.
  cbn [rbind]. destruct rest as [|op rest]; [done|].
  apply no_digits_cons in Hrest as [Hop Hrest].
  cbn [list_ascii_of_string for_each getLength_step starts_with_length_op].
  rewrite (py_int_not_digit op Hop).
  destruct (is_length_op op); cbn [rbind int_of_numvar].
  - destruct (py_int ds) as [n|e]; cbn [rbind]; [|done].
    by rewrite (getLength_operations rest _ Hrest).
  - by rewrite (getLength_operations rest _ Hrest).
Qed.

Lemma cigar_ops_no_digits (rest : string) :
  no_digits rest →
  foldr (λ op acc, if is_length_op op.2 then op.1 + acc else acc) 0
        (cigar_ops 0 rest) = 0.
Proof.
  induction rest as [|c rest IH]; intros Hrest; [done|].
  apply no_digits_cons in Hrest as [Hc Hrest]. simpl. rewrite Hc. simpl.
  rewrite (IH Hrest). by destruct (is_length_op c).
Qed.

Lemma cigar_ops_digits (ds rest : string) (acc : Z) :
  all_digits ds → no_digits rest →
  cigar_ops acc (ds ++ rest)
  = match rest with
    | EmptyString => []
    | String op rest' =>
        (default 0 (digits_val acc ds), op) :: cigar_ops 0 rest'
    end.
Proof.
  revert acc. induction ds as [|c ds IH]; intros acc Hds Hrest.
  - destruct rest as [|op rest]; [done|].
    apply no_digits_cons in Hrest as [Hop _]. simpl. by rewrite Hop.
  - apply all_digits_cons in Hds as [Hc Hds]. simpl. rewrite Hc. by apply IH.
Qed.

(** The same strings, in the words of the specification. *)
Lemma spec_length_digits_operations (ds rest : string) :
  all_digits ds → no_digits rest →
  spec_length (ds ++ rest)
  = if starts_with_length_op rest then default 0 (digits_val 0 ds) else 0.
Proof.
  intros Hds Hrest. unfold spec_length. rewrite (cigar_ops_digits _ _ _ Hds Hrest).
  destruct rest as [|op rest]; [done|].
  apply no_digits_cons in Hrest as [_ Hrest]. simpl.
  rewrite (cigar_ops_no_digits rest Hrest).
  destruct (is_length_op op); [lia|done].
Qed.

(** Every string is digits followed by operation letters, or has a digit
    right after an operation letter. *)
Lemma cigar_shape (s : string) :
  (∃ ds rest, s = (ds ++ rest)%string ∧ all_digits ds ∧ no_digits rest)
  ∨ (∃ pre op d post, s = (pre ++ String op (String d post))%string
       ∧ is_digit op = false ∧ is_digit d = true).
Proof.
  induction s as [|c s IH].
  - left. exists "", "". split_and!; [done|constructor..].
  - destruct IH as [(ds & rest & -> & Hds & Hrest)|(pre & op & d & post & -> & Hop & Hd)].
    + destruct (is_digit c) eqn:Hc.
      * left. exists (String c ds), rest. split_and!; [done| |done].
        by apply all_digits_cons.
      * destruct ds as [|d ds].
        -- left. exists "", (String c rest). split_and!; [done|constructor|].
           by apply no_digits_cons.
        -- right. apply all_digits_cons in Hds as [Hd _].
           by exists "", c, d, (ds ++ rest)%string.
    + right. by exists (String c pre), op, d, post.
Qed.

(** A digit right after an operation letter ends [getLength] with an
    exception. *)
Lemma getLength_digit_after_operation (pre post : string) (op d : ascii) :
  is_digit op = false → is_digit d = true →
  is_ok (getLength (pre ++ String op (String d post))%string) = false.
Proof.
  intros Hop Hd. unfold getLength.
  rewrite list_ascii_of_string_app. simpl list_ascii_of_string.
  rewrite for_each_app.
  destruct (for_each getLength_step (list_ascii_of_string pre) _) as [st|e];
    simpl; [|done].
  destruct (getLength_step_after_operation op d st Hop Hd) as [H|[e H]].
  - destruct (getLength_step op st) as [st'|e]; simpl in *; [|done].
    by rewrite H.
  - by rewrite H.
Qed.

(** X1: on a CIGAR string made of digits followed by operation letters
    (one operand, then letters only), [getLength] returns the sum the
    documentation describes, except that it raises ValueError when the
    string starts with a counted letter and so has no operand at all. *)
Theorem getLength_single_operand (ds rest : string) :
  all_digits ds → no_digits rest →
  getLength (ds ++ rest)
  = if bool_decide (ds = EmptyString) && starts_with_length_op rest
    then Raise ValueError
    else Ok (spec_length (ds ++ rest)).
Proof.
  intros Hds Hrest.
  rewrite (getLength_digits_operations _ _ Hds Hrest),
    (spec_length_digits_operations _ _ Hds Hrest).
  case_bool_decide as Hne; simpl.
  - subst ds. by destruct (starts_with_length_op rest).
  - destruct (starts_with_length_op rest); [|done].
    destruct (py_int_all_digits ds Hds Hne) as (z & -> & _ & ->). done.
Qed.

Lemma getLength_single_operand_witness :
  getLength ("20" ++ "M")
  = if bool_decide ("20" = EmptyString) && starts_with_length_op "M"
    then Raise ValueError
    else Ok (spec_length ("20" ++ "M")).
Proof.
  apply (getLength_single_operand "20" "M").
  - unfold all_digits. simpl. repeat constructor.
  - unfold no_digits. simpl. repeat constructor.
Defined.

(** X2: whenever [getLength] returns, the value is the sum of the operand
    counts of the M, X, I, S and = operations, and it is not negative. *)
Theorem getLength_returns_documented_sum (cigar : string) (n : Z) :
  getLength cigar = Ok n → n = spec_length cigar ∧ 0 ≤ n.
Proof.
  intros Hget.
  destruct (cigar_shape cigar)
    as [(ds & rest & -> & Hds & Hrest)|(pre & op & d & post & -> & Hop & Hd)].
  - rewrite (getLength_digits_operations _ _ Hds Hrest) in Hget.
    rewrite (spec_length_digits_operations _ _ Hds Hrest).
    destruct (starts_with_length_op rest); [|by simplify_eq].
    destruct ds as [|c ds]; [done|].
    destruct (py_int_all_digits (String c ds) Hds) as (z & -> & Hz & Hint); [done|].
    rewrite Hint in Hget. by simplify_eq.
  - pose proof (getLength_digit_after_operation pre post op d Hop Hd) as Hr.
    by rewrite Hget in Hr.
Qed.

Lemma getLength_returns_documented_sum_witness :
  20 = spec_length "20M" ∧ 0 ≤ 20.
Proof. apply (getLength_returns_documented_sum "20M" 20). reflexivity. Defined.

(** ** What a line is read as *)

Lemma n_sizes_eq (a : args) : n_sizes a = Z.max 0 (sizemax a + 1 - sizemin a).
Proof. unfold n_sizes, read_size, py_range2. rewrite length_seqZ. lia. Qed.

Lemma read_alignment_Some (a : args) (parts : list string) (al : alignment) :
  read_alignment a parts = Ok (Some al) →
  ∃ flag,
    (let* p := py_getitem parts 1 in py_int p) = Ok flag
    ∧ (let* p := py_getitem parts 5 in getLength p) = Ok (r_length al)
    ∧ py_getitem parts 2 = Ok (r_chromosome al)
    ∧ strand al = (if negb (poolstrands a) && bool_decide (flag = 16) then 1 else 0).
Proof.
  unfold read_alignment. intros H.
  destruct (is_header parts); [done|].
  destruct (let* p := py_getitem parts 1 in py_int p) as [flag|]; cbn [rbind] in H; [|done].
  destruct (decide (flag = 4)); [done|].
  destruct (let* p := py_getitem parts 5 in getLength p) as [len|]; cbn [rbind] in H; [|done].
  destruct (bool_decide (len ∈ read_size a)) eqn:Hin; [|done].
  destruct (py_getitem parts 2) as [c|]; cbn [rbind] in H; [|done].
  destruct (let* p := py_getitem parts 3 in py_int p) as [start|]; cbn [rbind] in H; [|done].
  injection H as <-. by exists flag.
Qed.

Lemma read_alignment_slot (a : args) (parts : list string) (al : alignment) :
  read_alignment a parts = Ok (Some al) →
  0 ≤ r_length al - sizemin a < n_sizes a ∧ 0 ≤ strand al < n_strands a.
Proof.
  intros Hal. pose proof (read_alignment_in_range _ _ _ Hal) as Hlen.
  destruct (read_alignment_Some _ _ _ Hal) as (flag & _ & _ & _ & Hstrand).
  rewrite n_sizes_eq, Hstrand. unfold n_strands.
  split; [lia|]. destruct (poolstrands a); simpl; [lia|].
  case_bool_decide; lia.
Qed.

(** X3: a line that is tallied addresses a slot of the tables: the row
    [r_length - sizemin] is below [len(read_size)] and the column
    [strand] below the number of strands, neither is negative; the
    column is 1 exactly for flag 16 without --poolstrands, and so always
    0 with it. *)
Theorem tallied_slot_is_in_grid (a : args) (parts : list string) (al : alignment) :
  read_alignment a parts = Ok (Some al) →
  0 ≤ r_length al - sizemin a < n_sizes a
  ∧ 0 ≤ strand al < n_strands a
  ∧ (strand al = 1 ↔
       poolstrands a = false
       ∧ (let* p := py_getitem parts 1 in py_int p) = Ok 16).
Proof.
  intros Hal. destruct (read_alignment_slot _ _ _ Hal) as [Hli Hx].
  destruct (read_alignment_Some _ _ _ Hal) as (flag & Hflag & _ & _ & Hstrand).
  split; [done|]. split; [done|].
  rewrite Hstrand, Hflag. destruct (poolstrands a); simpl.
  - split; [lia|]. by intros [? _].
  - case_bool_decide as Hf; split; try lia.
    + intros _. by rewrite Hf.
    + intros [_ ?]. by simplify_eq.
Qed.

Lemma tallied_slot_is_in_grid_witness :
  0 ≤ 5 - sizemin Examples.args_len5 < n_sizes Examples.args_len5
  ∧ 0 ≤ 0 < n_strands Examples.args_len5
  ∧ (0 = 1 ↔
       poolstrands Examples.args_len5 = false
       ∧ (let* p := py_getitem Examples.read_at_15 1 in py_int p) = Ok 16).
Proof.
  apply (tallied_slot_is_in_grid Examples.args_len5 Examples.read_at_15
           (Alignment "chr1" 5 0 15)).
  reflexivity.
Defined.

(** ** The tables of a run *)

Lemma init_loop_skip (a : args) (step : Z) (cs : chrom_table) (c : string)
    (m m' : gmap string (list grid)) :
  c ∉ cs.*1 →
  for_each (init_chromosome a step) cs m = Ok m' →
  m' !! c = m !! c.
Proof.
  revert m. induction cs as [|cl cs IH]; intros m Hc; cbn [for_each].
  { by intros [= <-]. }
  rewrite fmap_cons in Hc. apply not_elem_of_cons in Hc as [Hne Hc].
  destruct (init_chromosome a step cl m) as [m1|] eqn:E; cbn [rbind]; [|done].
  apply init_chromosome_Ok in E as (n & _ & ->).
  intros H. rewrite (IH _ Hc H). by apply lookup_insert_ne.
Qed.

Lemma init_loop_hit (a : args) (step : Z) (cs : chrom_table) (c : string) (len : Z)
    (m m' : gmap string (list grid)) :
  NoDup cs.*1 → (c, len) ∈ cs →
  for_each (init_chromosome a step) cs m = Ok m' →
  ∃ n, ceil_div len step = Ok n ∧ m' !! c = Some (zero_bins a n).
Proof.
  revert m. induction cs as [|cl cs IH]; intros m Hnd Hin;
    [by apply elem_of_nil in Hin|].
  rewrite fmap_cons in Hnd. apply NoDup_cons in Hnd as [Hcl Hnd].
  cbn [for_each].
  destruct (init_chromosome a step cl m) as [m1|] eqn:E; cbn [rbind]; [|done].
  apply init_chromosome_Ok in E as (n & Hn & ->). intros H.
  apply elem_of_cons in Hin as [<-|Hin].
  - exists n. split; [done|]. cbn [fst] in *.
    rewrite (init_loop_skip _ _ _ _ _ _ Hcl H). apply lookup_insert_eq.
  - by eapply IH.
Qed.

Lemma init_steps_lookup_None (a : args) (step : Z) (chromosomes : chrom_table)
    (c : string) (steps0 : gmap string (list grid)) :
  c ∉ chromosomes.*1 → init_steps a step chromosomes = Ok steps0 → steps0 !! c = None.
Proof. intros Hc H. by rewrite (init_loop_skip _ _ _ _ _ _ Hc H). Qed.

Lemma init_steps_lookup (a : args) (step : Z) (chromosomes : chrom_table)
    (c : string) (len : Z) (steps0 : gmap string (list grid)) :
  NoDup chromosomes.*1 → (c, len) ∈ chromosomes →
  init_steps a step chromosomes = Ok steps0 →
  ∃ n, ceil_div len step = Ok n ∧ steps0 !! c = Some (zero_bins a n).
Proof. apply init_loop_hit. Qed.

(** The initialisation loop returns as soon as the ceiling is computed
    for every chromosome. *)
Lemma init_steps_returns (a : args) (step : Z) (chromosomes : chrom_table) :
  (∀ c len, (c, len) ∈ chromosomes → is_ok (ceil_div len step) = true) →
  ∃ steps0, init_steps a step chromosomes = Ok steps0.
Proof.
  intros Hall. unfold init_steps.
  destruct (for_each_ok (λ _, True) (init_chromosome a step) chromosomes) with (s := (∅ : gmap string (list grid)))
    as (s' & Hs' & _); [|done|by exists s'].
  intros [c len] s Hin _. specialize (Hall c len Hin).
  unfold init_chromosome. cbn [snd].
  destruct (ceil_div len step); [|done]. cbn [rbind]. by eexists.
Qed.

(** The bins of a declared chromosome after ingestion. *)
Lemma ingest_declared (a : args) (step : Z) (chromosomes : chrom_table)
    (lines : list (list string)) (steps0 : gmap string (list grid)) (st : acc)
    (c : string) (len : Z) :
  NoDup chromosomes.*1 → (c, len) ∈ chromosomes →
  init_steps a step chromosomes = Ok steps0 →
  ingest a step lines (Acc steps0 None None) = Ok st →
  ∃ n bins, ceil_div len step = Ok n
            ∧ steps st !! c = Some bins
            ∧ length bins = Z.to_nat n
            ∧ bins_ok a (normalize a) bins.
Proof.
  intros Hnd Hin Hinit Hing.
  pose proof (ingest_state_ok _ _ _ _ _ (init_state_ok a step chromosomes _ Hinit) Hing)
    as [Hok _].
  pose proof (ingest_bin_counts _ _ _ _ _ Hing) as Hcounts.
  apply (f_equal (λ m : gmap string nat, m !! c)) in Hcounts.
  cbn [steps] in Hcounts.
  destruct (init_steps_lookup _ _ _ _ _ _ Hnd Hin Hinit) as (n & Hn & Hlook).
  rewrite !lookup_fmap, Hlook in Hcounts.
  destruct (steps st !! c) as [bins|] eqn:Hbins; [|done].
  cbn [fmap option_fmap option_map] in Hcounts.
  injection Hcounts as Hnb. rewrite length_zero_bins in Hnb.
  exists n, bins. split_and!; [done..|]. by apply (Hok c).
Qed.

Lemma ingest_undeclared (a : args) (step : Z) (chromosomes : chrom_table)
    (lines : list (list string)) (steps0 : gmap string (list grid)) (st : acc)
    (c : string) :
  c ∉ chromosomes.*1 →
  init_steps a step chromosomes = Ok steps0 →
  ingest a step lines (Acc steps0 None None) = Ok st →
  steps st !! c = None.
Proof.
  intros Hc Hinit Hing.
  pose proof (ingest_bin_counts _ _ _ _ _ Hing) as Hcounts.
  apply (f_equal (λ m : gmap string nat, m !! c)) in Hcounts.
  cbn [steps] in Hcounts.
  rewrite !lookup_fmap, (init_steps_lookup_None _ _ _ _ _ Hc Hinit) in Hcounts.
  by destruct (steps st !! c).
Qed.

(** X4: ingestion never adds or drops a chromosome or a bin: after it,
    each chromosome of the header still has the
    int(math.ceil(length / float(step))) bins the initialisation loop
    gave it, every bin a grid of the initial dimensions, and no other
    chromosome has a table. *)
Theorem ingest_keeps_tables (a : args) (step : Z) (chromosomes : chrom_table)
    (lines : list (list string)) (steps0 : gmap string (list grid)) (st : acc) :
  NoDup chromosomes.*1 →
  init_steps a step chromosomes = Ok steps0 →
  ingest a step lines (Acc steps0 None None) = Ok st →
  (∀ c len, (c, len) ∈ chromosomes →
     ∃ n bins, ceil_div len step = Ok n
               ∧ steps st !! c = Some bins
               ∧ length bins = Z.to_nat n
               ∧ bins_ok a (normalize a) bins)
  ∧ (∀ c, c ∉ chromosomes.*1 → steps st !! c = None).
Proof.
  intros Hnd Hinit Hing. split.
  - intros c len Hin. by eapply ingest_declared.
  - intros c Hc. by eapply ingest_undeclared.
Qed.

Lemma ingest_keeps_tables_witness :
  (∀ c len, (c, len) ∈ Examples.one_chrom →
     ∃ n bins, ceil_div len 10 = Ok n
               ∧ steps Examples.after_read_at_15 !! c = Some bins
               ∧ length bins = Z.to_nat n
               ∧ bins_ok Examples.args_len5 (normalize Examples.args_len5) bins)
  ∧ (∀ c, c ∉ Examples.one_chrom.*1 → steps Examples.after_read_at_15 !! c = None).
Proof.
  apply (ingest_keeps_tables Examples.args_len5 10 Examples.one_chrom
           [Examples.read_at_15]
           (Examples.initial Examples.args_len5 10 Examples.one_chrom)
           Examples.after_read_at_15).
  - vm_compute. repeat constructor. by intros ?%elem_of_nil.
  - reflexivity.
  - reflexivity.
Defined.

(** ** Reads inside and outside the chromosomes *)

Lemma split_bases_inside (step len s e b k : Z) (n : nat) :
  0 < step → 1 ≤ s → s ≤ e → e ≤ exact_ceil len step * step →
  n = Z.to_nat (exact_ceil len step) →
  (b, k) ∈ split_bases step (exact_bin_index step s) (exact_bin_index step e)
                       s e (e - s + 1) →
  0 ≤ b < Z.of_nat n.
Proof.
  intros Hstep Hs Hse He -> Hin.
  pose proof (exact_bin_index_mono step _ _ Hstep Hse) as Hmono.
  apply elem_of_split_bases in Hin; [|done].
  assert (0 ≤ exact_bin_index step s) as H0.
  { rewrite exact_bin_index_floor by done. apply Z.div_pos; lia. }
  assert (exact_bin_index step e < exact_ceil len step) as HL.
  { rewrite exact_bin_index_floor by done. apply Z.div_lt_upper_bound; lia. }
  lia.
Qed.

Lemma chromosome_fills_its_bins (len step : Z) :
  0 < step → len ≤ exact_ceil len step * step.
Proof.
  intros Hstep. unfold exact_ceil.
  pose proof (Z.mod_pos_bound (- len) step Hstep).
  pose proof (Z.div_mod (- len) step). lia.
Qed.

(** X5: without --normalize, for a positive step and a chromosome
    length below 2^53, a line whose read has positive length, starts at
    position 1 or later and ends below 2^53 within the last bin of its
    chromosome (so at or before the chromosome's end, or past it by less
    than the room left in that bin) is tallied without an exception at
    any point of a run, once its abundance is read. *)
Theorem read_inside_chromosome_is_tallied (a : args) (step : Z)
    (chromosomes : chrom_table) (lines : list (list string))
    (steps0 : gmap string (list grid)) (st : acc)
    (parts : list string) (al : alignment) (len n : Z) :
  normalize a = false → 0 < step < 2 ^ 53 →
  NoDup chromosomes.*1 →
  init_steps a step chromosomes = Ok steps0 →
  ingest a step lines (Acc steps0 None None) = Ok st →
  read_alignment a parts = Ok (Some al) →
  (r_chromosome al, len) ∈ chromosomes →
  Z.abs len < 2 ^ 53 →
  0 < r_length al → 1 ≤ r_start al → r_end al < 2 ^ 53 →
  r_end al ≤ len ∨ r_end al ≤ exact_ceil len step * step →
  bind_na a parts (na st) = Ok (Some n) →
  ∃ st', ingest_line a step parts st = Ok st'.
Proof.
  intros Hnorm Hstep Hnd Hinit Hing Hal Hin Hlenb Hlen Hstart Hendb Hend Hna.
  assert (r_end al ≤ exact_ceil len step * step) as Hend'.
  { pose proof (chromosome_fills_its_bins len step ltac:(lia)). lia. }
  destruct (ingest_declared _ _ _ _ _ _ _ _ Hnd Hin Hinit Hing)
    as (n0 & bins & Hn0 & Hbins & Hnb & Hok).
  rewrite ceil_div_exact in Hn0 by lia. injection Hn0 as <-.
  pose proof (ingest_state_ok _ _ _ _ _ (init_state_ok a step chromosomes _ Hinit) Hing)
    as [Hsteps _].
  rewrite Hnorm in Hok, Hsteps.
  destruct (read_alignment_slot _ _ _ Hal) as [Hli Hx].
  assert (r_start al ≤ r_end al) as Hse by (unfold r_end; lia).
  unfold ingest_line. rewrite Hal. cbn [rbind]. rewrite Hna. cbn [rbind].
  unfold bind_nh. rewrite Hnorm. cbn [rbind].
  unfold tally. rewrite bin_writes_exact by lia. cbn [rbind].
  destruct (tally_writes_bumps a (r_chromosome al) (r_length al - sizemin a) (strand al) n
              (split_bases step (exact_bin_index step (r_start al))
                 (exact_bin_index step (r_end al))
                 (r_start al) (r_end al) (r_length al)) (steps st)
              (foldl (flip bump) (steps st)
                 ((λ w : Z * Z, Write (r_chromosome al) w.1 (r_length al - sizemin a)
                                      (strand al) (w.2 * n))
                    <$> split_bases step (exact_bin_index step (r_start al))
                          (exact_bin_index step (r_end al))
                          (r_start al) (r_end al) (r_length al)))
              Hsteps) as [_ Hbwd].
  rewrite Hbwd; [by eexists|]. split; [|done].
  apply Forall_fmap, Forall_forall. intros [b k] Hw.
  apply path_ok_alt. exists bins. split; [done|]. cbn [w_bin w_len w_strand].
  destruct (get3_bins_ok a false bins b (r_length al - sizemin a) (strand al) Hok)
    as (g & row & v & Hg & Hrow & Hv & _); [|done..|by eauto 10].
  apply (split_bases_inside step len (r_start al) (r_end al) b k); try done; [lia|].
  replace (r_end al - r_start al + 1) with (r_length al) by (unfold r_end; lia).
  done.
Qed.

Lemma read_inside_chromosome_is_tallied_witness :
  ∃ st', ingest_line Examples.args_len5 10 Examples.read_at_15
           Examples.after_read_at_15 = Ok st'.
Proof.
  apply (read_inside_chromosome_is_tallied Examples.args_len5 10 Examples.one_chrom
           [Examples.read_at_15]
           (Examples.initial Examples.args_len5 10 Examples.one_chrom)
           Examples.after_read_at_15 Examples.read_at_15
           (Alignment "chr1" 5 0 15) 100 1).
  - reflexivity.
  - lia.
  - vm_compute. repeat constructor. by intros ?%elem_of_nil.
  - reflexivity.
  - reflexivity.
  - reflexivity.
  - vm_compute. by left.
  - simpl. lia.
  - simpl. lia.
  - simpl. lia.
  - unfold r_end. simpl. lia.
  - left. vm_compute. discriminate.
  - reflexivity.
Defined.

Lemma tally_add_beyond (c : string) (li x : Z) (na : option Z) (nh : option pynum)
    (b k : Z) (steps : gmap string (list grid)) (bins : list grid) :
  steps !! c = Some bins → Z.of_nat (length bins) ≤ b →
  tally_add c li x na nh (b, k) steps = Raise IndexError.
Proof.
  intros Hbins Hb. unfold tally_add. rewrite Hbins. cbn [rbind fst].
  unfold py_getitem at 1, norm_index. by repeat case_decide; try lia.
Qed.

(** X6: without --normalize, for a positive step and a chromosome
    length below 2^53, a line whose read starts at position 1 or later
    and ends, below 2^53, past the last bin of its chromosome ends the
    run with an IndexError. *)
Theorem read_past_last_bin_raises_IndexError (a : args) (step : Z)
    (chromosomes : chrom_table) (lines : list (list string))
    (steps0 : gmap string (list grid)) (st : acc)
    (parts : list string) (al : alignment) (len n : Z) :
  normalize a = false → 0 < step < 2 ^ 53 →
  NoDup chromosomes.*1 →
  init_steps a step chromosomes = Ok steps0 →
  ingest a step lines (Acc steps0 None None) = Ok st →
  read_alignment a parts = Ok (Some al) →
  (r_chromosome al, len) ∈ chromosomes →
  0 ≤ len < 2 ^ 53 → 0 < r_length al → 1 ≤ r_start al → r_end al < 2 ^ 53 →
  exact_ceil len step * step < r_end al →
  bind_na a parts (na st) = Ok (Some n) →
  ingest_line a step parts st = Raise IndexError.
Proof.
  intros Hnorm Hstep Hnd Hinit Hing Hal Hin Hlen0 Hlen Hstart Hendb Hend Hna.
  destruct (ingest_declared _ _ _ _ _ _ _ _ Hnd Hin Hinit Hing)
    as (n0 & bins & Hn0 & Hbins & Hnb & Hok).
  rewrite ceil_div_exact in Hn0 by lia. injection Hn0 as <-.
  pose proof (ingest_state_ok _ _ _ _ _ (init_state_ok a step chromosomes _ Hinit) Hing)
    as [Hsteps _].
  rewrite Hnorm in Hok, Hsteps.
  destruct (read_alignment_slot _ _ _ Hal) as [Hli Hx].
  assert (r_start al ≤ r_end al) as Hse by (unfold r_end; lia).
  unfold ingest_line. rewrite Hal. cbn [rbind]. rewrite Hna. cbn [rbind].
  unfold bind_nh. rewrite Hnorm. cbn [rbind].
  assert (0 ≤ exact_ceil len step) as Hcd.
  { rewrite exact_ceil_floor by lia.
    assert (-1 ≤ (len - 1) / step) by (apply Z.div_le_lower_bound; lia). lia. }
  assert (Z.of_nat (length bins) ≤ exact_bin_index step (r_end al)) as Hbe.
  { rewrite Hnb, Z2Nat.id, exact_bin_index_floor by lia.
    apply Z.div_le_lower_bound; lia. }
  assert (0 ≤ exact_bin_index step (r_start al)) as Hbs.
  { rewrite exact_bin_index_floor by lia. apply Z.div_pos; lia. }
  assert (tally a step al (Some n) (Some (PInt 1)) (steps st) = Raise IndexError)
    as ->; [|done].
  unfold tally. rewrite bin_writes_exact by lia. cbn [rbind]. unfold split_bases.
  generalize dependent (exact_bin_index step (r_end al)). intros be Hbe.
  generalize dependent (exact_bin_index step (r_start al)). intros bs Hbs.
  case_decide as Heq; cbn [for_each].
  - subst bs. by rewrite (tally_add_beyond _ _ _ _ _ _ _ _ _ Hbins Hbe).
  - destruct (decide (bs < Z.of_nat (length bins))) as [Hin_range|Hout].
    + destruct (get3_bins_ok a false bins bs (r_length al - sizemin a) (strand al) Hok)
        as (g & row & v & Hg & Hrow & Hv & _); [lia|done..|].
      rewrite (tally_add_bump_bwd a _ _ _ n (bs, _) _ Hsteps).
      * cbn [rbind].
        erewrite tally_add_beyond; [done| |].
        -- unfold bump. cbn [w_chrom]. rewrite lookup_alter_eq, Hbins. done.
        -- cbn [fmap option_fmap option_map w_bin]. by rewrite length_py_alter.
      * apply path_ok_alt. exists bins. split; [done|]. by eauto 10.
    + by rewrite (tally_add_beyond _ _ _ _ _ _ _ _ _ Hbins) by lia.
Qed.

Lemma read_past_last_bin_raises_IndexError_witness :
  ingest_line Examples.args_len5 10 (Examples.sam_line "r8" "0" "chr1" "98" "5M" [])
    Examples.after_read_at_15
  = Raise IndexError.
Proof.
  apply (read_past_last_bin_raises_IndexError Examples.args_len5 10 Examples.one_chrom
           [Examples.read_at_15]
           (Examples.initial Examples.args_len5 10 Examples.one_chrom)
           Examples.after_read_at_15
           (Examples.sam_line "r8" "0" "chr1" "98" "5M" [])
           (Alignment "chr1" 5 0 98) 100 1).
  - reflexivity.
  - lia.
  - vm_compute. repeat constructor. by intros ?%elem_of_nil.
  - reflexivity.
  - reflexivity.
  - reflexivity.
  - vm_compute. by left.
  - lia.
  - simpl. lia.
  - simpl. lia.
  - unfold r_end. simpl. lia.
  - vm_compute. reflexivity.
  - reflexivity.
Defined.

(** X7: a line that is tallied and names a chromosome the header did not
    declare ends the run: the computation of bin_s and bin_e comes
    first, so the exception is the one it raises if it raises one
    (OverflowError for a position or step beyond the doubles,
    ZeroDivisionError for a step of 0), and the KeyError of the first
    subscript otherwise, in particular whenever step is not 0 and step,
    start and end are below 2^53 in absolute value. *)
Theorem undeclared_chromosome_raises_KeyError (a : args) (step : Z)
    (chromosomes : chrom_table) (lines : list (list string))
    (steps0 : gmap string (list grid)) (st : acc)
    (parts : list string) (al : alignment) (na' : option Z) (nh' : option pynum) :
  init_steps a step chromosomes = Ok steps0 →
  ingest a step lines (Acc steps0 None None) = Ok st →
  read_alignment a parts = Ok (Some al) →
  r_chromosome al ∉ chromosomes.*1 →
  bind_na a parts (na st) = Ok na' →
  bind_nh a parts (nh st) = Ok nh' →
  ingest_line a step parts st
  = rbind (bin_writes step (r_start al) (r_end al) (r_length al))
          (λ _, Raise KeyError)
  ∧ ingest a step (lines ++ [parts]) (Acc steps0 None None)
    = rbind (bin_writes step (r_start al) (r_end al) (r_length al))
            (λ _, Raise KeyError)
  ∧ (step ≠ 0 → Z.abs step < 2 ^ 53 →
     Z.abs (r_start al) < 2 ^ 53 → Z.abs (r_end al) < 2 ^ 53 →
     ingest_line a step parts st = Raise KeyError
     ∧ ingest a step (lines ++ [parts]) (Acc steps0 None None) = Raise KeyError).
Proof.
  intros Hinit Hing Hal Hc Hna Hnh.
  pose proof (ingest_undeclared _ _ _ _ _ _ _ Hc Hinit Hing) as Hnone.
  assert (ingest_line a step parts st
          = rbind (bin_writes step (r_start al) (r_end al) (r_length al))
                  (λ _, Raise KeyError)) as Hline.
  { unfold ingest_line. rewrite Hal. cbn [rbind]. rewrite Hna, Hnh. cbn [rbind].
    unfold tally.
    destruct (bin_writes step (r_start al) (r_end al) (r_length al)) as [ws|e] eqn:Hw;
      cbn [rbind]; [|done].
    destruct (bin_writes_cons _ _ _ _ _ Hw) as (w & ws' & ->).
    cbn [for_each]. unfold tally_add. by rewrite Hnone. }
  assert (ingest a step (lines ++ [parts]) (Acc steps0 None None)
          = rbind (bin_writes step (r_start al) (r_end al) (r_length al))
                  (λ _, Raise KeyError)) as Hfile.
  { unfold ingest in *. rewrite for_each_app, Hing. cbn [rbind for_each].
    rewrite Hline. by destruct (bin_writes _ _ _ _). }
  split; [done|]. split; [done|].
  intros Hs0 Hs Hstart Hend. rewrite Hline, Hfile.
  by rewrite bin_writes_exact.
Qed.

Lemma undeclared_chromosome_raises_KeyError_witness :
  ingest_line Examples.args_len5 10
    (Examples.sam_line "r9" "0" "chrUn" "15" "5M" []) Examples.after_read_at_15
  = rbind (bin_writes 10 15 (r_end (Alignment "chrUn" 5 0 15)) 5) (λ _, Raise KeyError)
  ∧ ingest Examples.args_len5 10
      ([Examples.read_at_15] ++ [Examples.sam_line "r9" "0" "chrUn" "15" "5M" []])
      (Acc (Examples.initial Examples.args_len5 10 Examples.one_chrom) None None)
    = rbind (bin_writes 10 15 (r_end (Alignment "chrUn" 5 0 15)) 5) (λ _, Raise KeyError)
  ∧ (10 ≠ 0 → Z.abs 10 < 2 ^ 53 →
     Z.abs 15 < 2 ^ 53 → Z.abs (r_end (Alignment "chrUn" 5 0 15)) < 2 ^ 53 →
     ingest_line Examples.args_len5 10
       (Examples.sam_line "r9" "0" "chrUn" "15" "5M" []) Examples.after_read_at_15
     = Raise KeyError
     ∧ ingest Examples.args_len5 10
         ([Examples.read_at_15] ++ [Examples.sam_line "r9" "0" "chrUn" "15" "5M" []])
         (Acc (Examples.initial Examples.args_len5 10 Examples.one_chrom) None None)
       = Raise KeyError).
Proof.
  apply (undeclared_chromosome_raises_KeyError Examples.args_len5 10 Examples.one_chrom
           [Examples.read_at_15]
           (Examples.initial Examples.args_len5 10 Examples.one_chrom)
           Examples.after_read_at_15
           (Examples.sam_line "r9" "0" "chrUn" "15" "5M" [])
           (Alignment "chrUn" 5 0 15) (Some 1) (Some (PInt 1))).
  - reflexivity.
  - reflexivity.
  - reflexivity.
  - vm_compute. intros [?|?%elem_of_nil]%elem_of_cons; [discriminate|done].
  - reflexivity.
  - reflexivity.
Defined.

Example undeclared_chromosome_beyond_the_doubles :
  ingest_line Examples.args_len5 10
    (Examples.sam_line "r9" "0" "chrUn"
       "1000000000000000000000000000000000000000000000000000000000000000000000000000000000000000000000000000000000000000000000000000000000000000000000000000000000000000000000000000000000000000000000000000000000000000000000000000000000000000000000000000000000000000000000000000000000000000000000000000000000000000000000000000000000000000000"
       "5M" [])
    Examples.after_read_at_15
  = Raise OverflowError.
Proof. by vm_compute. Qed.

(** ** The bases a bin receives *)




(** Beyond 2^53 a bin may receive bases that lie outside it: at step 1
    the read at 2^53 + 1 .. 2^53 + 5 ends in bin 2^53 + 3, and its first
    bin, 2^53 - 1, is given 0 bases. *)
Example overlap_beyond_the_doubles :
  bin_writes 1 (2 ^ 53 + 1) (2 ^ 53 + 5) 5
  = Ok ((2 ^ 53 - 1, 0) :: (2 ^ 53 + 3, 2)
        :: ((λ b, (2 ^ 53 - 1 + b, 1)) <$> [1; 2; 3])).
Proof. by vm_compute. Qed.

(** ** A negative step *)

Lemma zero_bins_nonpos (a : args) (n : Z) : n ≤ 0 → zero_bins a n = [].
Proof.
  intros Hn. apply length_zero_iff_nil. rewrite length_zero_bins. lia.
Qed.

Lemma ceil_div_negative_step (len step n : Z) :
  0 ≤ len → step < 0 → ceil_div len step = Ok n → n ≤ 0.
Proof. intros Hlen Hstep H. destruct (ceil_div_sign _ _ _ H) as (H1 & _). by apply H1. Qed.

Lemma init_steps_negative_step (a : args) (step : Z) (chromosomes : chrom_table)
    (steps0 : gmap string (list grid)) :
  step < 0 → Forall (λ cl, 0 ≤ cl.2) chromosomes →
  init_steps a step chromosomes = Ok steps0 →
  map_Forall (λ _ bins, bins = []) steps0.
Proof.
  intros Hstep Hcs. unfold init_steps.
  apply (for_each_inv (map_Forall (λ _ (bins : list grid), bins = []))).
  - intros cl s s' Hin Hs (n & Hn & ->)%init_chromosome_Ok.
    apply map_Forall_insert_2; [|done].
    apply zero_bins_nonpos. eapply ceil_div_negative_step; [|done..].
    rewrite Forall_forall in Hcs. by apply Hcs.
  - apply map_Forall_empty.
Qed.

Lemma tally_needs_a_bin (a : args) (step : Z) (al : alignment) (na : option Z)
    (nh : option pynum) (steps steps' : gmap string (list grid)) :
  tally a step al na nh steps = Ok steps' →
  ∃ bins, steps !! r_chromosome al = Some bins ∧ bins ≠ [].
Proof.
  intros (writes & Hw & H)%tally_Ok.
  destruct (bin_writes_cons _ _ _ _ _ Hw) as (w & ws & ->).
  cbn [for_each] in H.
  destruct (tally_add _ _ _ _ _ w steps) as [s1|] eqn:Hadd; [|done].
  destruct (tally_add_Ok _ _ _ _ _ _ _ _ Hadd)
    as (bins & g & _ & _ & _ & _ & _ & _ & Hbins & Hg & _).
  exists bins. split; [done|]. intros ->.
  apply py_getitem_Ok in Hg as (i & _ & Hi). by rewrite lookup_nil in Hi.
Qed.

(** X9: a negative step passes the validation of window and step, but
    then the initialisation loop gives no chromosome a bin, and ingestion
    can only succeed when every line is passed over (header, flag 4,
    length out of range): the first line to be tallied ends the run. *)
Theorem negative_step_tallies_nothing (a : args) (step : Z)
    (chromosomes : chrom_table) (lines : list (list string))
    (steps0 : gmap string (list grid)) (st : acc) :
  step < 0 → Forall (λ cl, 0 ≤ cl.2) chromosomes →
  init_steps a step chromosomes = Ok steps0 →
  ingest a step lines (Acc steps0 None None) = Ok st →
  (∀ window inputs, window ≠ 0 → window mod step = 0 →
     verifyWS window step inputs = Ok (window, step))
  ∧ map_Forall (λ _ bins, bins = []) steps0
  ∧ Forall (λ parts, read_alignment a parts = Ok None) lines
  ∧ st = Acc steps0 None None.
Proof.
  intros Hstep Hcs Hinit0 Hing. split.
  { intros window inputs Hw Hmod. unfold verifyWS.
    assert (ws_invalid window step = false) as ->; [|done].
    apply ws_invalid_false. split_and!; [done|lia|done]. }
  pose proof (init_steps_negative_step a step _ _ Hstep Hcs Hinit0) as Hinit.
  split; [done|].
  cut (∀ st0, map_Forall (λ _ (bins : list grid), bins = []) (steps st0) →
         ingest a step lines st0 = Ok st →
         Forall (λ parts, read_alignment a parts = Ok None) lines ∧ st = st0).
  { intros Hcut. by apply Hcut. }
  clear Hinit Hing. intros st0. unfold ingest.
  induction lines as [|parts lines IH]; intros Hempty H; cbn [for_each] in H.
  - split; [done|]. by simplify_eq.
  - destruct (ingest_line a step parts st0) as [st1|] eqn:Hline; cbn [rbind] in H; [|done].
    destruct (ingest_line_Ok _ _ _ _ _ Hline)
      as [[Hnone ->]|(al & na' & nh' & steps' & _ & _ & _ & Ht & _)].
    + destruct (IH Hempty H) as [Hall ->]. split; [|done]. by constructor.
    + destruct (tally_needs_a_bin _ _ _ _ _ _ _ Ht) as (bins & Hbins & Hne).
      by specialize (Hempty _ _ Hbins).
Qed.

Lemma negative_step_tallies_nothing_witness :
  (∀ window inputs, window ≠ 0 → window mod (-10) = 0 →
     verifyWS window (-10) inputs = Ok (window, -10))
  ∧ map_Forall (λ _ bins, bins = [])
      (Examples.initial Examples.args_len5 (-10) Examples.one_chrom)
  ∧ Forall (λ parts, read_alignment Examples.args_len5 parts = Ok None)
         [Examples.sam_line "r1" "4" "chr1" "15" "5M" []]
  ∧ Examples.start Examples.args_len5 (-10) Examples.one_chrom
    = Acc (Examples.initial Examples.args_len5 (-10) Examples.one_chrom) None None.
Proof.
  apply (negative_step_tallies_nothing Examples.args_len5 (-10) Examples.one_chrom
           [Examples.sam_line "r1" "4" "chr1" "15" "5M" []]
           (Examples.initial Examples.args_len5 (-10) Examples.one_chrom)
           (Examples.start Examples.args_len5 (-10) Examples.one_chrom)).
  - lia.
  - repeat constructor. simpl. lia.
  - reflexivity.
  - reflexivity.
Defined.

(** ** Positions before the first base *)

Lemma norm_index_wrap (n : nat) (i : Z) :
  - Z.of_nat n ≤ i < 0 → norm_index n i = norm_index n (Z.of_nat n + i).
Proof.
  intros Hi. unfold norm_index.
  repeat case_decide; try lia. do 2 f_equal. lia.
Qed.

(** X10: for a positive step, a start position of 0 or below gives a
    negative bin index (-1 for a start within one step below 1 when the
    step is below 2^53), and the write to it is not refused: Python
    counts a negative index from the end, so the bases are added to a bin
    at the far end of the chromosome. *)
Theorem position_before_first_base_wraps (step pos b : Z) (c : string) (li x k : Z)
    (na : option Z) (nh : option pynum) (steps : gmap string (list grid))
    (bins : list grid) :
  0 < step → pos ≤ 0 →
  bin_index step pos = Ok b →
  steps !! c = Some bins →
  - Z.of_nat (length bins) ≤ b →
  b < 0
  ∧ (step < 2 ^ 53 → - step < pos → b = -1)
  ∧ tally_add c li x na nh (b, k) steps
    = tally_add c li x na nh (Z.of_nat (length bins) + b, k) steps.
Proof.
  intros Hstep Hpos Hb Hbins Hlow.
  assert (b < 0) as Hneg.
  { apply bin_index_Ok in Hb.
    destruct (decide (pos = 0)) as [->|Hne].
    - apply ceil_div_zero in Hb. lia.
    - pose proof (ceil_div_sign _ _ _ Hb) as (_ & H & _). specialize (H ltac:(lia) Hstep).
      lia. }
  split; [done|]. split.
  - intros Hs Hnear. rewrite bin_index_exact in Hb by lia. injection Hb as <-.
    rewrite exact_bin_index_floor by done.
    symmetry. apply (Z.div_unique_pos _ _ _ (pos - 1 + step)); lia.
  - unfold tally_add. rewrite Hbins. cbn [rbind fst snd].
    unfold py_getitem at 1 4, py_setitem at 1 4.
    by rewrite (norm_index_wrap (length bins) b) by lia.
Qed.

Lemma position_before_first_base_wraps_witness :
  -1 < 0
  ∧ (10 < 2 ^ 53 → - 10 < 0 → -1 = -1)
  ∧ tally_add "chr1" 0 0 (Some 1) (Some (PInt 1)) (-1, 5)
      (steps Examples.after_read_at_15)
    = tally_add "chr1" 0 0 (Some 1) (Some (PInt 1))
        (Z.of_nat (length Examples.bins_read_at_15) + -1, 5)
        (steps Examples.after_read_at_15).
Proof.
  apply (position_before_first_base_wraps 10 0 (-1) "chr1" 0 0 5 (Some 1) (Some (PInt 1))
           (steps Examples.after_read_at_15) Examples.bins_read_at_15).
  - lia.
  - lia.
  - reflexivity.
  - reflexivity.
  - vm_compute. discriminate.
Defined.

(** Beyond 2^53 a start within one step below 1 may get another index:
    -2^53 is above -(2^53 + 1), and with that step its index is -2. *)
Example position_before_first_base_beyond_the_doubles :
  bin_index (2 ^ 53 + 1) (- 2 ^ 53) = Ok (-2).
Proof. by vm_compute. Qed.

(** ** The tags of the first alignment line *)

Lemma find_tag_is_Some (tag p : string) (parts : list string) :
  p ∈ parts → prefix2 p = tag → is_Some (find_tag tag parts).
Proof.
  intros Hin Hp. unfold find_tag.
  destruct (List.find _ (rev parts)) as [q|] eqn:Hfind; [by eexists|].
  assert (In p (rev parts)) as Hrev.
  { apply in_rev. rewrite rev_involutive. by apply list_elem_of_In. }
  pose proof (find_none _ _ Hfind p Hrev) as Hfalse. cbn beta in Hfalse.
  by rewrite Hp, String.eqb_refl in Hfalse.
Qed.

Lemma optional_tag_found (tag : string) (parts : list string) :
  tag ∈ prefix2 <$> drop 11 parts → is_Some (find_tag tag parts).
Proof.
  intros (p & Hp & Hin)%list_elem_of_fmap.
  apply (find_tag_is_Some tag p); [|done].
  rewrite <- (take_drop 11 parts). apply elem_of_app. by right.
Qed.

(** X11: when the first alignment line passes the check of getChromosomes,
    it has at least eleven fields and the scans of the ingestion loop
    find on it the NH tag under --normalize and the NA tag under
    --abundance, so neither [nh] nor [na] is read unbound on that line. *)
Theorem checked_first_line_has_its_tags (a : args) (parts : list string)
    (na0 : option Z) (nh0 : option pynum) :
  check_first_line a parts = Ok () →
  (11 ≤ length parts)%nat
  ∧ tagged a parts ∧ tagged_nh a parts
  ∧ (∀ v, bind_na a parts na0 = Ok v → is_Some v)
  ∧ (∀ v, bind_nh a parts nh0 = Ok v → is_Some v).
Proof.
  unfold check_first_line. intros H.
  case_decide as Hlen; [done|].
  destruct (normalize a && negb _) eqn:Hnh; [done|].
  destruct (abundance a && negb _) eqn:Hna; [done|].
  assert (tagged a parts) as Hta.
  { intros Hab. rewrite Hab in Hna. simpl in Hna.
    apply negb_false_iff, bool_decide_eq_true in Hna. by apply optional_tag_found. }
  assert (tagged_nh a parts) as Hth.
  { intros Hno. rewrite Hno in Hnh. simpl in Hnh.
    apply negb_false_iff, bool_decide_eq_true in Hnh. by apply optional_tag_found. }
  split_and!; [lia|done..| |].
  - intros v. unfold bind_na. destruct (abundance a) eqn:Hab; [|by intros [= <-]].
    destruct (Hta Hab) as [p ->].
    destruct (py_int _); cbn [rbind]; [by intros [= <-]|done].
  - intros v. unfold bind_nh. destruct (normalize a) eqn:Hno; [|by intros [= <-]].
    destruct (Hth Hno) as [p ->].
    destruct (py_float _); cbn [rbind]; [by intros [= <-]|done].
Qed.

Lemma checked_first_line_has_its_tags_witness :
  (11 ≤ length Examples.read_na5)%nat
  ∧ tagged Examples.args_abundance Examples.read_na5
  ∧ tagged_nh Examples.args_abundance Examples.read_na5
  ∧ (∀ v, bind_na Examples.args_abundance Examples.read_na5 None = Ok v → is_Some v)
  ∧ (∀ v, bind_nh Examples.args_abundance Examples.read_na5 None = Ok v → is_Some v).
Proof.
  apply (checked_first_line_has_its_tags Examples.args_abundance Examples.read_na5).
  reflexivity.
Defined.

(** X12: the scan for a tag goes over every field of the line, the eleven
    mandatory ones included, and takes the last field that starts with
    the two letters: where no later field does, a read name (or any other
    mandatory field) that starts with NA is read as the abundance tag. *)
Theorem tag_scan_reads_mandatory_fields (a : args) (before after : list string)
    (field : string) (na0 : option Z) :
  abundance a = true →
  prefix2 field = "NA" →
  Forall (λ p, prefix2 p ≠ "NA") after →
  bind_na a (before ++ field :: after) na0
  = let* z := py_int (after_last_colon field) in Ok (Some z).
Proof.
  intros Hab Hfield Hafter. unfold bind_na, find_tag. rewrite Hab.
  rewrite rev_app_distr. simpl rev. rewrite <- app_assoc. simpl app.
  assert (∀ l t, Forall (λ p, prefix2 p ≠ "NA") l →
            List.find (λ p, String.eqb (prefix2 p) "NA") (l ++ field :: t) = Some field)
    as Hfind.
  { induction l as [|q l IH]; intros t Hl; simpl.
    - by rewrite Hfield.
    - apply Forall_cons in Hl as [Hq Hl].
      apply String.eqb_neq in Hq. rewrite Hq. by apply IH. }
  rewrite Hfind; [done|].
  apply Forall_forall. intros p Hp.
  apply list_elem_of_In, in_rev, list_elem_of_In in Hp.
  by eapply Forall_forall in Hafter.
Qed.

Lemma tag_scan_reads_mandatory_fields_witness :
  bind_na Examples.args_abundance
    ([] ++ "NA12878:7" :: ["0"; "chr1"; "5"; "255"; "20M"; "*"; "0"; "0"; "*"; "*"])
    None
  = let* z := py_int (after_last_colon "NA12878:7") in Ok (Some z).
Proof.
  apply (tag_scan_reads_mandatory_fields Examples.args_abundance []
           ["0"; "chr1"; "5"; "255"; "20M"; "*"; "0"; "0"; "*"; "*"] "NA12878:7" None).
  - reflexivity.
  - reflexivity.
  - repeat constructor; discriminate.
Defined.

(** ** Lines that are passed over *)

(** X13: header lines, reads with flag 4 and reads whose CIGAR length is
    outside sizemin..sizemax leave the tallies and the variables [na] and
    [nh] as they were, and nothing else of such a line is parsed: a run of
    such lines, whatever their chromosome, position or tags, raises no
    exception. *)
Theorem passed_over_lines_change_nothing (a : args) (step : Z)
    (lines : list (list string)) (st : acc) :
  Forall (λ parts,
            is_header parts = true
            ∨ ∃ flag, (let* p := py_getitem parts 1 in py_int p) = Ok flag
                ∧ (flag = 4
                   ∨ ∃ len, (let* p := py_getitem parts 5 in getLength p) = Ok len
                       ∧ (len < sizemin a ∨ sizemax a < len)))
         lines →
  ingest a step lines st = Ok st.
Proof.
  intros Hlines. unfold ingest. apply for_each_skip.
  intros parts s Hin. eapply Forall_forall in Hlines; [|done].
  unfold ingest_line, read_alignment.
  destruct Hlines as [->|(flag & -> & Hflag)]; [done|].
  destruct (is_header parts); [done|]. cbn [rbind].
  destruct Hflag as [->|(len & -> & Hlen)]; [done|].
  case_decide; [done|]. cbn [rbind].
  rewrite bool_decide_eq_false_2; [done|].
  unfold read_size, py_range2. rewrite elem_of_seqZ. lia.
Qed.

Lemma passed_over_lines_change_nothing_witness :
  ingest Examples.args_len5 10
    [["@SQ"; "SN:chr1"; "LN:100"];
     Examples.sam_line "r1" "4" "*" "x" "*" ["NA:i:y"];
     Examples.sam_line "r2" "0" "chrUn" "x" "20M" []]
    Examples.after_read_at_15
  = Ok Examples.after_read_at_15.
Proof.
  apply (passed_over_lines_change_nothing Examples.args_len5 10).
  apply Forall_cons_2; [|apply Forall_cons_2; [|apply Forall_cons_2; [|apply Forall_nil_2]]].
  - by left.
  - right. exists 4. split; [reflexivity|]. by left.
  - right. exists 0. split; [reflexivity|]. right. exists 20.
    split; [reflexivity|]. right. simpl. lia.
Defined.

(** ** The shape of the table *)

Lemma py_setitem_same_image {A B} (f : A → B) (l : list A) (i : Z) (x y : A) :
  py_getitem l i = Ok x → f y = f x → f <$> py_setitem l i y = f <$> l.
Proof.
  intros (k & Hk & Hx)%py_getitem_Ok Hf. unfold py_setitem. rewrite Hk.
  rewrite list_fmap_insert, Hf. apply list_insert_id. by rewrite list_lookup_fmap, Hx.
Qed.

Lemma window_add_shape (a : args) (steps : gmap string (list grid)) (c : string)
    (w s l x : Z) (win win' : list grid) :
  Forall (λ g : grid, length <$> g = length <$> zero_grid a) win →
  window_add steps c w s l x win = Ok win' →
  Forall (λ g : grid, length <$> g = length <$> zero_grid a) win'.
Proof.
  intros Hwin. unfold window_add.
  destruct (py_getitem win w) as [g|] eqn:Hg; cbn [rbind]; [|done].
  destruct (py_getitem g l) as [row|] eqn:Hrow; cbn [rbind]; [|done].
  destruct (py_getitem row x) as [old|] eqn:Hold; cbn [rbind]; [|done].
  destruct (steps !! c) as [bins|]; cbn [rbind]; [|done].
  destruct (py_getitem bins (w + s)) as [bg|]; cbn [rbind]; [|done].
  destruct (py_getitem bg l) as [brow|]; cbn [rbind]; [|done].
  destruct (py_getitem brow x) as [v|]; cbn [rbind]; [|done].
  destruct (py_add old v) as [new|]; cbn [rbind]; [|done].
  intros [= <-]. apply Forall_py_setitem; [done|].
  rewrite (py_setitem_same_image length g l row); [|done|apply length_py_setitem].
  by apply (py_getitem_Forall _ _ _ _ Hwin Hg).
Qed.

Lemma aggregate_shape (a : args) (window step : Z) (steps : gmap string (list grid))
    (c : string) (wc : Z) (win : list grid) :
  aggregate a window step steps c wc = Ok win →
  Forall (λ g : grid, length <$> g = length <$> zero_grid a) win.
Proof.
  unfold aggregate.
  apply (for_each_inv (λ t, Forall (λ g : grid, length <$> g = length <$> zero_grid a) t));
    [|by apply Forall_fmap, Forall_true].
  intros w t t' _. apply for_each_inv. clear t t'.
  intros s t t' _. apply for_each_inv. clear t t'.
  intros l t t' _. apply for_each_inv. clear t t'.
  intros x t t' _. apply window_add_shape.
Qed.

Lemma length_concat_sum {A} (g : list (list A)) :
  length (concat g) = sum_list (length <$> g).
Proof. induction g as [|r g IH]; simpl; [done|]. by rewrite length_app, IH. Qed.

Lemma zero_grid_cells (a : args) (g : grid) :
  length <$> g = length <$> zero_grid a →
  length (concat g) = Z.to_nat (n_sizes a * n_strands a).
Proof.
  intros Hg. rewrite length_concat_sum, Hg. unfold zero_grid.
  rewrite <- list_fmap_compose.
  rewrite (sum_list_fmap_same (Z.to_nat (n_strands a))).
  - rewrite length_py_range. unfold n_sizes, n_strands.
    destruct (poolstrands a); lia.
  - apply Forall_true. intros z. cbn. by rewrite length_fmap, length_py_range.
Qed.

Lemma rows_of_keys (c : string) (win : list grid) (wc : Z) :
  length win = Z.to_nat wc →
  (λ r : out_row, r.1) <$> rows_of c win = (λ w, (c, w)) <$> py_range wc.
Proof.
  intros Hlen. unfold rows_of, py_range, seqZ.
  rewrite fmap_imap, <- list_fmap_compose, <- Hlen, <- imap_seq_0.
  apply imap_ext. intros i g _. cbn. by rewrite Z.add_0_r.
Qed.

Lemma aggregate_loop_rows (a : args) (window step : Z)
    (steps : gmap string (list grid)) (wc : Z) (cs : list string)
    (rows : list out_row) (e : option pyerr) :
  aggregate_loop a window step steps wc cs = (rows, e) →
  Forall (λ r : out_row, length r.2 = Z.to_nat (n_sizes a * n_strands a)) rows
  ∧ (e = None →
     (λ r : out_row, r.1) <$> rows = cs ≫= (λ c, (λ w, (c, w)) <$> py_range wc)).
Proof.
  revert rows e. induction cs as [|c cs IH]; intros rows e; cbn [aggregate_loop].
  - intros [= <- <-]. by split.
  - destruct (aggregate a window step steps c wc) as [win|] eqn:Hagg;
      [|intros [= <- <-]; by split].
    destruct (aggregate_loop a window step steps wc cs) as [rows' e'].
    intros [= <- <-]. destruct (IH _ _ eq_refl) as [Hall Hkeys].
    split.
    + apply Forall_app. split; [|done].
      unfold rows_of. apply Forall_forall. intros r (i & g & -> & Hg)%elem_of_lookup_imap.
      cbn. apply zero_grid_cells.
      pose proof (aggregate_shape _ _ _ _ _ _ _ Hagg) as Hshape.
      eapply Forall_forall in Hshape; [done|]. by eapply list_elem_of_lookup_2.
    + intros ->. rewrite fmap_app, (Hkeys eq_refl), bind_cons. f_equal.
      apply rows_of_keys. by eapply aggregate_length.
Qed.

(** X14: the rows of a run that ends without an exception list the
    chromosomes in keys() order, each with the window indices 0 to
    window_count - 1 in order, and every row carries one value per read
    length and strand, len(read_size) * strand of them. *)
Theorem run_writes_a_full_table (a : args) (chromosomes : chrom_table)
    (inputs : list string) (lines : list (list string)) (rows : list out_row) :
  run a chromosomes inputs lines = (rows, None) →
  ∃ window step wc,
    verifyWS (arg_window a) (arg_step a) inputs = Ok (window, step)
    ∧ window_count chromosomes window step = Ok wc
    ∧ (λ r : out_row, r.1) <$> rows
      = chromosomes.*1 ≫= (λ c, (λ w, (c, w)) <$> py_range wc)
    ∧ Forall (λ r : out_row, length r.2 = Z.to_nat (n_sizes a * n_strands a)) rows.
Proof.
  unfold run. intros H.
  destruct (header_checks a chromosomes lines); [|done].
  destruct (verifyWS _ _ inputs) as [[window step]|] eqn:Hws; [|done].
  destruct (init_steps a step chromosomes) as [steps0|]; [|done].
  destruct (ingest a step lines _) as [st|]; [|done].
  destruct (window_count chromosomes window step) as [wc|] eqn:Hwc; [|done].
  destruct (aggregate_loop_rows _ _ _ _ _ _ _ _ H) as [Hall Hkeys].
  exists window, step, wc.
  split; [done|]. split; [done|]. split; [by apply Hkeys|done].
Qed.

Lemma run_writes_a_full_table_witness :
  ∃ window step wc,
    verifyWS (arg_window Examples.args_len5) (arg_step Examples.args_len5) []
    = Ok (window, step)
    ∧ window_count Examples.one_chrom window step = Ok wc
    ∧ (λ r : out_row, r.1) <$> (run Examples.args_len5 Examples.one_chrom []
                                   [Examples.read_at_15]).1
      = Examples.one_chrom.*1 ≫= (λ c, (λ w, (c, w)) <$> py_range wc)
    ∧ Forall (λ r : out_row,
                length r.2
                = Z.to_nat (n_sizes Examples.args_len5 * n_strands Examples.args_len5))
             (run Examples.args_len5 Examples.one_chrom [] [Examples.read_at_15]).1.
Proof.
  apply (run_writes_a_full_table Examples.args_len5 Examples.one_chrom []
           [Examples.read_at_15]).
  reflexivity.
Defined.

(** ** The header line *)

Lemma count_tabs_app (s t : string) :
  count_tabs (s ++ t) = (count_tabs s + count_tabs t)%nat.
Proof.
  induction s as [|c s IH]; [done|].
  change (String c s ++ t)%string with (String c (s ++ t)). cbn [count_tabs].
  rewrite IH. by destruct (Ascii.eqb c "009").
Qed.

Lemma count_tabs_uint (d : Decimal.uint) :
  count_tabs (DecimalString.NilEmpty.string_of_uint d) = O.
Proof. induction d; simpl; done. Qed.

Lemma count_tabs_py_str (z : Z) : count_tabs (py_str z) = O.
Proof.
  unfold py_str, DecimalString.NilZero.string_of_int,
    DecimalString.NilZero.string_of_uint.
  destruct (Z.to_int z) as [d|d]; destruct d; try done;
    cbn [count_tabs Ascii.eqb Bool.eqb]; apply count_tabs_uint.
Qed.

(** X15: the header line has a tab in front of every column but the
    first, and its columns are Chromosome, Window and one per read length
    and strand: as many as a row has fields. *)
Theorem header_has_a_column_per_slot (a : args) :
  count_tabs (header_line a) = S (Z.to_nat (n_sizes a * n_strands a)).
Proof.
  unfold header_line, n_sizes, n_strands, read_size.
  generalize (py_range2 (sizemin a) (sizemax a + 1)). intros l.
  assert (∀ h : string,
            count_tabs
              (foldl (λ header d,
                        if poolstrands a then (header ++ tab ++ py_str d)%string
                        else (header ++ tab ++ py_str d ++ "W" ++ tab
                                     ++ py_str d ++ "C")%string) h l)
            = (count_tabs h + length l * (if poolstrands a then 1 else 2))%nat) as Hloop.
  { induction l as [|d l IH]; intros h; cbn [foldl length]; [lia|].
    rewrite IH. destruct (poolstrands a);
      rewrite !count_tabs_app, ?count_tabs_py_str; cbn [count_tabs tab]; simpl; lia. }
  rewrite Hloop, !count_tabs_app. cbn. destruct (poolstrands a); lia.
Qed.

(** ** read_chunk *)

Section Chunks.
Local Open Scope list_scope.

Lemma last_app_nonempty {A} (l l' : list A) (d : A) :
  l' ≠ [] → List.last (l ++ l') d = List.last l' d.
Proof.
  intros Hne. induction l as [|x l IH]; [done|].
  cbn [app List.last]. rewrite IH. destruct (l ++ l') eqn:Happ; [|done].
  by apply app_eq_nil in Happ as [_ ->].
Qed.

Lemma split_nl_nonempty (s : list ascii) : split_nl s ≠ [].
Proof.
  destruct s as [|c s]; simpl; [done|].
  destruct (is_newline c); [done|]. by destruct (split_nl s).
Qed.

(** Splitting a text that is read in two parts: the pieces of the first
    part but the last, then the pieces of the rest put after that last
    piece. *)
Lemma split_nl_app (s t : list ascii) :
  split_nl (s ++ t)
  = removelast (split_nl s) ++ split_nl (List.last (split_nl s) [] ++ t).
Proof.
  induction s as [|c s IH]; [done|].
  pose proof (split_nl_nonempty s) as Hne.
  cbn [app split_nl]. rewrite IH. destruct (is_newline c) eqn:Hc.
  - destruct (split_nl s) as [|l ls] eqn:Hs; [done|]. done.
  - destruct (split_nl s) as [|l [|l' ls]] eqn:Hs; [done| |done].
    cbn. by rewrite Hc.
Qed.

Lemma split_nl_snoc_newline (s : list ascii) (c : ascii) :
  is_newline c = true → split_nl (s ++ [c]) = split_nl s ++ [[]].
Proof.
  intros Hc. induction s as [|d s IH]; cbn [app split_nl]; [by rewrite Hc|].
  rewrite IH. destruct (is_newline d); [done|].
  pose proof (split_nl_nonempty s). by destruct (split_nl s).
Qed.

Lemma split_nl_snoc_other (s : list ascii) (c : ascii) :
  is_newline c = false → List.last (split_nl (s ++ [c])) [] ≠ [].
Proof.
  intros Hc. rewrite split_nl_app. cbn [split_nl].
  pose proof (split_nl_nonempty (List.last (split_nl s) [] ++ [c])) as Hne.
  rewrite last_app_nonempty by done. clear Hne.
  induction (List.last (split_nl s) []) as [|d l IH]; cbn [app split_nl].
  - by rewrite Hc.
  - pose proof (split_nl_nonempty (l ++ [c])) as Hne.
    destruct (is_newline d).
    + destruct (split_nl (l ++ [c])) as [|p ps]; [done|]. exact IH.
    + destruct (split_nl (l ++ [c])) as [|p [|p' ps]]; [done|done|exact IH].
Qed.

(** The pieces, each with its newline put back, are the text and one
    more newline; no piece holds a newline. *)
Lemma split_nl_join (s : list ascii) :
  concat ((λ l, l ++ ["010"%char]) <$> split_nl s) = s ++ ["010"%char].
Proof.
  induction s as [|c s IH]; [done|]. cbn [split_nl app].
  destruct (is_newline c) eqn:Hc.
  - apply Ascii.eqb_eq in Hc as ->. cbn. by rewrite IH.
  - destruct (split_nl s) as [|l ls]; cbn in *; [by destruct s|]. by rewrite IH.
Qed.

Lemma split_nl_pieces (s : list ascii) :
  Forall (λ l, Forall (λ c, is_newline c = false) l) (split_nl s).
Proof.
  induction s as [|c s IH]; cbn [split_nl]; [by repeat constructor|].
  destruct (is_newline c) eqn:Hc; [by constructor|].
  destruct (split_nl s) as [|l ls]; cbn; [by repeat constructor|].
  apply Forall_cons in IH as [Hl Hls]. by repeat constructor.
Qed.

Lemma split_nl_one_piece (l : list ascii) :
  Forall (λ c, is_newline c = false) l → split_nl l = [l].
Proof.
  induction l as [|c l IH]; [done|]. intros [Hc Hl]%Forall_cons.
  cbn [split_nl]. by rewrite Hc, (IH Hl).
Qed.

Lemma split_nl_last_piece (s : list ascii) :
  split_nl (List.last (split_nl s) []) = [List.last (split_nl s) []].
Proof.
  apply split_nl_one_piece.
  pose proof (split_nl_pieces s) as Hall.
  induction (split_nl s) as [|l ls IH]; [done|].
  apply Forall_cons in Hall as [Hl Hls]. destruct ls; [done|]. by apply IH.
Qed.

Lemma file_read_app (n : Z) (rest more rest' : list ascii) :
  file_read n rest = (more, rest') → more ++ rest' = rest.
Proof.
  unfold file_read. case_decide; intros [= <- <-]; [apply app_nil_r|apply take_drop].
Qed.

Lemma file_read_empty (n : Z) (rest more rest' : list ascii) :
  n ≠ 0 → file_read n rest = (more, rest') → more = [] → rest = [].
Proof.
  unfold file_read. intros Hn. case_decide; intros [= <- <-]; [done|].
  destruct rest as [|c rest]; [done|].
  destruct (Z.to_nat n) as [|k] eqn:Hk; [lia|done].
Qed.

Lemma file_read_shorter (n : Z) (rest more rest' : list ascii) :
  n ≠ 0 → file_read n rest = (more, rest') → rest ≠ [] →
  (length rest' < length rest)%nat.
Proof.
  unfold file_read. intros Hn. case_decide; intros [= <- <-] Hne.
  - destruct rest; [done|simpl; lia].
  - rewrite length_drop. destruct rest; [done|]. simpl. lia.
Qed.

(** The loop on a text that is empty or ends with a newline: it ends and
    has yielded every piece but the empty one after the last newline. *)
Lemma read_chunk_loop_ends (n : Z) (fuel : nat) (chunk rest : list ascii) :
  n ≠ 0 → (chunk = [] → rest = []) →
  List.last (split_nl (chunk ++ rest)) [] = [] →
  (length rest + 2 ≤ fuel)%nat →
  read_chunk_loop fuel n chunk rest = Some (removelast (split_nl (chunk ++ rest))).
Proof.
  intros Hn. revert chunk rest.
  induction fuel as [|fuel IH]; intros chunk rest Hinv Hlast Hfuel; [lia|].
  cbn [read_chunk_loop].
  destruct chunk as [|c chunk]; [by rewrite Hinv|].
  destruct (file_read n rest) as [more rest'] eqn:Hread.
  pose proof (file_read_app _ _ _ _ Hread) as Happ.
  rewrite split_nl_app in Hlast |- *.
  pose proof (split_nl_nonempty (List.last (split_nl (c :: chunk)) [] ++ rest)) as Hne.
  rewrite last_app_nonempty in Hlast by done. rewrite removelast_app by done.
  destruct rest as [|r rest].
  - apply app_eq_nil in Happ as [-> ->]. rewrite app_nil_r in *.
    rewrite split_nl_last_piece in Hlast |- *. cbn [List.last] in Hlast.
    rewrite Hlast. destruct fuel as [|fuel]; [simpl in Hfuel; lia|]. done.
  - rewrite IH.
    + cbn [mbind option_bind]. by rewrite <- app_assoc, Happ.
    + intros [_ ->]%app_eq_nil.
      by pose proof (file_read_empty _ _ _ _ Hn Hread eq_refl).
    + by rewrite <- app_assoc, Happ.
    + pose proof (file_read_shorter _ _ _ _ Hn Hread ltac:(done)). lia.
Qed.

(** The loop on a text with something after its last newline: no number
    of passes ends it. *)
Lemma read_chunk_loop_spins (n : Z) (fuel : nat) (chunk rest : list ascii) :
  n ≠ 0 → (chunk = [] → rest = []) →
  List.last (split_nl (chunk ++ rest)) [] ≠ [] →
  read_chunk_loop fuel n chunk rest = None.
Proof.
  intros Hn. revert chunk rest.
  induction fuel as [|fuel IH]; intros chunk rest Hinv Hlast; [done|].
  cbn [read_chunk_loop].
  destruct chunk as [|c chunk]; [by rewrite Hinv in Hlast|].
  destruct (file_read n rest) as [more rest'] eqn:Hread.
  pose proof (file_read_app _ _ _ _ Hread) as Happ.
  rewrite split_nl_app in Hlast.
  pose proof (split_nl_nonempty (List.last (split_nl (c :: chunk)) [] ++ rest)) as Hne.
  rewrite last_app_nonempty in Hlast by done.
  rewrite IH; [done| |by rewrite <- app_assoc, Happ].
  intros [_ ->]%app_eq_nil. rewrite (file_read_empty _ _ _ _ Hn Hread eq_refl) in Happ.
  by apply app_eq_nil in Happ as [_ ->].
Qed.

Lemma read_chunk_start (n : Z) (file chunk rest : list ascii) :
  n ≠ 0 → file_read n file = (chunk, rest) →
  chunk ++ rest = file ∧ (chunk = [] → rest = []) ∧ (length rest ≤ length file)%nat.
Proof.
  intros Hn Hread. pose proof (file_read_app _ _ _ _ Hread) as Happ.
  split; [done|]. split.
  - intros ->. rewrite (file_read_empty _ _ _ _ Hn Hread eq_refl) in Happ.
    by apply app_eq_nil in Happ as [_ ->].
  - rewrite <- Happ, length_app. lia.
Qed.

End Chunks.

(** X16: on a file whose last character is a newline, read_chunk ends for
    every chunk size but 0 and yields the lines of the file in order:
    pieces without a newline which, each followed by a newline, make up
    the file.  On an empty file it ends and yields nothing. *)
Theorem read_chunk_yields_the_lines (chunk_size : Z) (text : list ascii) (fuel : nat) :
  chunk_size ≠ 0 →
  (length text + 3 ≤ fuel)%nat →
  read_chunk fuel chunk_size (text ++ ["010"%char])%list = Some (split_nl text)
  ∧ concat ((λ l, l ++ ["010"%char])%list <$> split_nl text) = (text ++ ["010"%char])%list
  ∧ Forall (λ l, Forall (λ c, is_newline c = false) l) (split_nl text)
  ∧ read_chunk fuel chunk_size [] = Some [].
Proof.
  intros Hn Hfuel. split_and!.
  - unfold read_chunk.
    destruct (file_read chunk_size (text ++ ["010"%char])%list) as [chunk rest] eqn:Hread.
    destruct (read_chunk_start _ _ _ _ Hn Hread) as (Happ & Hinv & Hlen).
    rewrite length_app in Hlen. simpl in Hlen.
    rewrite read_chunk_loop_ends; [|done|done| |lia].
    + rewrite Happ, split_nl_snoc_newline by done. by rewrite removelast_last.
    + rewrite Happ, split_nl_snoc_newline by done. by rewrite last_last.
  - apply split_nl_join.
  - apply split_nl_pieces.
  - unfold read_chunk, file_read. rewrite take_nil, drop_nil.
    destruct fuel; [lia|]. by case_decide.
Qed.

Lemma read_chunk_yields_the_lines_witness :
  read_chunk 9 4 (list_ascii_of_string "ab" ++ ["010"%char])%list
  = Some (split_nl (list_ascii_of_string "ab"))
  ∧ concat ((λ l, l ++ ["010"%char])%list <$> split_nl (list_ascii_of_string "ab"))
    = (list_ascii_of_string "ab" ++ ["010"%char])%list
  ∧ Forall (λ l, Forall (λ c, is_newline c = false) l)
           (split_nl (list_ascii_of_string "ab"))
  ∧ read_chunk 9 4 [] = Some [].
Proof.
  apply (read_chunk_yields_the_lines 4 (list_ascii_of_string "ab") 9).
  - lia.
  - simpl. lia.
Defined.

(** X17: on a file whose last character is not a newline, the loop of
    read_chunk never ends, for any chunk size but 0: the text after the
    last newline stays in [chunk], which is never empty. *)
Theorem read_chunk_spins_on_unterminated_line (chunk_size : Z) (text : list ascii)
    (c : ascii) (fuel : nat) :
  chunk_size ≠ 0 → is_newline c = false →
  read_chunk fuel chunk_size (text ++ [c])%list = None.
Proof.
  intros Hn Hc. unfold read_chunk.
  destruct (file_read chunk_size (text ++ [c])%list) as [chunk rest] eqn:Hread.
  destruct (read_chunk_start _ _ _ _ Hn Hread) as (Happ & Hinv & _).
  apply read_chunk_loop_spins; [done..|].
  rewrite Happ. by apply split_nl_snoc_other.
Qed.

Lemma read_chunk_spins_on_unterminated_line_witness :
  read_chunk 50 4 (list_ascii_of_string "ab" ++ ["c"%char])%list = None.
Proof.
  apply (read_chunk_spins_on_unterminated_line 4 (list_ascii_of_string "ab") "c" 50).
  - lia.
  - reflexivity.
Defined.

(** ** The text after the last colon *)

Lemma after_last_colon_none (x : string) :
  existsb (Ascii.eqb ":") (list_ascii_of_string x) = false →
  after_last_colon x = x.
Proof.
  destruct x as [|c x]; [done|]. cbn [list_ascii_of_string existsb after_last_colon].
  intros [Hc ->]%orb_false_elim. by rewrite Ascii.eqb_sym, Hc.
Qed.

Lemma after_last_colon_app (pre x : string) :
  existsb (Ascii.eqb ":") (list_ascii_of_string x) = false →
  after_last_colon (pre ++ String ":" x) = x.
Proof.
  intros Hx. induction pre as [|c pre IH].
  - change ("" ++ String ":" x)%string with (String ":" x).
    cbn [after_last_colon]. by rewrite Hx.
  - change (String c pre ++ String ":" x)%string with (String c (pre ++ String ":" x)).
    cbn [after_last_colon]. rewrite list_ascii_of_string_app, existsb_app.
    cbn [list_ascii_of_string existsb]. rewrite Ascii.eqb_refl.
    by rewrite orb_true_r.
Qed.

Lemma all_digits_no_colon (ds : string) :
  all_digits ds → existsb (Ascii.eqb ":") (list_ascii_of_string ds) = false.
Proof.
  induction ds as [|c ds IH]; [done|]. intros [Hc Hds]%all_digits_cons.
  cbn [list_ascii_of_string existsb]. rewrite (IH Hds), orb_false_r.
  destruct c as [[] [] [] [] [] [] [] []]; try discriminate Hc; reflexivity.
Qed.

(** X18: getInput returns, stripped, what follows the last colon of the
    message, and the whole message when it has no colon. *)
Theorem getInput_is_text_after_last_colon (pre x : string) :
  existsb (Ascii.eqb ":") (list_ascii_of_string x) = false →
  getInput (pre ++ String ":" x) = strip x ∧ getInput x = strip x.
Proof.
  intros Hx. unfold getInput.
  by rewrite (after_last_colon_app _ _ Hx), (after_last_colon_none _ Hx).
Qed.

Lemma getInput_is_text_after_last_colon_witness :
  getInput ("invalid literal for int() with base 10" ++ String ":" " 'abc'")
  = strip " 'abc'"
  ∧ getInput " 'abc'" = strip " 'abc'".
Proof.
  apply (getInput_is_text_after_last_colon
           "invalid literal for int() with base 10" " 'abc'").
  reflexivity.
Defined.

(** X19: under --abundance the abundance of a line is the number written
    after the last colon of its last NA field, whatever stands between
    the tag name and that colon: NA:i:7 and NA:Z:x:7 both give 7. *)
Theorem abundance_is_number_after_last_colon (a : args) (parts : list string)
    (pre ds : string) (na0 : option Z) :
  abundance a = true →
  find_tag "NA" parts = Some (pre ++ String ":" ds)%string →
  all_digits ds → ds ≠ EmptyString →
  ∃ z, digits_val 0 ds = Some z ∧ 0 ≤ z ∧ bind_na a parts na0 = Ok (Some z).
Proof.
  intros Hab Hfind Hds Hne.
  destruct (py_int_all_digits ds Hds Hne) as (z & Hz & Hpos & Hint).
  exists z. split_and!; [done..|].
  unfold bind_na. rewrite Hab, Hfind.
  rewrite (after_last_colon_app _ _ (all_digits_no_colon _ Hds)), Hint. done.
Qed.

Lemma abundance_is_number_after_last_colon_witness :
  ∃ z, digits_val 0 "5" = Some z ∧ 0 ≤ z
       ∧ bind_na Examples.args_abundance Examples.read_na5 None = Ok (Some z).
Proof.
  apply (abundance_is_number_after_last_colon Examples.args_abundance
           Examples.read_na5 "NA:i" "5" None).
  - reflexivity.
  - reflexivity.
  - unfold all_digits. simpl. repeat constructor.
  - discriminate.
Defined.

(** ** getChromosomes *)

Lemma is_header_first_char (c : ascii) (s : string) (ps : list string) :
  is_header (String c s :: ps) = Ascii.eqb c "@".
Proof. destruct c as [[] [] [] [] [] [] [] []]; reflexivity. Qed.

Lemma not_header_not_SQ (parts : list string) :
  is_header parts = false → String.eqb (prefix3 (hd EmptyString parts)) "@SQ" = false.
Proof.
  destruct parts as [|[|c s] ps]; [done..|].
  rewrite is_header_first_char. intros Hc. cbn. by rewrite Hc.
Qed.

Lemma rstrip_cons (c : ascii) (s : string) :
  is_space c = false → rstrip (String c s) = String c (rstrip s).
Proof. intros Hc. cbn [rstrip]. rewrite Hc. by destruct (rstrip s). Qed.

Lemma from3_strip_tagged (c1 c2 c3 : ascii) (s : string) :
  is_space c1 = false → is_space c2 = false → is_space c3 = false →
  from3 (strip (String c1 (String c2 (String c3 s)))) = rstrip s.
Proof.
  intros H1 H2 H3. unfold strip. cbn [lstrip]. rewrite H1.
  by rewrite !rstrip_cons.
Qed.

Lemma read_sq_fields (name len : string) (c : gmap string Z) :
  all_digits len → len ≠ EmptyString →
  read_sq (sq_fields name len) c
  = Ok (<[rstrip name := default 0 (digits_val 0 len)]> c).
Proof.
  intros Hlen Hne. unfold read_sq, sq_fields.
  change (py_getitem _ 2) with (Ok (A := string) (String "L" (String "N" (String ":" len)))).
  change (py_getitem _ 1) with (Ok (A := string) (String "S" (String "N" (String ":" name)))).
  cbn [rbind]. rewrite !from3_strip_tagged by done.
  rewrite (rstrip_all_digits _ Hlen).
  destruct (py_int_all_digits len Hlen Hne) as (z & -> & _ & ->). done.
Qed.

Lemma getChromosomes_other_headers (a : args) (others rest : list (list string))
    (c : gmap string Z) :
  Forall (λ parts, is_header parts = true ∧ prefix3 (hd EmptyString parts) ≠ "@SQ")
         others →
  getChromosomes a (others ++ rest) c = getChromosomes a rest c.
Proof.
  induction others as [|parts others IH]; [done|].
  intros [[Hh Hsq] Hothers]%Forall_cons. cbn [app getChromosomes].
  apply String.eqb_neq in Hsq. rewrite Hsq, Hh. cbn [rbind]. by apply IH.
Qed.

Lemma getChromosomes_SQ_lines (a : args) (table : list (string * string))
    (rest : list (list string)) (c : gmap string Z) :
  Forall (λ nd : string * string, all_digits nd.2 ∧ nd.2 ≠ EmptyString) table →
  getChromosomes a (((λ nd, sq_fields nd.1 nd.2) <$> table) ++ rest) c
  = getChromosomes a rest
      (foldl (λ c nd, <[rstrip nd.1 := default 0 (digits_val 0 nd.2)]> c) c table).
Proof.
  revert c. induction table as [|[name len] table IH]; intros c; [done|].
  intros [[Hlen Hne] Htable]%Forall_cons.
  cbn [fmap list_fmap app getChromosomes foldl fst snd].
  change (prefix3 (hd EmptyString (sq_fields name len)) =? "@SQ")%string with true.
  change (is_header (sq_fields name len)) with true.
  rewrite (read_sq_fields _ _ _ Hlen Hne). cbn [rbind]. by apply IH.
Qed.

Lemma read_dictionary_nonempty (table : list (string * string)) (c : gmap string Z) :
  c ≠ ∅ ∨ table ≠ [] →
  foldl (λ c nd, <[rstrip nd.1 := default 0 (digits_val 0 nd.2)]> c) c table ≠ ∅.
Proof.
  revert c. induction table as [|nd table IH]; intros c [Hc|Ht]; try done.
  - cbn [foldl]. apply IH. left. apply insert_non_empty.
  - cbn [foldl]. apply IH. left. apply insert_non_empty.
Qed.

(** X20: on a header whose @SQ lines carry SN: and LN: in that order,
    with other header lines before and after them, [getChromosomes]
    returns the dictionary that maps each name to its length, a later
    line replacing an earlier one of the same name; it stops at the
    first alignment line, so nothing after that line is read. *)
Theorem getChromosomes_reads_SQ_lines (a : args) (before after : list (list string))
    (table : list (string * string)) (first : list string)
    (rest : list (list string)) :
  Forall (λ parts, is_header parts = true ∧ prefix3 (hd EmptyString parts) ≠ "@SQ")
         (before ++ after) →
  Forall (λ nd : string * string, all_digits nd.2 ∧ nd.2 ≠ EmptyString) table →
  table ≠ [] →
  is_header first = false →
  check_first_line a first = Ok () →
  getChromosomes a
    (before ++ ((λ nd, sq_fields nd.1 nd.2) <$> table) ++ after ++ first :: rest) ∅
  = Ok (foldl (λ c nd, <[rstrip nd.1 := default 0 (digits_val 0 nd.2)]> c) ∅ table).
Proof.
  intros [Hbefore Hafter]%Forall_app Htable Hne Hfirst Hcheck.
  rewrite (getChromosomes_other_headers _ _ _ _ Hbefore).
  rewrite (getChromosomes_SQ_lines _ _ _ _ Htable).
  rewrite (getChromosomes_other_headers _ _ _ _ Hafter).
  cbn [getChromosomes]. rewrite (not_header_not_SQ _ Hfirst), Hfirst. cbn [rbind].
  case_decide as Hempty.
  - by apply read_dictionary_nonempty in Hempty; [|right].
  - by rewrite Hcheck.
Qed.

Lemma getChromosomes_reads_SQ_lines_witness :
  getChromosomes Examples.args_len5
    ([["@HD"; "VN:1.0"]]
       ++ ((λ nd, sq_fields nd.1 nd.2) <$> [("chr1", "100"); ("chr2", "50")])
       ++ [["@PG"; "ID:x"]] ++ Examples.read_at_15 :: [sq_fields "chr3" "7"]) ∅
  = Ok (foldl (λ c nd, <[rstrip nd.1 := default 0 (digits_val 0 nd.2)]> c) ∅
              [("chr1", "100"); ("chr2", "50")]).
Proof.
  apply (getChromosomes_reads_SQ_lines Examples.args_len5 [["@HD"; "VN:1.0"]]
           [["@PG"; "ID:x"]] [("chr1", "100"); ("chr2", "50")] Examples.read_at_15
           [sq_fields "chr3" "7"]).
  - repeat constructor; discriminate.
  - unfold all_digits. simpl. repeat constructor; discriminate.
  - discriminate.
  - reflexivity.
  - reflexivity.
Defined.

(** X21: when [getChromosomes] returns a dictionary, the first alignment
    line of the file has passed its checks, for every listing of the
    dictionary's items: the run does not stop for a missing column or
    tag on that line. *)
Theorem getChromosomes_checks_first_line (a : args) (lines : list (list string))
    (c0 c : gmap string Z) (chromosomes : chrom_table) :
  getChromosomes a lines c0 = Ok c →
  list_to_map chromosomes = c →
  header_checks a chromosomes lines = Ok ().
Proof.
  intros Hget Hc. unfold header_checks.
  revert c0 Hget. induction lines as [|parts lines IH]; intros c0 Hget; [done|].
  cbn [getChromosomes] in Hget. cbn [List.find].
  destruct (if (prefix3 (hd EmptyString parts) =? "@SQ")%string
            then read_sq parts c0 else Ok c0) as [c'|]; cbn [rbind] in Hget; [|done].
  destruct (is_header parts); cbn [negb]; [by eapply IH|].
  case_decide as Hempty; [done|].
  destruct (check_first_line a parts) as [[]|]; cbn [rbind] in Hget; [|done].
  injection Hget as ->. case_decide as Hnil; [|done].
  subst chromosomes. by rewrite list_to_map_nil in Hc.
Qed.

Lemma getChromosomes_checks_first_line_witness :
  header_checks Examples.args_len5 Examples.one_chrom
    [sq_fields "chr1" "100"; Examples.read_at_15] = Ok ().
Proof.
  apply (getChromosomes_checks_first_line Examples.args_len5
           [sq_fields "chr1" "100"; Examples.read_at_15] ∅
           (list_to_map Examples.one_chrom) Examples.one_chrom).
  - reflexivity.
  - reflexivity.
Defined.

(** ** The two branches of window_feature.py *)

Lemma read_bam_alignment_mapped (a : args) (parts : list string) (flag : Z) :
  is_header parts = false →
  (let* p := py_getitem parts 1 in py_int p) = Ok flag →
  read_alignment a parts
  = if decide (flag = 4) then Ok None else read_bam_alignment a parts.
Proof.
  intros Hh Hflag. unfold read_alignment, read_bam_alignment.
  rewrite Hh, Hflag. cbn [rbind]. case_decide; [done|].
  destruct (let* p := py_getitem parts 5 in getLength p) as [len|]; cbn [rbind]; [|done].
  destruct (bool_decide (len ∈ read_size a)); [|done].
  destruct (py_getitem parts 2) as [c|]; cbn [rbind]; [|done].
  by destruct (poolstrands a).
Qed.

(** X22: on lines that are no header lines and carry an int other than 4
    as flag, the BAM branch of window_feature.py tallies exactly what the
    SAM branch tallies, exception for exception: what the SAM branch
    adds is only its test for header lines and flag 4. *)
Theorem bam_branch_agrees_on_mapped_reads (a : args) (step : Z)
    (lines : list (list string)) (st : acc) :
  Forall (λ parts,
            is_header parts = false
            ∧ ∃ flag, (let* p := py_getitem parts 1 in py_int p) = Ok flag ∧ flag ≠ 4)
         lines →
  ingest_bam a step lines st = ingest a step lines st.
Proof.
  intros Hlines. unfold ingest_bam, ingest. apply for_each_ext.
  intros parts s Hin. eapply Forall_forall in Hlines as (Hh & flag & Hflag & Hne); [|done].
  unfold ingest_bam_line, ingest_line.
  rewrite (read_bam_alignment_mapped a parts flag Hh Hflag).
  by case_decide.
Qed.

Lemma bam_branch_agrees_on_mapped_reads_witness :
  ingest_bam Examples.args_len5 10 [Examples.read_at_15]
    (Examples.start Examples.args_len5 10 Examples.one_chrom)
  = ingest Examples.args_len5 10 [Examples.read_at_15]
      (Examples.start Examples.args_len5 10 Examples.one_chrom).
Proof.
  apply (bam_branch_agrees_on_mapped_reads Examples.args_len5 10 [Examples.read_at_15]).
  apply Forall_cons_2; [|apply Forall_nil_2].
  split; [reflexivity|]. exists 0. split; [reflexivity|lia].
Defined.
